(** * Delivery routing and production scheduling: a shallow embedding

    This development embeds the two planners of the repository,
    [scripts/optimizers/delivery_router.py] and
    [scripts/optimizers/production_scheduler.py], and proves the properties
    their specification states about them.

    Modelling conventions.
    - Python [float] values are idealised as exact numbers.  The router calls
      the math library ([sin], [cos], [asin], [sqrt]), so its floats are the
      real numbers [R] of the Standard Library; comparisons on them are the
      classical decisions [Rle_dec], [Rlt_dec] and [Req_dec_T] turned into
      booleans.  The scheduler only adds, divides and compares, so its floats
      are rationals [Q] and the whole scheduler evaluates inside Rocq.
      Binary rounding, NaN and signed zeros are not modelled.
    - [datetime] values are rational hours since [datetime.min], midnight
      of 0001-01-01, and lie before the end of year 9999;
      [timedelta(minutes=m)] is a span of [m/60] hours.  Building a
      [timedelta] of more than 999999999 days, or adding one to a [datetime]
      so that the sum leaves years 1 to 9999, raises [OverflowError].  The
      microsecond rounding of [timedelta(hours=h)] and the range of [float]
      are not modelled.
    - Python [int] is [Z], [str] is [string], [list] is [list].
    - A [dict] that is iterated in insertion order ([VEHICLES]) is an
      association list; a [dict] that is only indexed ([machine_states],
      [SETUP_TIME_MATRIX], the distance matrix, the width groups) is a
      [gmap].  A [dict] with fixed keys that a report function returns
      ([summary], [format_plan_json]) is a record, in which the day number
      stands for the text [strftime] makes of a date.
    - An exception is a value of [exn] on the left of a sum. *)

From Stdlib Require Import ZArith QArith Qround Reals Lia Psatz List Permutation
  Sorted String Bool.
From stdpp Require Import base option list gmap strings.
Import ListNotations.

(** ** Python runtime pieces shared by both planners *)

Module Py.

(** [sorted(l, key=...)]: a stable sort that only uses [<] on the keys.
    [lt x y] is [key(x) < key(y)].  Insertion from the right keeps equal
    keys in input order. *)
Fixpoint insert_sorted {A} (lt : A -> A -> bool) (x : A) (l : list A)
  : list A :=
  match l with
  | [] => [x]
  | y :: l' => if lt y x then y :: insert_sorted lt x l' else x :: y :: l'
  end.

Fixpoint sorted {A} (lt : A -> A -> bool) (l : list A) : list A :=
  match l with
  | [] => []
  | x :: l' => insert_sorted lt x (sorted lt l')
  end.

(** [min(best :: l, key=...)]: the running best is replaced only when the
    new key is strictly smaller, so the first minimal item wins.
    [lt x y] is [key(x) < key(y)]. *)
Fixpoint min_by {A} (lt : A -> A -> bool) (best : A) (l : list A) : A :=
  match l with
  | [] => best
  | x :: l' => if lt x best then min_by lt x l' else min_by lt best l'
  end.

(** [l.remove(x)]: drops the first item equal to [x].  Python raises
    [ValueError] when there is none; every call site below removes an item
    that is present, and the list is returned unchanged otherwise. *)
Fixpoint remove_first {A} `{EqDecision A} (x : A) (l : list A) : list A :=
  match l with
  | [] => []
  | y :: l' => if decide (y = x) then l' else y :: remove_first x l'
  end.

(** [x in l] *)
Definition contains {A} `{EqDecision A} (x : A) (l : list A) : bool :=
  bool_decide (x ∈ l).

(** The item [min] returns, with the items in front of it and behind it. *)
Definition first_minimum {A} (lt : A -> A -> bool) (m : A) (l : list A)
  : Prop :=
  exists front back,
    l = front ++ m :: back
    /\ Forall (fun y => lt m y = true) front
    /\ Forall (fun y => lt y m = false) back.

(** No later item of [l] is smaller than an earlier one. *)
Definition ascending {A} (lt : A -> A -> bool) (l : list A) : Prop :=
  StronglySorted (fun a b => lt b a = false) l.

(** Neither item is smaller than the other: their keys are equal. *)
Definition tied {A} (lt : A -> A -> bool) (a b : A) : bool :=
  negb (lt a b) && negb (lt b a).

(** [round(x)] on an exact number: to the nearest integer, a tie to the even
    one. *)
Definition round_half_even (x : R) : Z :=
  let n := Int_part x in
  if Rlt_dec (x - IZR n) (1 / 2) then n
  else if Rlt_dec (1 / 2) (x - IZR n) then (n + 1)%Z
  else if Z.even n then n else (n + 1)%Z.

(** [round(x, 1)] *)
Definition round1 (x : R) : R := (IZR (round_half_even (x * 10)) / 10)%R.

(** [int(x)] on a float: truncation towards zero. *)
Definition int_of_float (x : R) : Z :=
  if Rle_dec 0 x then Int_part x else (- Int_part (- x))%Z.

(** [enumerate(l, start)] *)
Fixpoint enumerate_from {A} (start : nat) (l : list A) : list (nat * A) :=
  match l with
  | [] => []
  | x :: l' => (start, x) :: enumerate_from (S start) l'
  end.

(** [enumerate(l)] *)
Definition enumerate {A} (l : list A) : list (nat * A) := enumerate_from 0 l.

(** Exceptions the modelled code can raise. *)
Inductive exn : Type :=
| ZeroDivisionError
| KeyError
| OverflowError.

Definition result (A : Type) : Type := exn + A.
Definition ret {A} (a : A) : result A := inr a.
Definition raise {A} (e : exn) : result A := inl e.
Definition bind {A B} (c : result A) (k : A -> result B) : result B :=
  match c with
  | inl e => inl e
  | inr a => k a
  end.

(** The integers that convert to a [float]: those that round to less than
    [2^1024], the largest [float] being [2^1024 - 2^971]. *)
Definition float_fits (n : Z) : bool :=
  (Z.abs n <? 2 ^ 1024 - 2 ^ 970)%Z.

(** The conversion of an [int] operand in [int / float]. *)
Definition float_of_int (n : Z) : result Q :=
  if float_fits n then ret (inject_Z n) else raise OverflowError.

(** [datetime]: rational hours since [datetime.min], midnight of
    0001-01-01. *)
Definition datetime : Type := Q.

(** [date.max.toordinal()]: the number of days from 0001-01-01 to
    9999-12-31, both counted. *)
Definition MAXORDINAL : Z := 3652059.

(** The end of 9999-12-31, which no [datetime] reaches. *)
Definition datetime_end : Q := inject_Z (24 * MAXORDINAL).

(** The instants a [datetime] object can hold: years 1 to 9999. *)
Definition in_range (t : Q) : bool :=
  Qle_bool 0 t && negb (Qle_bool datetime_end t).

(** [datetime.combine(d, time(hour=h))]: the day of [d] at [h] o'clock. *)
Definition combine_hour (d : datetime) (h : Z) : datetime :=
  (inject_Z (24 * Qfloor (d / 24)) + inject_Z h)%Q.

(** The hours in [minutes=m] and in [hours=h]. *)
Definition timedelta_minutes (m : Z) : Q := (inject_Z m / 60)%Q.
Definition timedelta_hours (h : Q) : Q := h.

(** The spans a [timedelta] object can hold: its day count, rounded down,
    lies between -999999999 and 999999999. *)
Definition timedelta_fits (h : Q) : bool :=
  Qle_bool (inject_Z (24 * -999999999)) h
  && negb (Qle_bool (inject_Z (24 * 1000000000)) h).

(** [timedelta(...)] for a span of [h] hours. *)
Definition timedelta (h : Q) : result Q :=
  if timedelta_fits h then ret h else raise OverflowError.

(** [d + delta] on a [datetime] and a [timedelta]. *)
Definition datetime_add (d : datetime) (delta : Q) : result datetime :=
  if in_range (d + delta)%Q then ret (d + delta)%Q else raise OverflowError.

End Py.

Notation "'let*' x ':=' c 'in' k" := (Py.bind c (fun x => k))
  (at level 10, x name, c at level 100, k at level 200).

(** Comparisons on real-valued floats as booleans. *)
Definition Reqb (x y : R) : bool := if Req_dec_T x y then true else false.
Definition Rleb (x y : R) : bool := if Rle_dec x y then true else false.
Definition Rltb (x y : R) : bool := if Rlt_dec x y then true else false.

#[global] Instance R_eq_dec : EqDecision R := Req_dec_T.

(** ** The delivery router ([delivery_router.py]) *)

Module Router.

Open Scope R_scope.

Record Location : Type := {
  loc_name : string;
  loc_address : string;
  loc_lat : R;
  loc_lon : R
}.

(** [math.radians] *)
Definition radians (x : R) : R := x * (PI / 180).

(** [Location.distance_to] *)
Definition distance_to (self other : Location) : R :=
  if Reqb (loc_lat self) 0 || Reqb (loc_lat other) 0 then 10
  else
    let R := 6371 in
    let lat1 := radians (loc_lat self) in
    let lon1 := radians (loc_lon self) in
    let lat2 := radians (loc_lat other) in
    let lon2 := radians (loc_lon other) in
    let dlat := lat2 - lat1 in
    let dlon := lon2 - lon1 in
    let a := sin (dlat / 2) ^ 2 + cos lat1 * cos lat2 * sin (dlon / 2) ^ 2 in
    let c := 2 * asin (sqrt a) in
    R * c.

Record Shipment : Type := {
  shipment_id : string;
  customer : string;
  address : string;
  weight_kg : R;
  pallets : Z;
  time_window : string;
  lat : R;
  lon : R
}.

(** [Shipment.location] *)
Definition location (self : Shipment) : Location :=
  {| loc_name := customer self; loc_address := address self;
     loc_lat := lat self; loc_lon := lon self |}.

Record Vehicle : Type := {
  vehicle_id : string;
  name : string;
  capacity_kg : R;
  capacity_pallets : Z;
  cost_per_km : R;
  hourly_rate : R;
  fixed_cost : R;
  available : bool
}.

Record Route : Type := {
  route_vehicle_id : string;
  stops : list Shipment;
  total_distance_km : R;
  total_weight_kg : R;
  total_pallets : Z;
  estimated_time_hours : R
}.

#[global] Instance Shipment_eq_dec : EqDecision Shipment.
Proof. solve_decision. Defined.

(** A [dict] with string keys kept in insertion order. *)
Definition dict (V : Type) : Type := list (string * V).

Fixpoint dict_get {V} (d : dict V) (k : string) : option V :=
  match d with
  | [] => None
  | (k', v) :: d' => if String.eqb k' k then Some v else dict_get d' k
  end.

Definition DEPOT : Location :=
  {| loc_name := "세영화학"; loc_address := "경기도 화성시";
     loc_lat := 37.2; loc_lon := 127.0 |}.

Definition mkVehicle (id nm : string) (kg : R) (pl : Z) (km hr fx : R) : Vehicle :=
  {| vehicle_id := id; name := nm; capacity_kg := kg; capacity_pallets := pl;
     cost_per_km := km; hourly_rate := hr; fixed_cost := fx; available := true |}.

Definition VEHICLES : dict Vehicle :=
  [ ("V1", mkVehicle "V1" "5톤_1" 5000 10 200 15000 50000);
    ("V2", mkVehicle "V2" "5톤_2" 5000 10 200 15000 50000);
    ("V3", mkVehicle "V3" "11톤" 11000 20 350 18000 80000) ].

Definition AVERAGE_SPEED : R := 40.
Definition UNLOAD_TIME_MIN : R := 15.

(** [Route.cost]: the vehicle is looked up in the module-level [VEHICLES]. *)
Definition cost (self : Route) : R :=
  match dict_get VEHICLES (route_vehicle_id self) with
  | None => 0
  | Some vehicle =>
      let fuel_cost := total_distance_km self * cost_per_km vehicle in
      let labor_cost := estimated_time_hours self * hourly_rate vehicle in
      let fixed := match stops self with [] => 0 | _ => fixed_cost vehicle end in
      fuel_cost + labor_cost + fixed
  end.

Record RoutePlan : Type := {
  date : Py.datetime;
  routes : list Route;
  unassigned : list Shipment
}.

Record DeliveryRouter : Type := {
  depot : Location;
  vehicles : dict Vehicle;
  shipments : list Shipment
}.

(** [DeliveryRouter.__init__]: [None] and the empty dict both select the
    default fleet ([vehicles or VEHICLES]). *)
Definition init (depot0 : option Location) (vehicles0 : option (dict Vehicle))
  : DeliveryRouter :=
  {| depot := match depot0 with Some d => d | None => DEPOT end;
     vehicles := match vehicles0 with
                 | Some (item :: d) => item :: d
                 | _ => VEHICLES
                 end;
     shipments := [] |}.

(** [DeliveryRouter.add_shipments] *)
Definition add_shipments (self : DeliveryRouter) (l : list Shipment)
  : DeliveryRouter :=
  {| depot := depot self; vehicles := vehicles self;
     shipments := shipments self ++ l |}.

(** The filter of the loop of [nearest_neighbor]. *)
Definition fits (route : Route) (vehicle : Vehicle) (s : Shipment) : bool :=
  Rleb (total_weight_kg route + weight_kg s) (capacity_kg vehicle)
  && (total_pallets route + pallets s <=? capacity_pallets vehicle)%Z.

(** The variables the [while] loop of [nearest_neighbor] updates. *)
Record walk : Type := {
  route : Route;
  remaining : list Shipment;
  current_location : Location
}.

Definition closer (from : Location) (s t : Shipment) : bool :=
  Rltb (distance_to from (location s)) (distance_to from (location t)).

(** Appending [nearest] to the route under construction. *)
Definition visit (w : walk) (nearest : Shipment) : walk :=
  let r := route w in
  {| route :=
       {| route_vehicle_id := route_vehicle_id r;
          stops := stops r ++ [nearest];
          total_distance_km :=
            total_distance_km r
            + distance_to (current_location w) (location nearest);
          total_weight_kg := total_weight_kg r + weight_kg nearest;
          total_pallets := (total_pallets r + pallets nearest)%Z;
          estimated_time_hours := estimated_time_hours r |};
     remaining := Py.remove_first nearest (remaining w);
     current_location := location nearest |}.

(** One iteration of the loop; [None] is the [break]. *)
Definition step (vehicle : Vehicle) (w : walk) : option walk :=
  match List.filter (fits (route w) vehicle) (remaining w) with
  | [] => None
  | s :: feasible =>
      Some (visit w (Py.min_by (closer (current_location w)) s feasible))
  end.

(** The [while remaining:] loop.  Each iteration removes one shipment, so
    [length shipments] iterations are enough (see [loop_exits]). *)
Fixpoint loop (fuel : nat) (vehicle : Vehicle) (w : walk) : walk :=
  match fuel with
  | O => w
  | S fuel' =>
      match remaining w with
      | [] => w
      | _ :: _ =>
          match step vehicle w with
          | None => w
          | Some w' => loop fuel' vehicle w'
          end
      end
  end.

(** The code after the loop: return leg and elapsed time. *)
Definition finish (self_depot : Location) (w : walk) : Route :=
  let r := route w in
  match stops r with
  | [] => r
  | _ :: _ =>
      let d := total_distance_km r
               + distance_to (current_location w) self_depot in
      {| route_vehicle_id := route_vehicle_id r;
         stops := stops r;
         total_distance_km := d;
         total_weight_kg := total_weight_kg r;
         total_pallets := total_pallets r;
         estimated_time_hours :=
           d / AVERAGE_SPEED
           + INR (length (stops r)) * UNLOAD_TIME_MIN / 60 |}
  end.

Definition start (self_depot : Location) (shipments0 : list Shipment)
  (vehicle : Vehicle) : walk :=
  {| route := {| route_vehicle_id := vehicle_id vehicle; stops := [];
                 total_distance_km := 0; total_weight_kg := 0;
                 total_pallets := 0; estimated_time_hours := 0 |};
     remaining := shipments0;
     current_location := self_depot |}.

(** [DeliveryRouter.nearest_neighbor] *)
Definition nearest_neighbor (self : DeliveryRouter)
  (shipments0 : list Shipment) (vehicle : Vehicle) : Route :=
  finish (depot self)
    (loop (length shipments0) vehicle (start (depot self) shipments0 vehicle)).

(** The sort key of [create_plan]: [(0|1|2, -weight_kg)]. *)
Definition window_rank (s : Shipment) : Z :=
  if String.eqb (time_window s) "AM" then 0
  else if String.eqb (time_window s) "PM" then 1 else 2.

(** Tuple comparison: the first components decide unless they are equal. *)
Definition shipment_before (s t : Shipment) : bool :=
  if (window_rank s =? window_rank t)%Z
  then Rltb (- weight_kg s) (- weight_kg t)
  else (window_rank s <? window_rank t)%Z.

Definition larger_first (x y : string * Vehicle) : bool :=
  Rltb (- capacity_kg (snd x)) (- capacity_kg (snd y)).

(** The inner loop of [create_plan] that takes a route's stops out of the
    pool. *)
Definition take_out (pool : list Shipment) (stop : Shipment) : list Shipment :=
  if Py.contains stop pool then Py.remove_first stop pool else pool.

(** The body of the vehicle loop of [create_plan]; the state is
    [(plan.routes, remaining)]. *)
Definition dispatch (self : DeliveryRouter)
  (st : list Route * list Shipment) (item : string * Vehicle)
  : list Route * list Shipment :=
  let vehicle := snd item in
  match snd st with
  | [] => st
  | _ :: _ =>
      if negb (available vehicle) then st
      else
        let r := nearest_neighbor self (snd st) vehicle in
        match stops r with
        | [] => st
        | _ :: _ => (fst st ++ [r], fold_left take_out (stops r) (snd st))
        end
  end.

(** [DeliveryRouter.create_plan] *)
Definition create_plan (self : DeliveryRouter) (target_date : Py.datetime)
  : RoutePlan :=
  let sorted_shipments := Py.sorted shipment_before (shipments self) in
  let st := fold_left (dispatch self)
              (Py.sorted larger_first (vehicles self))
              ([], sorted_shipments) in
  {| date := target_date; routes := fst st; unassigned := snd st |}.

(** [DeliveryRouter.optimize_plan] *)
Definition optimize_plan (self : DeliveryRouter) (plan : RoutePlan)
  : RoutePlan := plan.

(** [RoutePlan.total_cost]: [sum] adds from the left, starting at 0. *)
Definition total_cost (self : RoutePlan) : R :=
  fold_left Rplus (map cost (routes self)) 0.

(** [RoutePlan.total_distance] *)
Definition total_distance (self : RoutePlan) : R :=
  fold_left Rplus (map total_distance_km (routes self)) 0.

(** The dict [RoutePlan.summary] returns.  Its ["date"] is the text of the
    plan's day; the day number stands for it here. *)
Record PlanSummary : Type := {
  summary_date : Z;
  summary_total_shipments : Z;
  summary_unassigned_shipments : Z;
  summary_vehicles_used : Z;
  summary_total_distance_km : R;
  summary_total_cost : Z
}.

(** [RoutePlan.summary] *)
Definition summary (self : RoutePlan) : PlanSummary :=
  {| summary_date := Qfloor (date self / 24);
     summary_total_shipments :=
       fold_left Z.add
         (map (fun r => Z.of_nat (length (stops r))) (routes self)) 0%Z;
     summary_unassigned_shipments := Z.of_nat (length (unassigned self));
     summary_vehicles_used :=
       Z.of_nat
         (length (List.filter
                    (fun r => match stops r with [] => false | _ :: _ => true end)
                    (routes self)));
     summary_total_distance_km := Py.round1 (total_distance self);
     summary_total_cost := Py.int_of_float (total_cost self) |}.

(** The inner loop of [calculate_distance_matrix]: row [i] of the matrix. *)
Definition matrix_row (locations : list Location) (matrix : gmap (nat * nat) R)
  (row : nat * Location) : gmap (nat * nat) R :=
  fold_left
    (fun matrix col =>
       <[(fst row, fst col) :=
           if Nat.eqb (fst row) (fst col) then 0
           else distance_to (snd row) (snd col)]> matrix)
    (Py.enumerate locations) matrix.

(** [DeliveryRouter.calculate_distance_matrix] *)
Definition calculate_distance_matrix (self : DeliveryRouter)
  : gmap (nat * nat) R :=
  let locations := depot self :: map location (shipments self) in
  fold_left (matrix_row locations) (Py.enumerate locations) ∅.

(** One item of the ["stops"] list of a route in [format_plan_json]. *)
Record StopEntry : Type := {
  stop_shipment_id : string;
  stop_customer : string;
  stop_address : string;
  stop_weight_kg : R;
  stop_pallets : Z;
  stop_time_window : string
}.

(** One item of the ["routes"] list of [format_plan_json]. *)
Record RouteEntry : Type := {
  json_vehicle_id : string;
  json_vehicle_name : string;
  json_total_distance_km : R;
  json_total_weight_kg : R;
  json_total_pallets : Z;
  json_estimated_time_hours : R;
  json_cost : Z;
  json_stops : list StopEntry
}.

(** One item of the ["unassigned"] list of [format_plan_json]. *)
Record UnassignedEntry : Type := {
  json_shipment_id : string;
  json_customer : string;
  json_reason : string
}.

(** The dict [format_plan_json] returns; the day number stands for the text
    of ["plan_date"]. *)
Record PlanJson : Type := {
  json_plan_date : Z;
  json_summary : PlanSummary;
  json_routes : list RouteEntry;
  json_unassigned : list UnassignedEntry
}.

(** [VEHICLES.get(r.vehicle_id, Vehicle(r.vehicle_id, r.vehicle_id, 0, 0)).name] *)
Definition vehicle_name (id : string) : string :=
  match dict_get VEHICLES id with
  | Some vehicle => name vehicle
  | None => id
  end.

Definition stop_entry (s : Shipment) : StopEntry :=
  {| stop_shipment_id := shipment_id s;
     stop_customer := customer s;
     stop_address := address s;
     stop_weight_kg := weight_kg s;
     stop_pallets := pallets s;
     stop_time_window := time_window s |}.

Definition route_entry (r : Route) : RouteEntry :=
  {| json_vehicle_id := route_vehicle_id r;
     json_vehicle_name := vehicle_name (route_vehicle_id r);
     json_total_distance_km := Py.round1 (total_distance_km r);
     json_total_weight_kg := total_weight_kg r;
     json_total_pallets := total_pallets r;
     json_estimated_time_hours := Py.round1 (estimated_time_hours r);
     json_cost := Py.int_of_float (cost r);
     json_stops := map stop_entry (stops r) |}.

(** [format_plan_json] *)
Definition format_plan_json (plan : RoutePlan) : PlanJson :=
  {| json_plan_date := Qfloor (date plan / 24);
     json_summary := summary plan;
     json_routes :=
       map route_entry
         (List.filter
            (fun r => match stops r with [] => false | _ :: _ => true end)
            (routes plan));
     json_unassigned :=
       map (fun s => {| json_shipment_id := shipment_id s;
                        json_customer := customer s;
                        json_reason := "capacity_exceeded" |})
           (unassigned plan) |}.

End Router.

(** ** The production scheduler ([production_scheduler.py]) *)

Module Scheduler.

Open Scope Q_scope.

Definition Qltb (x y : Q) : bool := negb (Qle_bool y x).

Record Order : Type := {
  order_id : string;
  product_code : string;
  width_mm : Z;
  quantity_rolls : Z;
  due_date : Py.datetime;
  color : string;
  priority : Z
}.

Record Machine : Type := {
  machine_id : string;
  name : string;
  width_min : Z;
  width_max : Z;
  speed_m_per_min : Q;
  max_items_per_cycle : Z;
  available : bool;
  current_setup : option string
}.

Record ScheduleSlot : Type := {
  slot_machine_id : string;
  orders : list Order;
  start_time : Py.datetime;
  end_time : Py.datetime;
  setup_time_min : Z
}.

(** [ScheduleSlot.duration_hours] *)
Definition duration_hours (self : ScheduleSlot) : Q :=
  end_time self - start_time self.

Record Schedule : Type := {
  date : Py.datetime;
  slots : list ScheduleSlot;
  unscheduled_orders : list Order
}.

(** [Schedule.add_slot] *)
Definition add_slot (self : Schedule) (slot : ScheduleSlot) : Schedule :=
  {| date := date self; slots := slots self ++ [slot];
     unscheduled_orders := unscheduled_orders self |}.

(** [schedule.unscheduled_orders.append(order)] *)
Definition add_unscheduled (self : Schedule) (order : Order) : Schedule :=
  {| date := date self; slots := slots self;
     unscheduled_orders := unscheduled_orders self ++ [order] |}.

Definition mkMachine (id nm : string) (lo hi : Z) : Machine :=
  {| machine_id := id; name := nm; width_min := lo; width_max := hi;
     speed_m_per_min := 30; max_items_per_cycle := 4; available := true;
     current_setup := None |}.

Definition MACHINES : list Machine :=
  [ mkMachine "M1" "1호기" 400 600;
    mkMachine "M2" "2호기" 500 800;
    mkMachine "M3" "3호기" 700 1200 ].

Definition SETUP_TIME_MATRIX : gmap (string * string) Z :=
  <[("CLEAR", "CLEAR") := 10%Z]>
  (<[("CLEAR", "COLOR") := 30%Z]>
  (<[("COLOR", "CLEAR") := 45%Z]>
  (<[("COLOR", "COLOR") := 20%Z]> ∅))).

Definition WORK_START_HOUR : Z := 8.
Definition WORK_END_HOUR : Z := 20.
Definition HOURS_PER_DAY : Z := WORK_END_HOUR - WORK_START_HOUR.

Record ProductionScheduler : Type := {
  machines : list Machine;
  sched_orders : list Order
}.

(** [ProductionScheduler.__init__]: [machines or MACHINES]. *)
Definition init (machines0 : option (list Machine)) : ProductionScheduler :=
  {| machines := match machines0 with
                 | Some (m :: l) => m :: l
                 | _ => MACHINES
                 end;
     sched_orders := [] |}.

(** [ProductionScheduler.add_orders] *)
Definition add_orders (self : ProductionScheduler) (l : list Order)
  : ProductionScheduler :=
  {| machines := machines self; sched_orders := sched_orders self ++ l |}.

(** [ProductionScheduler.get_compatible_machines] *)
Definition get_compatible_machines (self : ProductionScheduler) (order : Order)
  : list Machine :=
  List.filter (fun m => available m
                   && (width_min m <=? width_mm order)%Z
                   && (width_mm order <=? width_max m)%Z)
         (machines self).

(** [ProductionScheduler.calculate_setup_time] *)
Definition calculate_setup_time (from_color to_color : string) : Z :=
  default 30%Z (SETUP_TIME_MATRIX !! (from_color, to_color)).

(** [ProductionScheduler.estimate_production_time]: the [int] of metres is
    converted to a [float], which raises when it is too large, and dividing
    by a zero speed raises. *)
Definition estimate_production_time (order : Order) (machine : Machine)
  : Py.result Q :=
  let meters_per_roll := 1000%Z in
  let total_meters := (quantity_rolls order * meters_per_roll)%Z in
  let* meters := Py.float_of_int total_meters in
  if Qeq_bool (speed_m_per_min machine) 0 then Py.raise Py.ZeroDivisionError
  else
    let minutes := meters / speed_m_per_min machine in
    Py.ret (minutes / 60).

(** The sort key of [sort_orders_for_scheduling]:
    [(-priority, due_date, 0 if CLEAR else 1)], compared as tuples. *)
Definition color_rank (o : Order) : Z :=
  if String.eqb (color o) "CLEAR" then 0 else 1.

Definition order_before (o p : Order) : bool :=
  if negb (- priority o =? - priority p)%Z
  then (- priority o <? - priority p)%Z
  else if negb (Qeq_bool (due_date o) (due_date p))
  then Qltb (due_date o) (due_date p)
  else (color_rank o <? color_rank p)%Z.

(** [ProductionScheduler.sort_orders_for_scheduling] *)
Definition sort_orders_for_scheduling (l : list Order) : list Order :=
  Py.sorted order_before l.

(** One entry of [machine_states]. *)
Record MachineState : Type := {
  current_time : Py.datetime;
  current_color : string;
  orders_today : list string
}.

(** [m.current_setup or "CLEAR"]: [None] and the empty string are falsy. *)
Definition initial_color (m : Machine) : string :=
  match current_setup m with
  | Some (String c s) => String c s
  | _ => "CLEAR"
  end.

(** The dict comprehension that builds [machine_states]; a later machine
    with the same id overwrites an earlier one. *)
Definition initial_states (self : ProductionScheduler)
  (target_date : Py.datetime) : gmap string MachineState :=
  fold_left
    (fun states m =>
       <[machine_id m :=
           {| current_time := Py.combine_hour target_date WORK_START_HOUR;
              current_color := initial_color m;
              orders_today := [] |}]> states)
    (machines self) ∅.

(** [machine_states[key]] *)
Definition state_of (states : gmap string MachineState) (key : string)
  : Py.result MachineState :=
  match states !! key with
  | Some s => Py.ret s
  | None => Py.raise Py.KeyError
  end.

(** The body of [for machine in compatible_machines].  [best] is
    [(best_machine, best_setup_time)]; [None] stands for
    [(None, float('inf'))], below which every setup time lies. *)
Definition consider (states : gmap string MachineState) (order : Order)
  (best : option (Machine * Z)) (machine : Machine)
  : Py.result (option (Machine * Z)) :=
  let* state := state_of states (machine_id machine) in
  let setup_time :=
    calculate_setup_time (current_color state) (color order) in
  if (max_items_per_cycle machine <=? Z.of_nat (length (orders_today state)))%Z
  then Py.ret best
  else
    match best with
    | None => Py.ret (Some (machine, setup_time))
    | Some (_, best_setup_time) =>
        if (setup_time <? best_setup_time)%Z
        then Py.ret (Some (machine, setup_time))
        else Py.ret best
    end.

Definition select_machine (states : gmap string MachineState) (order : Order)
  (compatible_machines : list Machine) : Py.result (option (Machine * Z)) :=
  fold_left (fun acc machine => let* best := acc in
                                consider states order best machine)
            compatible_machines (Py.ret None).

(** Why an order was appended to [unscheduled_orders]: the three [continue]
    statements of the loop body, in source order.  The code itself keeps no
    such tag; it is recorded here to state properties of each path. *)
Inductive shortfall : Type :=
| no_compatible_machine
| item_limit_reached
| work_window_exceeded.

(** What the loop body decides for one order. *)
Inductive verdict : Type :=
| unscheduled (why : shortfall)
| committed (slot : ScheduleSlot) (state : MachineState).

Definition judge (self : ProductionScheduler) (target_date : Py.datetime)
  (states : gmap string MachineState) (order : Order) : Py.result verdict :=
  match get_compatible_machines self order with
  | [] => Py.ret (unscheduled no_compatible_machine)
  | compatible_machines =>
      let* best := select_machine states order compatible_machines in
      match best with
      | None => Py.ret (unscheduled item_limit_reached)
      | Some (best_machine, best_setup_time) =>
          let* state := state_of states (machine_id best_machine) in
          let* production_time :=
            estimate_production_time order best_machine in
          let* setup :=
            Py.timedelta (Py.timedelta_minutes best_setup_time) in
          let* start_time := Py.datetime_add (current_time state) setup in
          let* production :=
            Py.timedelta (Py.timedelta_hours production_time) in
          let* end_time := Py.datetime_add start_time production in
          let work_end := Py.combine_hour target_date WORK_END_HOUR in
          if Qltb work_end end_time
          then Py.ret (unscheduled work_window_exceeded)
          else
            Py.ret
              (committed
                 {| slot_machine_id := machine_id best_machine;
                    orders := [order];
                    start_time := start_time;
                    end_time := end_time;
                    setup_time_min := best_setup_time |}
                 {| current_time := end_time;
                    current_color := color order;
                    orders_today := orders_today state ++ [order_id order] |})
      end
  end.

(** The variables the order loop of [create_schedule] updates. *)
Record progress : Type := {
  machine_states : gmap string MachineState;
  schedule : Schedule
}.

(** The body of [for order in sorted_orders]. *)
Definition place (self : ProductionScheduler) (target_date : Py.datetime)
  (p : progress) (order : Order) : Py.result progress :=
  let* v := judge self target_date (machine_states p) order in
  match v with
  | unscheduled _ =>
      Py.ret {| machine_states := machine_states p;
                schedule := add_unscheduled (schedule p) order |}
  | committed slot state =>
      Py.ret {| machine_states :=
                  <[slot_machine_id slot := state]> (machine_states p);
                schedule := add_slot (schedule p) slot |}
  end.

Definition run (self : ProductionScheduler) (target_date : Py.datetime)
  (l : list Order) (p : progress) : Py.result progress :=
  fold_left (fun acc order => let* p := acc in place self target_date p order)
            l (Py.ret p).

(** [ProductionScheduler.create_schedule] *)
Definition create_schedule (self : ProductionScheduler)
  (target_date : Py.datetime) : Py.result Schedule :=
  let p0 := {| machine_states := initial_states self target_date;
               schedule := {| date := target_date; slots := [];
                              unscheduled_orders := [] |} |} in
  let sorted_orders := sort_orders_for_scheduling (sched_orders self) in
  let* p := run self target_date sorted_orders p0 in
  Py.ret (schedule p).

(** [ProductionScheduler.optimize_schedule] *)
Definition optimize_schedule (self : ProductionScheduler) (s : Schedule)
  : Schedule := s.

(** One item of the ["unscheduled"] list of [format_schedule_json]. *)
Record unscheduled_entry : Type := {
  entry_order_id : string;
  entry_product_code : string;
  reason : string
}.

(** The ["unscheduled"] list of [format_schedule_json]. *)
Definition format_unscheduled_json (s : Schedule) : list unscheduled_entry :=
  map (fun o => {| entry_order_id := order_id o;
                   entry_product_code := product_code o;
                   reason := "capacity_exceeded" |})
      (unscheduled_orders s).

(** [ProductionScheduler.group_orders_by_width]: a missing key starts from
    the empty list ([defaultdict(list)]). *)
Definition group_orders_by_width (self : ProductionScheduler)
  : gmap Z (list Order) :=
  fold_left
    (fun groups order =>
       let width_group := (width_mm order / 100 * 100)%Z in
       <[width_group := default [] (groups !! width_group) ++ [order]]> groups)
    (sched_orders self) ∅.

(** The dict [Schedule.summary] returns.  Its ["date"] is the text of the
    schedule's day; the day number stands for it here. *)
Record ScheduleSummary : Type := {
  summary_date : Z;
  summary_total_orders : Z;
  summary_unscheduled_orders : Z;
  summary_machines_used : Z;
  summary_total_setup_time_min : Z;
  summary_slots : Z
}.

(** [Schedule.summary] *)
Definition summary (self : Schedule) : ScheduleSummary :=
  let total_orders :=
    fold_left Z.add
      (map (fun s => Z.of_nat (length (orders s))) (slots self)) 0%Z in
  let total_setup_time :=
    fold_left Z.add (map setup_time_min (slots self)) 0%Z in
  let machines_used :=
    Z.of_nat (size (list_to_set (map slot_machine_id (slots self))
                    : gset string)) in
  {| summary_date := Qfloor (date self / 24);
     summary_total_orders := total_orders;
     summary_unscheduled_orders := Z.of_nat (length (unscheduled_orders self));
     summary_machines_used := machines_used;
     summary_total_setup_time_min := total_setup_time;
     summary_slots := Z.of_nat (length (slots self)) |}.

End Scheduler.

(** * Specification vocabulary

    The predicates and functions in which the properties are stated. *)

Module RouterSpec.
Import Router.
Open Scope R_scope.

(** A complete run of the loop: steps are taken until the pool is empty or
    nothing fits. *)
Inductive runs (v : Vehicle) : walk -> walk -> Prop :=
| runs_empty w : remaining w = [] -> runs v w w
| runs_break w : step v w = None -> runs v w w
| runs_step w w' w'' :
    step v w = Some w' -> runs v w' w'' -> runs v w w''.

Definition within_capacity (v : Vehicle) (r : Route) : Prop :=
  total_weight_kg r <= capacity_kg v
  /\ (total_pallets r <= capacity_pallets v)%Z.

(** A route nothing was loaded on. *)
Definition unloaded (r : Route) : Prop :=
  stops r = [] /\ total_weight_kg r = 0 /\ total_pallets r = 0%Z.

(** All shipments a plan has put on routes, in route order. *)
Definition assigned (plan : RoutePlan) : list Shipment :=
  concat (map stops (routes plan)).

(** [m] is the first item of [l] at minimal distance from [from]: items in
    front of it are strictly farther, items behind it are not nearer. *)
Definition nearest_first (from : Location) (m : Shipment) (l : list Shipment)
  : Prop :=
  exists front back,
    l = front ++ m :: back
    /\ Forall (fun s => distance_to from (location m)
                        < distance_to from (location s)) front
    /\ Forall (fun s => distance_to from (location m)
                        <= distance_to from (location s)) back.

(** The walk the specification describes: while some remaining shipment
    fits, go to the first nearest one. *)
Inductive nearest_walk (v : Vehicle) : walk -> walk -> Prop :=
| nearest_walk_stop w :
    List.filter (fits (route w) v) (remaining w) = [] ->
    nearest_walk v w w
| nearest_walk_go w nearest w' :
    nearest_first (current_location w) nearest
      (List.filter (fits (route w) v) (remaining w)) ->
    nearest_walk v (visit w nearest) w' ->
    nearest_walk v w w'.

(** Length of the legs from [from] through the stops, without the return. *)
Fixpoint path_km (from : Location) (l : list Shipment) : R :=
  match l with
  | [] => 0
  | s :: l' => distance_to from (location s) + path_km (location s) l'
  end.

(** Where the vehicle stands after the stops. *)
Definition end_of (from : Location) (l : list Shipment) : Location :=
  fold_left (fun _ s => location s) l from.

Definition on_path (d : Location) (w : walk) : Prop :=
  total_distance_km (route w) = path_km d (stops (route w))
  /\ current_location w = end_of d (stops (route w)).

(** The haversine of an angle: half of its versed sine. *)
Definition hav (x : R) : R := (1 - cos x) / 2.

(** The great-circle distance as the specification words it: the haversine
    formula on a sphere of radius 6371 km, latitudes and longitudes taken
    from degrees to radians. *)
Definition great_circle_km (a b : Location) : R :=
  let phi1 := radians (loc_lat a) in
  let phi2 := radians (loc_lat b) in
  let lam1 := radians (loc_lon a) in
  let lam2 := radians (loc_lon b) in
  2 * 6371
  * asin (sqrt (hav (phi2 - phi1) + cos phi1 * cos phi2 * hav (lam2 - lam1))).

(** The "unset" location of the specification: both axes zero. *)
Definition unset (a : Location) : bool :=
  Reqb (loc_lat a) 0 && Reqb (loc_lon a) 0.

(** The cost formula for a given vehicle. *)
Definition cost_with (v : Vehicle) (r : Route) : R :=
  total_distance_km r * cost_per_km v
  + estimated_time_hours r * hourly_rate v
  + match stops r with [] => 0 | _ :: _ => fixed_cost v end.

(** The sum [nearest_neighbor] keeps in [total_weight_kg]. *)
Definition weight_of (l : list Shipment) : R :=
  fold_left (fun acc s => acc + weight_kg s) l 0.

(** The sum [nearest_neighbor] keeps in [total_pallets]. *)
Definition pallets_of (l : list Shipment) : Z :=
  fold_left (fun acc s => (acc + pallets s)%Z) l 0%Z.

(** [s] could still be loaded on route [r] of vehicle [v]. *)
Definition loadable (v : Vehicle) (r : Route) (s : Shipment) : Prop :=
  total_weight_kg r + weight_kg s <= capacity_kg v
  /\ (total_pallets r + pallets s <= capacity_pallets v)%Z.

(** [create_plan] handles [s] before [t] or together with it: an earlier
    time window, or the same window and no less weight. *)
Definition goes_first (s t : Shipment) : Prop :=
  (window_rank s < window_rank t)%Z
  \/ (window_rank s = window_rank t /\ weight_kg t <= weight_kg s).

(** Route [r] was built by [self] for an available vehicle of its fleet. *)
Definition built_by (self : DeliveryRouter) (r : Route) : Prop :=
  exists pool key v,
    In (key, v) (vehicles self)
    /\ available v = true
    /\ r = nearest_neighbor self pool v
    /\ stops r <> [].

(** The locations [calculate_distance_matrix] numbers: depot first. *)
Definition matrix_locations (self : DeliveryRouter) : list Location :=
  depot self :: map location (shipments self).

End RouterSpec.

Module SchedulerSpec.
Import Scheduler.
Open Scope Q_scope.

(** Every machine of the scheduler has an entry in [machine_states]. *)
Definition covered (self : ProductionScheduler)
  (states : gmap string MachineState) : Prop :=
  forall m, In m (machines self) -> is_Some (states !! machine_id m).

Definition below_limit (m : Machine) (st : MachineState) : bool :=
  negb (max_items_per_cycle m <=? Z.of_nat (length (orders_today st)))%Z.

(** [m] can take [order], at setup time [t]: it has a state, fewer orders
    than its per-cycle limit, and [t] is the changeover from its colour. *)
Definition candidate (states : gmap string MachineState) (order : Order)
  (m : Machine) (t : Z) : Prop :=
  exists st,
    states !! machine_id m = Some st
    /\ below_limit m st = true
    /\ t = calculate_setup_time (current_color st) (color order).

(** [m], at setup time [t], is the first machine of [l] with the least setup
    time among the candidates of [l]. *)
Definition first_cheapest (states : gmap string MachineState) (order : Order)
  (m : Machine) (t : Z) (l : list Machine) : Prop :=
  exists front back,
    l = front ++ m :: back
    /\ candidate states order m t
    /\ (forall x t', In x front -> candidate states order x t' -> (t < t')%Z)
    /\ (forall x t', In x back -> candidate states order x t' -> (t <= t')%Z).

Definition chosen (states : gmap string MachineState) (order : Order)
  (best : option (Machine * Z)) (l : list Machine) : Prop :=
  match best with
  | None => forall x t, In x l -> ~ candidate states order x t
  | Some (m, t) => first_cheapest states order m t l
  end.

Definition work_end (target_date : Py.datetime) : Py.datetime :=
  Py.combine_hour target_date WORK_END_HOUR.

(** The metres of an order convert to a [float]. *)
Definition measurable (order : Order) : Prop :=
  Py.float_fits (quantity_rolls order * 1000) = true.

(** Production time in hours: [quantity_rolls * 1000 / speed / 60]. *)
Definition production_hours (order : Order) (m : Machine) : Q :=
  inject_Z (quantity_rolls order * 1000) / speed_m_per_min m / 60.

(** The slot and the machine state a commit produces. *)
Definition slot_for (order : Order) (m : Machine) (t : Z) (st : MachineState)
  (production_time : Q) : ScheduleSlot :=
  {| slot_machine_id := machine_id m;
     orders := [order];
     start_time := current_time st + Py.timedelta_minutes t;
     end_time := current_time st + Py.timedelta_minutes t
                 + Py.timedelta_hours production_time;
     setup_time_min := t |}.

Definition state_after (order : Order) (t : Z) (st : MachineState)
  (production_time : Q) : MachineState :=
  {| current_time := current_time st + Py.timedelta_minutes t
                     + Py.timedelta_hours production_time;
     current_color := color order;
     orders_today := orders_today st ++ [order_id order] |}.

(** What [judge] does once a machine has been selected: the two sums on
    [datetime] values raise when a span or a result leaves the range. *)
Definition settle (target_date : Py.datetime) (order : Order) (m : Machine)
  (t : Z) (st : MachineState) : Py.result verdict :=
  let* production_time := estimate_production_time order m in
  let* setup := Py.timedelta (Py.timedelta_minutes t) in
  let* start_time := Py.datetime_add (current_time st) setup in
  let* production := Py.timedelta (Py.timedelta_hours production_time) in
  let* end_time := Py.datetime_add start_time production in
  if Qltb (work_end target_date) end_time
  then Py.ret (unscheduled work_window_exceeded)
  else
    Py.ret
      (committed
         {| slot_machine_id := machine_id m;
            orders := [order];
            start_time := start_time;
            end_time := end_time;
            setup_time_min := t |}
         {| current_time := end_time;
            current_color := color order;
            orders_today := orders_today st ++ [order_id order] |}).

(** The start and the end of the slot that would follow the state [st]
    after a setup of [t] minutes and a production of [production_time] hours
    can be computed: both spans and both instants are in range. *)
Definition on_calendar (st : MachineState) (t : Z) (production_time : Q)
  : Prop :=
  Py.timedelta_fits (Py.timedelta_minutes t) = true
  /\ Py.in_range (current_time st + Py.timedelta_minutes t) = true
  /\ Py.timedelta_fits production_time = true
  /\ Py.in_range (current_time st + Py.timedelta_minutes t + production_time)
     = true.

(** The orders a schedule has put in slots, in slot order. *)
Definition scheduled (s : Schedule) : list Order :=
  concat (map orders (slots s)).

Definition skip (p : progress) (order : Order) : progress :=
  {| machine_states := machine_states p;
     schedule := add_unscheduled (schedule p) order |}.

Definition commit (p : progress) (slot : ScheduleSlot) (st : MachineState)
  : progress :=
  {| machine_states := <[slot_machine_id slot := st]> (machine_states p);
     schedule := add_slot (schedule p) slot |}.

(** The slots of one machine, in assignment order. *)
Definition slots_of (id : string) (l : list ScheduleSlot) : list ScheduleSlot :=
  List.filter (fun s => String.eqb (slot_machine_id s) id) l.

(** Each slot ends before the next one starts. *)
Definition consecutive (l : list ScheduleSlot) : Prop :=
  forall (i : nat) s1 s2,
    l !! i = Some s1 -> l !! S i = Some s2 -> end_time s1 < start_time s2.

(** The invariant of the order loop behind the slot order: slots end within
    the work day, each machine's slots are consecutive, and a machine's
    cursor is the end of its latest slot. *)
Record tidy (target_date : Py.datetime) (p : progress) : Prop := {
  tidy_window :
    forall s, In s (slots (schedule p)) -> end_time s <= work_end target_date;
  tidy_order :
    forall id, consecutive (slots_of id (slots (schedule p)));
  tidy_cursor :
    forall id s,
      last (slots_of id (slots (schedule p))) = Some s ->
      exists st,
        machine_states p !! id = Some st /\ current_time st = end_time s
}.

(** The progress the loop starts from. *)
Definition opening (self : ProductionScheduler) (target_date : Py.datetime)
  : progress :=
  {| machine_states := initial_states self target_date;
     schedule := {| date := target_date; slots := [];
                    unscheduled_orders := [] |} |}.

(** [o] is scheduled no later than [p]: a higher priority, or the same
    priority and an earlier due date, or both the same and a colour that is
    not dearer to set up. *)
Definition precedes (o p : Order) : Prop :=
  (priority p < priority o)%Z
  \/ (priority o = priority p
      /\ (due_date o < due_date p
          \/ (due_date o == due_date p
              /\ (color_rank o <= color_rank p)%Z))).

(** [o] and [p] have the same sort key. *)
Definition same_key (o p : Order) : bool :=
  (priority o =? priority p)%Z
  && Qeq_bool (due_date o) (due_date p)
  && (color_rank o =? color_rank p)%Z.

(** The key of [group_orders_by_width]: the width rounded down to a
    multiple of 100. *)
Definition width_group (o : Order) : Z := (width_mm o / 100 * 100)%Z.

Definition work_start (target_date : Py.datetime) : Py.datetime :=
  Py.combine_hour target_date WORK_START_HOUR.

(** A slot as [create_schedule] builds it: one order, on an available
    machine of the scheduler whose width range holds the order, lasting the
    order's production time on that machine, after a setup time of the
    table. *)
Definition sound_slot (self : ProductionScheduler) (slot : ScheduleSlot)
  : Prop :=
  exists m order,
    In m (machines self)
    /\ available m = true
    /\ (width_min m <= width_mm order <= width_max m)%Z
    /\ ~ speed_m_per_min m == 0
    /\ slot_machine_id slot = machine_id m
    /\ orders slot = [order]
    /\ In (setup_time_min slot) [10; 20; 30; 45]%Z
    /\ end_time slot = start_time slot + production_hours order m.

(** The bookkeeping of the order loop: a machine's [orders_today] has one
    entry per slot committed to it, and a machine id with slots has a
    machine whose item limit covers them. *)
Record counted (self : ProductionScheduler) (p : progress) : Prop := {
  counted_today :
    forall id st,
      machine_states p !! id = Some st ->
      length (orders_today st) = length (slots_of id (slots (schedule p)));
  counted_limit :
    forall id,
      slots_of id (slots (schedule p)) <> [] ->
      exists m,
        In m (machines self)
        /\ machine_id m = id
        /\ (Z.of_nat (length (slots_of id (slots (schedule p))))
            <= max_items_per_cycle m)%Z
}.

(** Nothing happens before the work day starts, and no slot runs
    backwards. *)
Record punctual (target_date : Py.datetime) (p : progress) : Prop := {
  punctual_cursor :
    forall id st,
      machine_states p !! id = Some st ->
      work_start target_date <= current_time st;
  punctual_slots :
    forall slot,
      In slot (slots (schedule p)) ->
      work_start target_date < start_time slot
      /\ start_time slot <= end_time slot
}.

(** The invariant of the order loop behind a machine's first slot: a machine
    id without slots still has its initial state, and the first slot of a
    machine id starts after the changeover from the initial colour of a
    machine with that id. *)
Record opened (self : ProductionScheduler) (target_date : Py.datetime)
  (p : progress) : Prop := {
  opened_fresh :
    forall id,
      slots_of id (slots (schedule p)) = [] ->
      machine_states p !! id = initial_states self target_date !! id;
  opened_first :
    forall id slot rest,
      slots_of id (slots (schedule p)) = slot :: rest ->
      exists m order,
        In m (machines self)
        /\ machine_id m = id
        /\ orders slot = [order]
        /\ setup_time_min slot
           = calculate_setup_time (initial_color m) (color order)
        /\ start_time slot
           = work_start target_date
             + Py.timedelta_minutes (setup_time_min slot)
}.

(** Slot [s2] comes right after slot [s1] on a machine: its setup is the
    changeover from the colour of the order of [s1], and it starts when that
    setup is over. *)
Definition follows (s1 s2 : ScheduleSlot) : Prop :=
  exists o1 o2,
    orders s1 = [o1]
    /\ orders s2 = [o2]
    /\ setup_time_min s2 = calculate_setup_time (color o1) (color o2)
    /\ start_time s2 = end_time s1 + Py.timedelta_minutes (setup_time_min s2).

(** The invariant of the order loop behind the chain of a machine's slots:
    neighbours in a machine's slot list follow one another, and the
    machine's state is at the end and the colour of its latest slot. *)
Record chained (p : progress) : Prop := {
  chained_slots :
    forall id (i : nat) s1 s2,
      slots_of id (slots (schedule p)) !! i = Some s1 ->
      slots_of id (slots (schedule p)) !! S i = Some s2 ->
      follows s1 s2;
  chained_cursor :
    forall id s,
      last (slots_of id (slots (schedule p))) = Some s ->
      exists st o,
        machine_states p !! id = Some st
        /\ orders s = [o]
        /\ current_time st = end_time s
        /\ current_color st = color o
}.

(** An error of the order loop on [order]: a division by a zero speed, or
    an overflow, of the metres that do not convert to a [float] or of a
    slot time on a machine of non-zero speed. *)
Definition failure (self : ProductionScheduler) (order : Order) (e : Py.exn)
  : Prop :=
  exists m,
    In m (get_compatible_machines self order)
    /\ ((e = Py.ZeroDivisionError
         /\ measurable order /\ speed_m_per_min m == 0)
        \/ (e = Py.OverflowError
            /\ (~ measurable order \/ ~ speed_m_per_min m == 0))).



End SchedulerSpec.

(** ** Data for concrete runs *)

Module Examples.

Definition mkShipment (id who addr : string) (kg : R) (pl : Z)
  (tw : string) (la lo : R) : Router.Shipment :=
  {| Router.shipment_id := id; Router.customer := who;
     Router.address := addr; Router.weight_kg := kg; Router.pallets := pl;
     Router.time_window := tw; Router.lat := la; Router.lon := lo |}.

(** [create_sample_shipments] *)
Definition create_sample_shipments : list Router.Shipment :=
  [ mkShipment "SHP-001" "A사" "서울시 강남구" 800 2 "AM" 37.5 127.05;
    mkShipment "SHP-002" "B사" "경기도 성남시" 500 1 "AM" 37.4 127.1;
    mkShipment "SHP-003" "C사" "서울시 송파구" 1200 3 "ANY" 37.5 127.1;
    mkShipment "SHP-004" "D사" "경기도 용인시" 2000 4 "PM" 37.2 127.2;
    mkShipment "SHP-005" "E사" "인천시 남동구" 1500 3 "ANY" 37.4 126.7;
    mkShipment "SHP-006" "F사" "경기도 안양시" 600 1 "AM" 37.4 126.9;
    mkShipment "SHP-007" "G사" "서울시 영등포구" 900 2 "ANY" 37.5 126.9;
    mkShipment "SHP-008" "H사" "경기도 수원시" 1800 4 "PM" 37.3 127.0;
    mkShipment "SHP-009" "I사" "경기도 평택시" 2500 5 "ANY" 37.0 127.1;
    mkShipment "SHP-010" "J사" "경기도 화성시" 400 1 "AM" 37.2 126.8 ]%R.

(** The router of [main]: default depot and fleet, sample shipments. *)
Definition demo_router : Router.DeliveryRouter :=
  Router.add_shipments (Router.init None None) create_sample_shipments.

Definition V1 : Router.Vehicle :=
  Router.mkVehicle "V1" "5톤_1" 5000 10 200 15000 50000.

(** A shipment loaded without coordinates ([lat] and [lon] default to 0). *)
Definition parcel : Router.Shipment :=
  mkShipment "SHP-101" "K사" "경기도 오산시" 100 1 "ANY" 0 0.

(** A fleet of the caller's own, with an id the default table lacks. *)
Definition courier : Router.Vehicle :=
  Router.mkVehicle "X1" "courier" 1000 10 200 15000 50000.

Definition courier_router : Router.DeliveryRouter :=
  Router.add_shipments (Router.init None (Some [("X1", courier)])) [parcel].

(** A vehicle record with a negative weight capacity. *)
Definition overdrawn : Router.Vehicle :=
  Router.mkVehicle "V9" "overdrawn" (-1) 10 200 15000 50000.

(** A location without coordinates. *)
Definition nowhere : Router.Location :=
  {| Router.loc_name := "K사"; Router.loc_address := "경기도 오산시";
     Router.loc_lat := 0; Router.loc_lon := 0 |}.

(** A location on the equator, one degree east of the prime meridian. *)
Definition equator : Router.Location :=
  {| Router.loc_name := "buoy"; Router.loc_address := "0N 1E";
     Router.loc_lat := 0; Router.loc_lon := 1 |}.

(** One degree north of it. *)
Definition north_of_equator : Router.Location :=
  {| Router.loc_name := "vessel"; Router.loc_address := "1N 1E";
     Router.loc_lat := 1; Router.loc_lon := 1 |}.

Definition mkOrder (id code : string) (w q : Z) (due : Q)
  (c : string) (prio : Z) : Scheduler.Order :=
  {| Scheduler.order_id := id; Scheduler.product_code := code;
     Scheduler.width_mm := w; Scheduler.quantity_rolls := q;
     Scheduler.due_date := due; Scheduler.color := c;
     Scheduler.priority := prio |}.

(** [create_sample_orders], with [today] as hour 0, the first day a
    [datetime] can hold. *)
Definition create_sample_orders : list Scheduler.Order :=
  [ mkOrder "ORD-001" "PE-FILM-500" 500 10 24 "CLEAR" 2;
    mkOrder "ORD-002" "PE-FILM-600" 600 8 24 "CLEAR" 1;
    mkOrder "ORD-003" "PE-FILM-500" 500 12 48 "COLOR" 1;
    mkOrder "ORD-004" "PE-FILM-800" 800 6 24 "CLEAR" 3;
    mkOrder "ORD-005" "PE-FILM-1000" 1000 4 48 "CLEAR" 1;
    mkOrder "ORD-006" "PE-FILM-600" 600 15 24 "COLOR" 2;
    mkOrder "ORD-007" "PE-FILM-700" 700 5 72 "CLEAR" 1;
    mkOrder "ORD-008" "PE-FILM-500" 500 8 24 "CLEAR" 1 ]%Q.

(** The scheduler of [main]: default machines, sample orders. *)
Definition demo_scheduler : Scheduler.ProductionScheduler :=
  Scheduler.add_orders (Scheduler.init None) create_sample_orders.

(** An order too long for one work day, and one too wide for any machine. *)
Definition bulk_order : Scheduler.Order :=
  mkOrder "ORD-100" "PE-FILM-500" 500 100 24 "CLEAR" 1.

Definition wide_order : Scheduler.Order :=
  mkOrder "ORD-200" "PE-FILM-2000" 2000 1 24 "CLEAR" 1.

Definition scheduler_with (l : list Scheduler.Order)
  : Scheduler.ProductionScheduler :=
  Scheduler.add_orders (Scheduler.init None) l.

(** The scenario of the specification: a depot without coordinates, one
    vehicle of 5000 kg and 10 pallets, three shipments of 2000 kg. *)
Definition yard : Router.Location :=
  {| Router.loc_name := "yard"; Router.loc_address := "depot";
     Router.loc_lat := 0; Router.loc_lon := 0 |}.

Definition crate (id : string) : Router.Shipment :=
  mkShipment id "K사" "경기도 오산시" 2000 1 "ANY" 0 0.

Definition one_truck : Router.DeliveryRouter :=
  Router.add_shipments (Router.init (Some yard) (Some [("V1", V1)]))
    [crate "A"; crate "B"; crate "C"].

(** The route the courier's router builds for its one parcel. *)
Definition courier_route : Router.Route :=
  Router.nearest_neighbor courier_router [parcel] courier.

(** A vehicle that is not available, and a router that has only it. *)
Definition parked : Router.Vehicle :=
  {| Router.vehicle_id := "V7"; Router.name := "parked";
     Router.capacity_kg := 5000; Router.capacity_pallets := 10;
     Router.cost_per_km := 200; Router.hourly_rate := 15000;
     Router.fixed_cost := 50000; Router.available := false |}.

Definition parked_router : Router.DeliveryRouter :=
  Router.add_shipments (Router.init None (Some [("V7", parked)])) [parcel].

(** A machine whose speed was entered as 0, and a scheduler that has only
    it. *)
Definition stalled : Scheduler.Machine :=
  {| Scheduler.machine_id := "M9"; Scheduler.name := "stalled";
     Scheduler.width_min := 400; Scheduler.width_max := 600;
     Scheduler.speed_m_per_min := 0; Scheduler.max_items_per_cycle := 4;
     Scheduler.available := true; Scheduler.current_setup := None |}.

Definition stalled_scheduler : Scheduler.ProductionScheduler :=
  Scheduler.add_orders (Scheduler.init (Some [stalled]))
    [mkOrder "ORD-300" "PE-FILM-500" 500 1 24 "CLEAR" 1].


(** An order entered with a negative quantity, and the order that follows it
    on the only machine narrow enough for both. *)
Definition negative_order : Scheduler.Order :=
  mkOrder "ORD-500" "PE-FILM-450" 450 (-6) 24 "CLEAR" 2.

Definition next_order : Scheduler.Order :=
  mkOrder "ORD-501" "PE-FILM-450" 450 1 24 "CLEAR" 1.

End Examples.

(** * Properties *)

(** ** The Python runtime pieces *)

Section PyFacts.
Context {A : Type}.
Implicit Types (l : list A) (lt : A -> A -> bool).

Lemma insert_sorted_perm lt x l :
  Permutation (Py.insert_sorted lt x l) (x :: l).
Proof.
  induction l as [|y l IH]; simpl; [reflexivity|].
  destruct (lt y x); [|reflexivity].
  rewrite IH. apply perm_swap.
Qed.

Lemma insert_sorted_front lt x y l :
  lt y x = false -> Py.insert_sorted lt x (y :: l) = x :: y :: l.
Proof. intros H. simpl. now rewrite H. Qed.

Lemma sorted_perm lt l : Permutation (Py.sorted lt l) l.
Proof.
  induction l as [|x l IH]; simpl; [reflexivity|].
  rewrite insert_sorted_perm. now apply perm_skip.
Qed.

Section Min.
Variable lt : A -> A -> bool.
Hypothesis lt_trans :
  forall x y z, lt x y = true -> lt y z = true -> lt x z = true.
Hypothesis lt_cotrans :
  forall x y z, lt x z = true -> lt y z = false -> lt x y = true.

Lemma min_by_scan front best back l :
  Forall (fun y => lt best y = true) front ->
  Forall (fun y => lt y best = false) back ->
  Py.first_minimum lt (Py.min_by lt best l) (front ++ best :: back ++ l).
Proof using lt_trans lt_cotrans.
  revert front best back.
  induction l as [|x l IH]; intros front best back Hf Hb; simpl.
  - exists front, back. now rewrite app_nil_r.
  - destruct (lt x best) eqn:Hx.
    + replace (front ++ best :: back ++ x :: l)
        with ((front ++ best :: back) ++ x :: [] ++ l)
        by (now rewrite <- app_assoc).
      apply IH; [|constructor].
      apply Forall_app; split; [|constructor].
      * eapply Forall_impl; [exact Hf|]. intros y Hy. simpl in Hy.
        now apply lt_trans with best.
      * exact Hx.
      * eapply Forall_impl; [exact Hb|]. intros y Hy. simpl in Hy.
        now apply lt_cotrans with best.
    + replace (front ++ best :: back ++ x :: l)
        with (front ++ best :: (back ++ [x]) ++ l)
        by (now rewrite <- app_assoc).
      apply IH; [exact Hf|].
      apply Forall_app; split; [exact Hb|]. now constructor.
Qed.

Lemma min_by_first_minimum best l :
  Py.first_minimum lt (Py.min_by lt best l) (best :: l).
Proof using lt_trans lt_cotrans.
  apply (min_by_scan [] best [] l); constructor.
Qed.
End Min.

Lemma min_by_In lt best l : In (Py.min_by lt best l) (best :: l).
Proof.
  revert best. induction l as [|x l IH]; intros best; simpl; [now left|].
  destruct (lt x best).
  - right. apply IH.
  - destruct (IH best) as [H|H]; [now left | now right; right].
Qed.

Context `{EqDecision A}.

Lemma remove_first_perm x l :
  In x l -> Permutation (x :: Py.remove_first x l) l.
Proof.
  induction l as [|y l IH]; simpl; [tauto|].
  intros Hin. destruct (decide (y = x)) as [->|Hne]; [reflexivity|].
  destruct Hin as [->|Hin]; [congruence|].
  rewrite perm_swap. apply perm_skip. now apply IH.
Qed.

Lemma remove_first_length x l :
  In x l -> S (length (Py.remove_first x l)) = length l.
Proof.
  intros H. apply remove_first_perm in H.
  apply Permutation_length in H. exact H.
Qed.

Lemma contains_In x l : Py.contains x l = true <-> In x l.
Proof.
  unfold Py.contains. rewrite bool_decide_eq_true.
  apply list_elem_of_In.
Qed.
End PyFacts.

Section SortFacts.
Context {A : Type}.
Variable lt : A -> A -> bool.
Hypothesis lt_asym : forall x y, lt x y = true -> lt y x = false.
Hypothesis lt_ntrans :
  forall x y z, lt x y = false -> lt y z = false -> lt x z = false.

Lemma insert_sorted_ascending x l :
  Py.ascending lt l -> Py.ascending lt (Py.insert_sorted lt x l).
Proof using lt_asym lt_ntrans.
  unfold Py.ascending. induction l as [|y l IH]; intros Hl; simpl.
  - repeat constructor.
  - apply StronglySorted_inv in Hl as [Hl Hy].
    destruct (lt y x) eqn:Hyx.
    + constructor; [now apply IH|].
      eapply Permutation_Forall; [symmetry; apply insert_sorted_perm|].
      constructor; [now apply lt_asym|exact Hy].
    + constructor; [now constructor|].
      constructor; [exact Hyx|].
      eapply Forall_impl; [exact Hy|]. intros b Hb. simpl in Hb.
      now apply lt_ntrans with y.
Qed.

Lemma sorted_ascending l : Py.ascending lt (Py.sorted lt l).
Proof using lt_asym lt_ntrans.
  induction l as [|x l IH]; simpl; [constructor|].
  now apply insert_sorted_ascending.
Qed.

Lemma insert_sorted_stable x0 x l :
  List.filter (Py.tied lt x0) (Py.insert_sorted lt x l)
  = List.filter (Py.tied lt x0) (x :: l).
Proof using lt_ntrans.
  induction l as [|y l IH]; [reflexivity|]. simpl.
  destruct (lt y x) eqn:Hyx; [|reflexivity].
  simpl. rewrite IH. simpl.
  destruct (Py.tied lt x0 y) eqn:Hy, (Py.tied lt x0 x) eqn:Hx; try reflexivity.
  exfalso. unfold Py.tied in Hy, Hx.
  apply andb_prop in Hy as [_ Hy]. apply andb_prop in Hx as [Hx _].
  apply negb_true_iff in Hy, Hx.
  rewrite (lt_ntrans y x0 x Hy Hx) in Hyx. discriminate.
Qed.

Lemma sorted_stable x0 l :
  List.filter (Py.tied lt x0) (Py.sorted lt l) = List.filter (Py.tied lt x0) l.
Proof using lt_ntrans.
  induction l as [|x l IH]; [reflexivity|]. simpl Py.sorted.
  rewrite insert_sorted_stable. simpl. now rewrite IH.
Qed.
End SortFacts.

Section SublistFacts.
Context {A : Type} `{EqDecision A}.

Lemma remove_first_sublist (x : A) l : Py.remove_first x l `sublist_of` l.
Proof.
  induction l as [|y l IH]; simpl; [constructor|].
  destruct (decide (y = x)); [now apply sublist_cons|now apply sublist_skip].
Qed.

Lemma StronglySorted_sublist (R : A -> A -> Prop) l1 l2 :
  l1 `sublist_of` l2 -> StronglySorted R l2 -> StronglySorted R l1.
Proof.
  induction 1 as [|x l1 l2 Hsub IH|x l1 l2 Hsub IH]; intros Hs.
  - constructor.
  - apply StronglySorted_inv in Hs as [Hs Hx].
    constructor; [now apply IH|].
    rewrite Forall_forall in Hx |- *. intros y Hy. apply Hx.
    eapply elem_of_sublist; eauto.
  - apply StronglySorted_inv in Hs as [Hs _]. now apply IH.
Qed.
End SublistFacts.

(** ** Comparisons on reals *)

Lemma Reqb_true x y : Reqb x y = true <-> x = y.
Proof. unfold Reqb. destruct (Req_dec_T x y); split; congruence. Qed.

Lemma Reqb_false x y : Reqb x y = false <-> x <> y.
Proof. unfold Reqb. destruct (Req_dec_T x y); split; congruence. Qed.

Lemma Rleb_true x y : Rleb x y = true <-> (x <= y)%R.
Proof. unfold Rleb. destruct (Rle_dec x y); split; congruence. Qed.

Lemma Rleb_false x y : Rleb x y = false <-> (y < x)%R.
Proof.
  unfold Rleb. destruct (Rle_dec x y); split; try congruence; lra.
Qed.

Lemma Rltb_true x y : Rltb x y = true <-> (x < y)%R.
Proof. unfold Rltb. destruct (Rlt_dec x y); split; congruence. Qed.

Lemma Rltb_false x y : Rltb x y = false <-> (y <= x)%R.
Proof.
  unfold Rltb. destruct (Rlt_dec x y); split; try congruence; lra.
Qed.

(** Settle the comparisons between numerals that a run on concrete data
    leaves behind. *)
Ltac Rdecide :=
  repeat match goal with
  | |- context [Reqb ?x ?y] =>
      first [ rewrite (proj2 (Reqb_true x y)) by lra
            | rewrite (proj2 (Reqb_false x y)) by lra ]
  | |- context [Rleb ?x ?y] =>
      first [ rewrite (proj2 (Rleb_true x y)) by lra
            | rewrite (proj2 (Rleb_false x y)) by lra ]
  | |- context [Rltb ?x ?y] =>
      first [ rewrite (proj2 (Rltb_true x y)) by lra
            | rewrite (proj2 (Rltb_false x y)) by lra ]
  end.

Ltac Zdecide :=
  repeat match goal with
  | |- context [Z.leb ?a ?b] =>
      let r := eval vm_compute in (Z.leb a b) in change (Z.leb a b) with r
  | |- context [Z.add ?a ?b] =>
      let r := eval vm_compute in (Z.add a b) in change (Z.add a b) with r
  end.

(** ** The delivery router *)

Module RouterFacts.
Import Router RouterSpec.
Open Scope R_scope.

(** *** The nearest-neighbour walk *)

Lemma step_visit v w w' :
  step v w = Some w' ->
  exists nearest,
    In nearest (List.filter (fits (route w) v) (remaining w))
    /\ w' = visit w nearest.
Proof.
  unfold step. destruct (List.filter _ _) as [|s feasible] eqn:E; [discriminate|].
  intros [= <-]. eexists; split; [|reflexivity]. apply min_by_In.
Qed.

(** The shipment [step] picks is in the pool, so [list.remove] finds it. *)
Lemma step_nearest_present v w w' :
  step v w = Some w' ->
  exists nearest,
    In nearest (remaining w) /\ fits (route w) v nearest = true
    /\ w' = visit w nearest.
Proof.
  intros (nearest & Hin & ->)%step_visit.
  apply filter_In in Hin as [Hin Hfit]. eauto.
Qed.

Lemma step_shrinks v w w' :
  step v w = Some w' -> S (length (remaining w')) = length (remaining w).
Proof.
  intros (nearest & Hin & _ & ->)%step_nearest_present. simpl.
  now apply remove_first_length.
Qed.

(** The fuel given to [loop] never runs out before the loop exits. *)
Lemma loop_exits fuel v w :
  (length (remaining w) <= fuel)%nat -> runs v w (loop fuel v w).
Proof.
  revert w. induction fuel as [|fuel IH]; intros w Hlen; simpl.
  - apply runs_empty. revert Hlen.
    destruct (remaining w); simpl; [reflexivity | lia].
  - destruct (remaining w) as [|s l] eqn:Hrem; [now apply runs_empty|].
    destruct (step v w) as [w'|] eqn:Hstep; [|now apply runs_break].
    eapply runs_step; [exact Hstep|]. apply IH.
    apply step_shrinks in Hstep. rewrite Hrem in Hstep. simpl in *. lia.
Qed.

Lemma nearest_neighbor_runs self pool v :
  exists w,
    runs v (start (depot self) pool v) w
    /\ nearest_neighbor self pool v = finish (depot self) w.
Proof.
  eexists; split; [|reflexivity]. apply loop_exits. simpl. lia.
Qed.

Lemma finish_stops d w : stops (finish d w) = stops (route w).
Proof.
  unfold finish. cbv zeta. destruct (stops (route w)) eqn:E; simpl; congruence.
Qed.

Lemma finish_weight d w :
  total_weight_kg (finish d w) = total_weight_kg (route w).
Proof. unfold finish. now destruct (stops (route w)). Qed.

Lemma finish_pallets d w : total_pallets (finish d w) = total_pallets (route w).
Proof. unfold finish. now destruct (stops (route w)). Qed.

Lemma finish_vehicle_id d w :
  route_vehicle_id (finish d w) = route_vehicle_id (route w).
Proof. unfold finish. now destruct (stops (route w)). Qed.

(** An invariant of the walk is an invariant of the route it returns. *)
Lemma runs_invariant (P : walk -> Prop) v :
  (forall w s, P w -> In s (remaining w) -> fits (route w) v s = true ->
               P (visit w s)) ->
  forall w w', runs v w w' -> P w -> P w'.
Proof.
  intros Hstep w w' Hruns. induction Hruns as [| |w w' w'' Hs _ IH]; auto.
  intros HP. apply IH.
  apply step_nearest_present in Hs as (nearest & Hin & Hfit & ->).
  now apply Hstep.
Qed.

(** *** Capacity *)

Lemma fits_within_capacity v w s :
  fits (route w) v s = true -> within_capacity v (route (visit w s)).
Proof.
  unfold fits. intros [Hw Hp]%andb_prop.
  apply Rleb_true in Hw. apply Z.leb_le in Hp. now split.
Qed.

Lemma runs_capacity v w w' :
  runs v w w' ->
  unloaded (route w) \/ within_capacity v (route w) ->
  unloaded (route w') \/ within_capacity v (route w').
Proof.
  apply (runs_invariant
           (fun w => unloaded (route w) \/ within_capacity v (route w))).
  intros w0 s _ _ Hfit. right. now apply fits_within_capacity.
Qed.

Lemma nearest_neighbor_capacity self pool v :
  unloaded (nearest_neighbor self pool v)
  \/ within_capacity v (nearest_neighbor self pool v).
Proof.
  destruct (nearest_neighbor_runs self pool v) as (w & Hruns & ->).
  apply runs_capacity in Hruns; [|left; now repeat split].
  unfold unloaded, within_capacity.
  now rewrite finish_stops, finish_weight, finish_pallets.
Qed.

Lemma nearest_neighbor_unloaded self pool v :
  stops (nearest_neighbor self pool v) = [] ->
  total_weight_kg (nearest_neighbor self pool v) = 0
  /\ total_pallets (nearest_neighbor self pool v) = 0%Z.
Proof.
  destruct (nearest_neighbor_runs self pool v) as (w & Hruns & ->).
  rewrite finish_stops, finish_weight, finish_pallets.
  apply (runs_invariant
           (fun w => stops (route w) = [] ->
                     total_weight_kg (route w) = 0
                     /\ total_pallets (route w) = 0%Z) v)
    with (w := start (depot self) pool v); [|exact Hruns|now split].
  intros w0 s _ _ _ H. simpl in H. now destruct (stops (route w0)).
Qed.

(** *** Coverage *)

Lemma visit_keeps_shipments w s :
  In s (remaining w) ->
  Permutation (stops (route (visit w s)) ++ remaining (visit w s))
              (stops (route w) ++ remaining w).
Proof.
  intros Hin. simpl. rewrite <- app_assoc. apply Permutation_app_head.
  simpl. now apply remove_first_perm.
Qed.

Lemma runs_keeps_shipments v w w' :
  runs v w w' ->
  Permutation (stops (route w') ++ remaining w')
              (stops (route w) ++ remaining w).
Proof.
  induction 1 as [| |w w' w'' Hs _ IH]; [reflexivity..|].
  rewrite IH.
  apply step_nearest_present in Hs as (nearest & Hin & _ & ->).
  now apply visit_keeps_shipments.
Qed.

(** The stops of a route are drawn from the pool, each pool item at most
    once. *)
Lemma nearest_neighbor_draws self pool v :
  exists rest,
    Permutation (stops (nearest_neighbor self pool v) ++ rest) pool.
Proof.
  destruct (nearest_neighbor_runs self pool v) as (w & Hruns & ->).
  exists (remaining w). rewrite finish_stops.
  now apply runs_keeps_shipments in Hruns.
Qed.

Lemma take_out_all chosen pool rest :
  Permutation (chosen ++ rest) pool ->
  Permutation (fold_left take_out chosen pool) rest.
Proof.
  revert pool. induction chosen as [|s chosen IH]; intros pool Hperm; simpl.
  - now symmetry.
  - assert (Hin : In s pool).
    { eapply Permutation_in; [exact Hperm|]. now left. }
    apply IH. unfold take_out.
    rewrite (proj2 (contains_In s pool) Hin).
    apply Permutation_cons_inv with s.
    now rewrite remove_first_perm.
Qed.

Lemma dispatch_keeps_shipments self st item :
  Permutation
    (concat (map stops (fst (dispatch self st item)))
     ++ snd (dispatch self st item))
    (concat (map stops (fst st)) ++ snd st).
Proof.
  unfold dispatch. destruct (snd st) as [|s pool] eqn:Hpool.
  { now rewrite Hpool. }
  destruct (negb _); [now rewrite Hpool|].
  destruct (nearest_neighbor_draws self (s :: pool) (snd item))
    as (rest & Hrest).
  destruct (stops (nearest_neighbor self (s :: pool) (snd item)))
    as [|s' chosen] eqn:Hstops; [now rewrite Hpool|].
  cbn [fst snd]. rewrite map_app, concat_app. simpl.
  rewrite Hstops, app_nil_r, <- app_assoc.
  apply Permutation_app_head.
  rewrite (take_out_all (s' :: chosen) (s :: pool) rest Hrest).
  now rewrite Hrest.
Qed.

Lemma create_plan_keeps_shipments self target_date :
  Permutation
    (assigned (create_plan self target_date)
     ++ unassigned (create_plan self target_date))
    (shipments self).
Proof.
  unfold assigned, create_plan. cbn [routes unassigned].
  set (fleet := Py.sorted larger_first (vehicles self)).
  assert (H : forall st,
             Permutation
               (concat (map stops (fst (fold_left (dispatch self) fleet st)))
                ++ snd (fold_left (dispatch self) fleet st))
               (concat (map stops (fst st)) ++ snd st)).
  { induction fleet as [|item fleet IH]; intros st; simpl; [reflexivity|].
    rewrite IH. apply dispatch_keeps_shipments. }
  rewrite H. simpl. apply sorted_perm.
Qed.

(** *** The choice made at each step *)

Lemma closer_trans from x y z :
  closer from x y = true -> closer from y z = true -> closer from x z = true.
Proof. unfold closer. rewrite !Rltb_true. lra. Qed.

Lemma closer_cotrans from x y z :
  closer from x z = true -> closer from y z = false -> closer from x y = true.
Proof. unfold closer. rewrite !Rltb_true, Rltb_false. lra. Qed.

Lemma step_nearest_first v w w' :
  step v w = Some w' ->
  exists nearest,
    nearest_first (current_location w) nearest
      (List.filter (fits (route w) v) (remaining w))
    /\ w' = visit w nearest.
Proof.
  unfold step.
  destruct (List.filter _ _) as [|s feasible] eqn:E; [discriminate|].
  intros [= <-]. eexists; split; [|reflexivity].
  destruct (min_by_first_minimum (closer (current_location w))
              (closer_trans _) (closer_cotrans _) s feasible)
    as (front & back & Heq & Hfront & Hback).
  exists front, back. split; [exact Heq|]. split.
  - eapply Forall_impl; [exact Hfront|]. intros x Hx. simpl in Hx.
    now apply Rltb_true in Hx.
  - eapply Forall_impl; [exact Hback|]. intros x Hx. simpl in Hx.
    now apply Rltb_false in Hx.
Qed.

Lemma step_none v w :
  step v w = None <-> List.filter (fits (route w) v) (remaining w) = [].
Proof.
  unfold step. destruct (List.filter _ _); split; congruence.
Qed.

Lemma runs_nearest_walk v w w' : runs v w w' -> nearest_walk v w w'.
Proof.
  induction 1 as [w Hrem|w Hstep|w w' w'' Hs _ IH].
  - apply nearest_walk_stop. now rewrite Hrem.
  - apply nearest_walk_stop. now apply step_none.
  - apply step_nearest_first in Hs as (nearest & Hnear & ->).
    now apply nearest_walk_go with nearest.
Qed.

(** *** Distance and time of the finished route *)

Lemma path_km_snoc from l s :
  path_km from (l ++ [s])
  = path_km from l + distance_to (end_of from l) (location s).
Proof.
  unfold end_of. revert from.
  induction l as [|x l IH]; intros from; simpl; [lra|].
  rewrite IH. lra.
Qed.

Lemma end_of_snoc from l s : end_of from (l ++ [s]) = location s.
Proof. unfold end_of. now rewrite fold_left_app. Qed.

Lemma runs_on_path d v w w' : runs v w w' -> on_path d w -> on_path d w'.
Proof.
  apply (runs_invariant (on_path d)). intros w0 s [Hkm Hcur] _ _.
  split; simpl.
  - rewrite path_km_snoc, Hkm, Hcur. reflexivity.
  - now rewrite end_of_snoc.
Qed.

Lemma finish_totals d w :
  stops (route w) <> [] ->
  total_distance_km (finish d w)
  = total_distance_km (route w) + distance_to (current_location w) d
  /\ estimated_time_hours (finish d w)
     = total_distance_km (finish d w) / 40
       + INR (length (stops (finish d w))) * 15 / 60.
Proof.
  unfold finish. destruct (stops (route w)) eqn:E; [congruence|].
  intros _. now split.
Qed.

(** *** Runs on concrete data *)

Lemma remove_first_head (s : Shipment) l : Py.remove_first s (s :: l) = l.
Proof. simpl. now rewrite decide_True. Qed.

(** A pool of one shipment that fits the empty vehicle. *)
Lemma nearest_neighbor_single self s v :
  weight_kg s <= capacity_kg v ->
  (pallets s <= capacity_pallets v)%Z ->
  nearest_neighbor self [s] v
  = {| route_vehicle_id := vehicle_id v;
       stops := [s];
       total_distance_km :=
         0 + distance_to (depot self) (location s)
         + distance_to (location s) (depot self);
       total_weight_kg := 0 + weight_kg s;
       total_pallets := 0 + pallets s;
       estimated_time_hours :=
         (0 + distance_to (depot self) (location s)
          + distance_to (location s) (depot self)) / AVERAGE_SPEED
         + INR 1 * UNLOAD_TIME_MIN / 60 |}.
Proof.
  intros Hw Hp. unfold nearest_neighbor, start. cbn [length loop remaining].
  unfold step. cbn [route remaining List.filter current_location].
  replace (fits _ v s) with true.
  2:{ symmetry. unfold fits. cbn. apply andb_true_intro. split.
      - apply Rleb_true. lra.
      - apply Z.leb_le. lia. }
  cbn [Py.min_by]. unfold visit, finish.
  cbn [route remaining current_location stops app length].
  reflexivity.
Qed.

Lemma distance_to_unset a b :
  loc_lat a = 0 \/ loc_lat b = 0 -> distance_to a b = 10.
Proof.
  intros H. unfold distance_to.
  destruct (Reqb (loc_lat a) 0) eqn:Ea; [reflexivity|].
  destruct (Reqb (loc_lat b) 0) eqn:Eb; [reflexivity|].
  apply Reqb_false in Ea, Eb. tauto.
Qed.

Lemma loop_step fuel v w w' :
  remaining w <> [] -> step v w = Some w' ->
  loop (S fuel) v w = loop fuel v w'.
Proof.
  intros Hr Hs. simpl. destruct (remaining w); [congruence|]. now rewrite Hs.
Qed.

Lemma loop_break fuel v w : step v w = None -> loop fuel v w = w.
Proof.
  intros Hs. destruct fuel; simpl; [reflexivity|].
  destruct (remaining w); [reflexivity|]. now rewrite Hs.
Qed.

(** Evaluates one [step] on shipments without coordinates. *)
Ltac run_step :=
  unfold step, fits, closer;
  repeat first
    [ progress Rdecide
    | progress Zdecide
    | progress (rewrite ?distance_to_unset by (simpl; auto))
    | progress cbn -[distance_to Z.leb Z.add] ];
  reflexivity.

(** The route of the scenario: the first two crates fill the vehicle. *)
Lemma scenario_route :
  nearest_neighbor Examples.one_truck
    [Examples.crate "A"; Examples.crate "B"; Examples.crate "C"] Examples.V1
  = {| route_vehicle_id := "V1";
       stops := [Examples.crate "A"; Examples.crate "B"];
       total_distance_km := 0 + 10 + 10 + 10;
       total_weight_kg := 0 + 2000 + 2000;
       total_pallets := 2;
       estimated_time_hours := (0 + 10 + 10 + 10) / 40 + 2 * 15 / 60 |}.
Proof.
  unfold nearest_neighbor. cbn [length].
  erewrite loop_step; [| discriminate | run_step].
  unfold visit at 1. cbn -[loop distance_to]. Zdecide.
  rewrite decide_True by reflexivity.
  erewrite loop_step; [| discriminate | run_step].
  unfold visit at 1. cbn -[loop distance_to]. Zdecide.
  rewrite decide_True by reflexivity.
  rewrite loop_break by run_step.
  unfold finish. cbn -[distance_to].
  rewrite !distance_to_unset by (simpl; auto).
  reflexivity.
Qed.

(** *** Distance *)

Lemma sin_half_sqr x : sin (x / 2) ^ 2 = hav x.
Proof.
  unfold hav. replace x with (2 * (x / 2)) at 2 by lra.
  rewrite cos_2a_sin. simpl. lra.
Qed.

Lemma distance_to_set a b :
  loc_lat a <> 0 -> loc_lat b <> 0 -> distance_to a b = great_circle_km a b.
Proof.
  intros Ha Hb. unfold distance_to, great_circle_km.
  rewrite (proj2 (Reqb_false _ _) Ha), (proj2 (Reqb_false _ _) Hb).
  cbv zeta. cbn [orb]. rewrite !sin_half_sqr. ring.
Qed.

(** The argument of [sqrt] and [asin] stays in their domains, so neither
    [math.sqrt] nor [math.asin] can raise on exact numbers. *)
Lemma haversine_argument_range phi1 phi2 dlam :
  0 <= hav (phi2 - phi1) + cos phi1 * cos phi2 * hav dlam <= 1.
Proof.
  unfold hav. rewrite cos_minus.
  pose proof (COS_bound dlam) as [Hd1 Hd2].
  pose proof (COS_bound (phi1 - phi2)) as [Ha1 Ha2].
  pose proof (COS_bound (phi1 + phi2)) as [Hb1 Hb2].
  rewrite cos_minus in Ha1, Ha2. rewrite cos_plus in Hb1, Hb2.
  set (c1 := cos phi1) in *. set (c2 := cos phi2) in *.
  set (s1 := sin phi1) in *. set (s2 := sin phi2) in *.
  set (d := cos dlam) in *.
  assert (Hu : 0 <= (1 + d) / 2) by lra.
  assert (Hw : 0 <= (1 - d) / 2) by lra.
  assert (H1 : (1 + d) / 2 * (c1 * c2 + s1 * s2) <= (1 + d) / 2) by nra.
  assert (H2 : - ((1 + d) / 2) <= (1 + d) / 2 * (c1 * c2 + s1 * s2)) by nra.
  assert (H3 : (1 - d) / 2 * (c1 * c2 - s1 * s2) <= (1 - d) / 2) by nra.
  assert (H4 : - ((1 - d) / 2) <= (1 - d) / 2 * (c1 * c2 - s1 * s2)) by nra.
  split; nra.
Qed.

Lemma distance_to_sym a b : distance_to a b = distance_to b a.
Proof.
  unfold distance_to. rewrite (orb_comm (Reqb (loc_lat a) 0)).
  destruct (_ || _); [reflexivity|]. cbv zeta.
  rewrite !sin_half_sqr. unfold hav.
  rewrite <- (cos_neg (radians (loc_lat a) - radians (loc_lat b))).
  rewrite <- (cos_neg (radians (loc_lon a) - radians (loc_lon b))).
  rewrite !Ropp_minus_distr.
  rewrite (Rmult_comm (cos (radians (loc_lat a)))). reflexivity.
Qed.

Lemma great_circle_self a : great_circle_km a a = 0.
Proof.
  unfold great_circle_km, hav. cbv zeta.
  rewrite !Rminus_diag, cos_0.
  replace ((1 - 1) / 2 + _) with 0 by lra.
  rewrite sqrt_0, asin_0. lra.
Qed.

Lemma distance_to_self a : loc_lat a <> 0 -> distance_to a a = 0.
Proof.
  intros Ha. rewrite distance_to_set by assumption.
  apply great_circle_self.
Qed.

(** The value [a] of [distance_to] lies in the domain of [math.sqrt], and its
    root in the domain of [math.asin]: on exact numbers neither can raise. *)
Lemma haversine_term_range lat1 lon1 lat2 lon2 :
  0 <= sin ((lat2 - lat1) / 2) ^ 2
       + cos lat1 * cos lat2 * sin ((lon2 - lon1) / 2) ^ 2 <= 1.
Proof. rewrite !sin_half_sqr. apply haversine_argument_range. Qed.

Lemma sqrt_unit x : 0 <= x <= 1 -> 0 <= sqrt x <= 1.
Proof.
  intros [H0 H1]. split; [apply sqrt_pos|].
  rewrite <- sqrt_1. now apply sqrt_le_1_alt.
Qed.

Lemma asin_nonneg x : 0 <= x <= 1 -> 0 <= asin x.
Proof.
  intros Hx. pose proof PI_RGT_0 as Hpi.
  assert (Hb : - (PI / 2) <= asin x <= PI / 2) by (apply asin_bound).
  destruct (Rle_lt_dec 0 (asin x)) as [H|H]; [exact H|].
  assert (Hs : sin (asin x) < 0) by (apply sin_lt_0_var; lra).
  rewrite sin_asin in Hs by lra. lra.
Qed.

(** Distances are never negative. *)
Lemma distance_to_nonneg a b : 0 <= distance_to a b.
Proof.
  unfold distance_to. destruct (_ || _); [lra|]. cbv zeta.
  pose proof (haversine_term_range (radians (loc_lat a)) (radians (loc_lon a))
                (radians (loc_lat b)) (radians (loc_lon b))) as Ha.
  apply sqrt_unit in Ha. apply asin_nonneg in Ha. lra.
Qed.

(** One degree of latitude along a meridian: 6371 * PI / 180 km, about 111. *)
Lemma great_circle_one_degree :
  great_circle_km Examples.equator Examples.north_of_equator
  = 6371 * PI / 180.
Proof.
  unfold great_circle_km, radians. simpl. cbv zeta.
  rewrite Rminus_diag.
  replace (1 * (PI / 180) - 0 * (PI / 180)) with (PI / 180) by lra.
  rewrite <- !sin_half_sqr.
  replace (0 / 2) with 0 by lra. rewrite sin_0.
  replace (sin (PI / 180 / 2) ^ 2
           + cos (0 * (PI / 180)) * cos (1 * (PI / 180)) * 0 ^ 2)
    with (sin (PI / 180 / 2) ^ 2) by (simpl; lra).
  pose proof PI_RGT_0 as Hpi.
  rewrite sqrt_pow2 by (apply sin_ge_0; lra).
  rewrite asin_sin by lra. lra.
Qed.

(** *** Cost *)

Lemma cost_known r v :
  dict_get VEHICLES (route_vehicle_id r) = Some v -> cost r = cost_with v r.
Proof. unfold cost, cost_with. now intros ->. Qed.

Lemma cost_unknown r :
  dict_get VEHICLES (route_vehicle_id r) = None -> cost r = 0.
Proof. unfold cost. now intros ->. Qed.

Lemma nearest_neighbor_vehicle_id self pool v :
  route_vehicle_id (nearest_neighbor self pool v) = vehicle_id v.
Proof.
  destruct (nearest_neighbor_runs self pool v) as (w & Hruns & ->).
  rewrite finish_vehicle_id.
  apply (runs_invariant
           (fun w => route_vehicle_id (route w) = vehicle_id v) v)
    with (w := start (depot self) pool v); auto.
Qed.

(** In the default table every vehicle is filed under its own id. *)
Lemma default_fleet_lookup key v :
  In (key, v) VEHICLES -> dict_get VEHICLES (vehicle_id v) = Some v.
Proof.
  simpl. intros [H|[H|[H|[]]]]; inversion H; subst; reflexivity.
Qed.

(** *** Bounds on distances *)

Lemma distance_to_le_half_circumference a b : distance_to a b <= 6371 * PI.
Proof.
  pose proof PI_RGT_0 as Hpi. pose proof PI2_3_2 as Hpi3.
  unfold distance_to. destruct (_ || _); [lra|]. cbv zeta.
  match goal with |- _ * (2 * asin ?x) <= _ => pose proof (asin_bound x) end.
  lra.
Qed.

(** *** Totals of a route *)

Lemma weight_of_snoc l s : weight_of (l ++ [s]) = weight_of l + weight_kg s.
Proof. unfold weight_of. now rewrite fold_left_app. Qed.

Lemma pallets_of_snoc l s :
  pallets_of (l ++ [s]) = (pallets_of l + pallets s)%Z.
Proof. unfold pallets_of. now rewrite fold_left_app. Qed.

Lemma nearest_neighbor_totals self pool v :
  total_weight_kg (nearest_neighbor self pool v)
  = weight_of (stops (nearest_neighbor self pool v))
  /\ total_pallets (nearest_neighbor self pool v)
     = pallets_of (stops (nearest_neighbor self pool v)).
Proof.
  destruct (nearest_neighbor_runs self pool v) as (w & Hruns & ->).
  rewrite finish_stops, finish_weight, finish_pallets.
  apply (runs_invariant
           (fun w => total_weight_kg (route w) = weight_of (stops (route w))
                     /\ total_pallets (route w)
                        = pallets_of (stops (route w))) v)
    with (w := start (depot self) pool v); [|exact Hruns|now split].
  intros w0 s [Hw Hp] _ _. simpl.
  now rewrite weight_of_snoc, pallets_of_snoc, Hw, Hp.
Qed.

Lemma runs_final v w w' :
  runs v w w' -> List.filter (fits (route w') v) (remaining w') = [].
Proof.
  induction 1 as [w Hrem|w Hstep|w w' w'' _ _ IH]; [| |exact IH].
  - now rewrite Hrem.
  - now apply step_none.
Qed.

Lemma fits_loadable v r s : fits r v s = true <-> loadable v r s.
Proof.
  unfold fits, loadable. rewrite andb_true_iff, Rleb_true, Z.leb_le. tauto.
Qed.

(** When the walk ends, nothing that is left can still be loaded. *)
Lemma nearest_neighbor_full self pool v :
  exists rest,
    Permutation (stops (nearest_neighbor self pool v) ++ rest) pool
    /\ forall s, In s rest -> ~ loadable v (nearest_neighbor self pool v) s.
Proof.
  destruct (nearest_neighbor_runs self pool v) as (w & Hruns & ->).
  exists (remaining w). split.
  - rewrite finish_stops. now apply runs_keeps_shipments in Hruns.
  - intros s Hin Hload. apply runs_final in Hruns.
    assert (Hs : In s (List.filter (fits (route w) v) (remaining w))).
    { apply filter_In. split; [exact Hin|]. apply fits_loadable.
      unfold loadable in *. now rewrite finish_weight, finish_pallets in Hload. }
    rewrite Hruns in Hs. destruct Hs.
Qed.

(** A route without stops is the untouched initial route. *)
Lemma nearest_neighbor_idle self pool v :
  stops (nearest_neighbor self pool v) = [] ->
  total_distance_km (nearest_neighbor self pool v) = 0
  /\ estimated_time_hours (nearest_neighbor self pool v) = 0.
Proof.
  destruct (nearest_neighbor_runs self pool v) as (w & Hruns & ->).
  rewrite finish_stops. intros Hstops. unfold finish. rewrite Hstops.
  revert Hstops.
  apply (runs_invariant
           (fun w => stops (route w) = [] ->
                     total_distance_km (route w) = 0
                     /\ estimated_time_hours (route w) = 0) v)
    with (w := start (depot self) pool v); [|exact Hruns|now split].
  intros w0 s _ _ _ H. simpl in H. now destruct (stops (route w0)).
Qed.

Lemma nearest_neighbor_nothing_fits self pool v :
  (forall s, In s pool ->
             ~ (weight_kg s <= capacity_kg v
                /\ (pallets s <= capacity_pallets v)%Z)) ->
  stops (nearest_neighbor self pool v) = [].
Proof.
  intros Hnone. unfold nearest_neighbor.
  rewrite loop_break; [reflexivity|].
  apply step_none. simpl.
  destruct (List.filter _ pool) as [|s l] eqn:E; [reflexivity|].
  assert (Hs : In s (List.filter
                       (fits (route (start (depot self) pool v)) v) pool)).
  { simpl. rewrite E. now left. }
  apply filter_In in Hs as [Hin Hfit]. apply fits_loadable in Hfit.
  destruct Hfit as [Hw Hp]. simpl in Hw, Hp. exfalso.
  apply (Hnone s Hin). split; [lra|lia].
Qed.

Lemma nearest_neighbor_nonneg self pool v :
  0 <= total_distance_km (nearest_neighbor self pool v)
  /\ 0 <= estimated_time_hours (nearest_neighbor self pool v).
Proof.
  destruct (nearest_neighbor_runs self pool v) as (w & Hruns & ->).
  assert (Hw : 0 <= total_distance_km (route w)
               /\ estimated_time_hours (route w) = 0).
  { apply (runs_invariant
             (fun w => 0 <= total_distance_km (route w)
                       /\ estimated_time_hours (route w) = 0) v)
      with (w := start (depot self) pool v); [|exact Hruns|simpl; split; lra].
    intros w0 s [Hd Ht] _ _. simpl. split; [|exact Ht].
    pose proof (distance_to_nonneg (current_location w0) (location s)). lra. }
  destruct Hw as [Hd Ht]. unfold finish.
  destruct (stops (route w)) as [|s l]; [lra|]. cbn -[INR length].
  pose proof (distance_to_nonneg (current_location w) (depot self)) as Hback.
  pose proof (pos_INR (length (s :: l))) as Hn.
  unfold AVERAGE_SPEED, UNLOAD_TIME_MIN. split; [lra|].
  assert (0 <= (total_distance_km (route w)
                + distance_to (current_location w) (depot self)) / 40) by lra.
  assert (0 <= INR (length (s :: l)) * 15 / 60) by lra.
  lra.
Qed.

(** *** The order in which [create_plan] works *)

Lemma shipment_before_asym s t :
  shipment_before s t = true -> shipment_before t s = false.
Proof.
  unfold shipment_before. rewrite (Z.eqb_sym (window_rank t)).
  destruct (window_rank s =? window_rank t)%Z eqn:E.
  - rewrite Rltb_true, Rltb_false. lra.
  - rewrite Z.ltb_lt, Z.ltb_ge. lia.
Qed.

Lemma shipment_before_ntrans s t u :
  shipment_before s t = false -> shipment_before t u = false ->
  shipment_before s u = false.
Proof.
  unfold shipment_before.
  destruct (Z.eqb_spec (window_rank s) (window_rank t)),
           (Z.eqb_spec (window_rank t) (window_rank u)),
           (Z.eqb_spec (window_rank s) (window_rank u));
    rewrite ?Rltb_false, ?Z.ltb_ge; try lra; try lia.
Qed.

Lemma shipment_before_false s t :
  shipment_before t s = false <-> goes_first s t.
Proof.
  unfold shipment_before, goes_first.
  destruct (Z.eqb_spec (window_rank t) (window_rank s)).
  - rewrite Rltb_false. split; [intros H; right; split; [lia|lra]|].
    intros [H|[_ H]]; [lia|lra].
  - rewrite Z.ltb_ge. split; [intros H; left; lia|].
    intros [H|[H _]]; lia.
Qed.

Lemma larger_first_asym x y :
  larger_first x y = true -> larger_first y x = false.
Proof. unfold larger_first. rewrite Rltb_true, Rltb_false. lra. Qed.

Lemma larger_first_ntrans x y z :
  larger_first x y = false -> larger_first y z = false ->
  larger_first x z = false.
Proof. unfold larger_first. rewrite !Rltb_false. lra. Qed.

Lemma sorted_shipments_goes_first l :
  StronglySorted goes_first (Py.sorted shipment_before l).
Proof.
  pose proof (sorted_ascending shipment_before shipment_before_asym
                shipment_before_ntrans l) as H.
  unfold Py.ascending in H.
  induction H as [|s l' Hl IH Hs]; constructor; [exact IH|].
  eapply Forall_impl; [exact Hs|]. intros t Ht.
  now apply shipment_before_false.
Qed.

Lemma take_out_sublist chosen pool :
  fold_left take_out chosen pool `sublist_of` pool.
Proof.
  revert pool. induction chosen as [|s chosen IH]; intros pool; simpl.
  - reflexivity.
  - etransitivity; [apply IH|]. unfold take_out.
    destruct (Py.contains s pool); [apply remove_first_sublist|reflexivity].
Qed.

Lemma dispatch_pool_sublist self st item :
  snd (dispatch self st item) `sublist_of` snd st.
Proof.
  unfold dispatch. destruct (snd st) as [|s pool] eqn:Hpool.
  { now rewrite Hpool. }
  destruct (negb _); [now rewrite Hpool|].
  destruct (stops _) as [|s' chosen]; [now rewrite Hpool|].
  apply take_out_sublist.
Qed.

Lemma dispatch_all_pool_sublist self fleet st :
  snd (fold_left (dispatch self) fleet st) `sublist_of` snd st.
Proof.
  revert st. induction fleet as [|item fleet IH]; intros st; simpl.
  - reflexivity.
  - etransitivity; [apply IH|apply dispatch_pool_sublist].
Qed.

(** What [dispatch] adds to the routes: nothing, or one route built for the
    vehicle at hand. *)
Lemma dispatch_routes self st item :
  fst (dispatch self st item) = fst st
  \/ (available (snd item) = true
      /\ snd st <> []
      /\ stops (nearest_neighbor self (snd st) (snd item)) <> []
      /\ fst (dispatch self st item)
         = fst st ++ [nearest_neighbor self (snd st) (snd item)]).
Proof.
  unfold dispatch. destruct (snd st) as [|s pool] eqn:Hpool; [now left|].
  destruct (available (snd item)) eqn:Hav; simpl; [|now left].
  destruct (stops _) as [|s' chosen] eqn:Hstops; [now left|].
  right. repeat split; discriminate.
Qed.

Lemma dispatch_all_routes self fleet st :
  (forall item, In item fleet -> In item (vehicles self)) ->
  exists used added,
    used `sublist_of` fleet
    /\ Forall (fun item => available (snd item) = true) used
    /\ fst (fold_left (dispatch self) fleet st) = fst st ++ added
    /\ Forall (built_by self) added
    /\ map route_vehicle_id added = map (fun item => vehicle_id (snd item)) used.
Proof.
  revert st. induction fleet as [|item fleet IH]; intros st Hfleet; simpl.
  - exists [], []. rewrite app_nil_r. repeat split; constructor.
  - destruct (IH (dispatch self st item)) as (used & added & Hsub & Hav & Heq & Hb & Hid).
    { intros x Hx. apply Hfleet. now right. }
    destruct (dispatch_routes self st item) as [Hsame|(Ha & Hne & Hstops & Hadd)].
    + exists used, added. rewrite Heq, Hsame.
      repeat split; try assumption. now apply sublist_cons.
    + exists (item :: used), (nearest_neighbor self (snd st) (snd item) :: added).
      rewrite Heq, Hadd, <- app_assoc. simpl.
      split; [now apply sublist_skip|].
      split; [now constructor|]. split; [reflexivity|].
      split; [|rewrite Hid, nearest_neighbor_vehicle_id; reflexivity].
      constructor; [|exact Hb].
      exists (snd st), (fst item), (snd item).
      split; [destruct item; apply Hfleet; now left|]. auto.
Qed.

Lemma sorted_fleet_In self item :
  In item (Py.sorted larger_first (vehicles self)) -> In item (vehicles self).
Proof.
  apply Permutation_in, sorted_perm.
Qed.

Lemma sorted_fleet_descending l :
  StronglySorted
    (fun x y => capacity_kg (snd y) <= capacity_kg (snd x))
    (Py.sorted larger_first l).
Proof.
  pose proof (sorted_ascending larger_first larger_first_asym
                larger_first_ntrans l) as H.
  unfold Py.ascending in H.
  induction H as [|s l' Hl IH Hs]; constructor; [exact IH|].
  eapply Forall_impl; [exact Hs|]. intros t Ht. simpl in Ht.
  unfold larger_first in Ht. apply Rltb_false in Ht. lra.
Qed.

(** *** The distance matrix *)

Lemma matrix_row_from_lookup (i : nat) (g : nat -> Location -> R) (k : nat)
  (cols : list Location) (m : gmap (nat * nat) R) (i' j' : nat) :
  fold_left (fun matrix col => <[(i, fst col) := g (fst col) (snd col)]> matrix)
    (Py.enumerate_from k cols) m !! (i', j')
  = if decide (i = i' /\ (k <= j')%nat)
    then match cols !! (j' - k)%nat with
         | Some b => Some (g j' b)
         | None => m !! (i', j')
         end
    else m !! (i', j').
Proof.
  revert k m. induction cols as [|b0 cols IH]; intros k m; simpl.
  - now destruct (decide _).
  - rewrite IH.
    destruct (decide (i = i' /\ (S k <= j')%nat)) as [[-> Hj]|Hno].
    + rewrite decide_True by (split; [reflexivity|lia]).
      replace (j' - k)%nat with (S (j' - S k)) by lia. simpl.
      destruct (cols !! (j' - S k)%nat); [reflexivity|].
      apply lookup_insert_ne. intros [= ?]. lia.
    + destruct (decide (i = i' /\ (k <= j')%nat)) as [[-> Hj]|Hno'].
      * assert (j' = k) by lia. subst j'.
        rewrite Nat.sub_diag. simpl. apply lookup_insert_eq.
      * apply lookup_insert_ne. intros [= ? ?]. subst. apply Hno'. split; lia.
Qed.

Lemma matrix_row_lookup (locs : list Location) (m : gmap (nat * nat) R)
  (i : nat) (a : Location) (i' j' : nat) :
  matrix_row locs m (i, a) !! (i', j')
  = if decide (i = i')
    then match locs !! j' with
         | Some b => Some (if Nat.eqb i j' then 0 else distance_to a b)
         | None => m !! (i', j')
         end
    else m !! (i', j').
Proof.
  unfold matrix_row, Py.enumerate. simpl.
  rewrite (matrix_row_from_lookup i
             (fun j b => if Nat.eqb i j then 0 else distance_to a b)).
  rewrite Nat.sub_0_r.
  destruct (decide (i = i')).
  - rewrite decide_True by (split; [assumption|lia]). reflexivity.
  - rewrite decide_False by tauto. reflexivity.
Qed.

Lemma matrix_from_lookup (locs : list Location) (k : nat)
  (rows : list Location) (m : gmap (nat * nat) R) (i' j' : nat) :
  fold_left (matrix_row locs) (Py.enumerate_from k rows) m !! (i', j')
  = if decide (k <= i')%nat
    then match rows !! (i' - k)%nat, locs !! j' with
         | Some a, Some b => Some (if Nat.eqb i' j' then 0 else distance_to a b)
         | _, _ => m !! (i', j')
         end
    else m !! (i', j').
Proof.
  revert k m. induction rows as [|a0 rows IH]; intros k m; simpl.
  - now destruct (decide _).
  - rewrite IH.
    destruct (decide (S k <= i')%nat) as [Hi|Hno].
    + rewrite decide_True by lia.
      replace (i' - k)%nat with (S (i' - S k)) by lia. simpl.
      rewrite matrix_row_lookup, decide_False by lia.
      reflexivity.
    + rewrite matrix_row_lookup.
      destruct (decide (k <= i')%nat) as [Hk|Hk].
      * assert (i' = k) by lia. subst i'.
        rewrite decide_True by reflexivity. rewrite Nat.sub_diag. simpl.
        reflexivity.
      * rewrite decide_False by lia. reflexivity.
Qed.

Lemma calculate_distance_matrix_lookup self (i j : nat) :
  calculate_distance_matrix self !! (i, j)
  = match matrix_locations self !! i, matrix_locations self !! j with
    | Some a, Some b => Some (if Nat.eqb i j then 0 else distance_to a b)
    | _, _ => None
    end.
Proof.
  unfold calculate_distance_matrix, Py.enumerate. cbv zeta.
  rewrite matrix_from_lookup, decide_True by lia.
  rewrite Nat.sub_0_r, lookup_empty. reflexivity.
Qed.

(** *** Plan aggregates *)

Lemma sum_stops routes acc :
  fold_left Z.add (map (fun r => Z.of_nat (length (stops r))) routes) acc
  = (acc + Z.of_nat (length (concat (map stops routes))))%Z.
Proof.
  revert acc. induction routes as [|r routes IH]; intros acc; simpl.
  - lia.
  - rewrite IH, length_app. lia.
Qed.

Lemma filter_all {A} (f : A -> bool) l :
  Forall (fun x => f x = true) l -> List.filter f l = l.
Proof.
  induction 1 as [|x l Hx _ IH]; simpl; [reflexivity|].
  now rewrite Hx, IH.
Qed.

Lemma fold_Rplus_ge (lo : R) l acc :
  Forall (fun x => lo <= x) l ->
  acc + INR (length l) * lo <= fold_left Rplus l acc.
Proof.
  intros H. revert acc. induction H as [|x l Hx _ IH]; intros acc.
  - simpl. lra.
  - cbn [fold_left]. specialize (IH (acc + x)).
    rewrite length_cons, S_INR. lra.
Qed.

Lemma Int_part_floor x : IZR (Int_part x) <= x < IZR (Int_part x) + 1.
Proof. pose proof (base_Int_part x). lra. Qed.

Lemma round1_close x : Rabs (Py.round1 x - x) <= 1 / 20.
Proof.
  unfold Py.round1, Py.round_half_even.
  pose proof (Int_part_floor (x * 10)) as [Hlo Hhi].
  set (n := Int_part (x * 10)) in *.
  apply Rabs_le.
  destruct (Rlt_dec _ _) as [H1|H1]; [lra|].
  destruct (Rlt_dec _ _) as [H2|H2]; [rewrite plus_IZR; lra|].
  destruct (Z.even n); [lra|rewrite plus_IZR; lra].
Qed.

Lemma int_of_float_nonneg x :
  0 <= x ->
  IZR (Py.int_of_float x) <= x < IZR (Py.int_of_float x) + 1
  /\ (0 <= Py.int_of_float x)%Z.
Proof.
  intros Hx. unfold Py.int_of_float.
  destruct (Rle_dec 0 x) as [_|H]; [|contradiction].
  pose proof (Int_part_floor x) as [Hlo Hhi]. split; [lra|].
  apply le_IZR. apply Rnot_lt_le. intros Hneg.
  assert (Hz : (Int_part x <= -1)%Z).
  { apply lt_IZR in Hneg. lia. }
  apply IZR_le in Hz. lra.
Qed.

(** *** Cost of a built route *)

Lemma default_table_rates key v :
  dict_get VEHICLES key = Some v ->
  0 <= cost_per_km v /\ 0 <= hourly_rate v /\ 50000 <= fixed_cost v.
Proof.
  unfold VEHICLES. cbn [dict_get].
  repeat (destruct (String.eqb _ key);
          [intros [= <-]; simpl; repeat split; lra|]).
  discriminate.
Qed.

Lemma built_cost_nonneg self r : built_by self r -> 0 <= cost r.
Proof.
  intros (pool & key & v & _ & _ & -> & _).
  destruct (nearest_neighbor_nonneg self pool v) as [Hd Ht].
  unfold cost. destruct (dict_get _ _) as [v0|] eqn:E; [|lra].
  apply default_table_rates in E as (Hk & Hh & Hf).
  destruct (stops _); nra.
Qed.

Lemma built_cost_fixed self r :
  built_by self r ->
  is_Some (dict_get VEHICLES (route_vehicle_id r)) ->
  50000 <= cost r.
Proof.
  intros (pool & key & v & _ & _ & -> & Hstops) [v0 E].
  destruct (nearest_neighbor_nonneg self pool v) as [Hd Ht].
  unfold cost. rewrite E.
  apply default_table_rates in E as (Hk & Hh & Hf).
  destruct (stops _); [congruence|]. nra.
Qed.

Lemma create_plan_routes self target_date :
  exists used,
    used `sublist_of` Py.sorted larger_first (vehicles self)
    /\ Forall (fun item => available (snd item) = true) used
    /\ Forall (built_by self) (routes (create_plan self target_date))
    /\ map route_vehicle_id (routes (create_plan self target_date))
       = map (fun item => vehicle_id (snd item)) used.
Proof.
  unfold create_plan. cbn [routes].
  destruct (dispatch_all_routes self
              (Py.sorted larger_first (vehicles self))
              ([], Py.sorted shipment_before (shipments self))
              (sorted_fleet_In self))
    as (used & added & Hsub & Hav & Heq & Hb & Hid).
  exists used. rewrite Heq. simpl. auto.
Qed.

Lemma int_of_float_zero : Py.int_of_float 0 = 0%Z.
Proof.
  destruct (int_of_float_nonneg 0 (Rle_refl 0)) as [[Hlo Hhi] Hpos].
  assert (Hlt : (Py.int_of_float 0 < 1)%Z).
  { apply lt_IZR. lra. }
  lia.
Qed.


End RouterFacts.

(** ** The production scheduler *)

Module SchedulerFacts.
Import Scheduler SchedulerSpec.
Open Scope Q_scope.

(** *** Machine states *)

Lemma initial_states_covered self target_date :
  covered self (initial_states self target_date).
Proof.
  unfold covered, initial_states.
  set (f := fun (states : gmap string MachineState) (m : Machine) =>
              <[machine_id m :=
                  {| current_time :=
                       Py.combine_hour target_date WORK_START_HOUR;
                     current_color := initial_color m;
                     orders_today := [] |}]> states).
  assert (H : forall l (acc : gmap string MachineState) m,
             In m l \/ is_Some (acc !! machine_id m) ->
             is_Some (fold_left f l acc !! machine_id m)).
  { induction l as [|x l IH]; intros acc m [Hin|Hsome]; simpl.
    - destruct Hin.
    - exact Hsome.
    - apply IH. destruct Hin as [->|Hin]; [right|now left].
      unfold f. rewrite lookup_insert_eq. eauto.
    - apply IH. right. unfold f. apply lookup_insert_is_Some.
      destruct (decide (machine_id x = machine_id m)); auto. }
  intros m Hin. apply H. now left.
Qed.

Lemma compatible_machine self order m :
  In m (get_compatible_machines self order) ->
  In m (machines self)
  /\ available m = true
  /\ (width_min m <= width_mm order <= width_max m)%Z.
Proof.
  unfold get_compatible_machines. rewrite filter_In.
  intros [Hin H]. apply andb_prop in H as [H Hmax].
  apply andb_prop in H as [Hav Hmin].
  apply Z.leb_le in Hmin, Hmax. auto.
Qed.

(** *** Setup times *)

Lemma calculate_setup_time_cases a b :
  calculate_setup_time a b = 10%Z \/ calculate_setup_time a b = 30%Z
  \/ calculate_setup_time a b = 45%Z \/ calculate_setup_time a b = 20%Z.
Proof.
  unfold calculate_setup_time, SETUP_TIME_MATRIX.
  destruct (decide ((a, b) = ("CLEAR", "CLEAR")%string)) as [->|H1].
  { rewrite lookup_insert_eq. auto. }
  rewrite lookup_insert_ne by congruence.
  destruct (decide ((a, b) = ("CLEAR", "COLOR")%string)) as [->|H2].
  { rewrite lookup_insert_eq. auto. }
  rewrite lookup_insert_ne by congruence.
  destruct (decide ((a, b) = ("COLOR", "CLEAR")%string)) as [->|H3].
  { rewrite lookup_insert_eq. auto. }
  rewrite lookup_insert_ne by congruence.
  destruct (decide ((a, b) = ("COLOR", "COLOR")%string)) as [->|H4].
  { rewrite lookup_insert_eq. auto. }
  rewrite lookup_insert_ne by congruence.
  rewrite lookup_empty. auto.
Qed.

Lemma calculate_setup_time_pos a b : (0 < calculate_setup_time a b)%Z.
Proof.
  destruct (calculate_setup_time_cases a b) as [H|[H|[H|H]]]; rewrite H; lia.
Qed.

(** *** Choosing the machine *)

Lemma candidate_functional states order m t t' :
  candidate states order m t -> candidate states order m t' -> t = t'.
Proof.
  intros (st & Hst & _ & ->) (st' & Hst' & _ & ->). congruence.
Qed.

Lemma consider_chosen states order best pre m :
  is_Some (states !! machine_id m) ->
  chosen states order best pre ->
  exists best',
    consider states order best m = inr best'
    /\ chosen states order best' (pre ++ [m]).
Proof.
  intros [st Hst] Hbest. unfold consider, state_of. rewrite Hst. simpl.
  destruct (max_items_per_cycle m <=? _)%Z eqn:Hlim.
  - (* at its limit: skipped *)
    exists best. split; [reflexivity|].
    assert (Hno : forall t, ~ candidate states order m t).
    { intros t (st' & Hst' & Hbelow & _). unfold below_limit in Hbelow.
      assert (st' = st) by congruence. subst. now rewrite Hlim in Hbelow. }
    destruct best as [[b t]|]; simpl in *.
    + destruct Hbest as (front & back & -> & Hb & Hfront & Hback).
      exists front, (back ++ [m]). rewrite <- app_assoc. repeat split; auto.
      intros x t' [Hin|[->|[]]]%in_app_or Hc; [eauto|].
      now apply Hno in Hc.
    + intros x t [Hin|[->|[]]]%in_app_or; [eauto|apply Hno].
  - assert (Hm : candidate states order m
                   (calculate_setup_time (current_color st) (color order))).
    { exists st. unfold below_limit. now rewrite Hlim. }
    destruct best as [[b t]|]; simpl in *.
    + destruct Hbest as (front & back & -> & Hb & Hfront & Hback).
      destruct (_ <? t)%Z eqn:Hlt.
      * apply Z.ltb_lt in Hlt. eexists; split; [reflexivity|]. simpl.
        exists (front ++ b :: back), []. repeat split; auto.
        -- intros x t' Hin Hc.
           apply in_app_or in Hin as [Hin|[->|Hin]].
           ++ specialize (Hfront _ _ Hin Hc). lia.
           ++ rewrite (candidate_functional _ _ _ _ _ Hc Hb). exact Hlt.
           ++ specialize (Hback _ _ Hin Hc). lia.
        -- intros x t' [].
      * apply Z.ltb_ge in Hlt. eexists; split; [reflexivity|]. simpl.
        exists front, (back ++ [m]). rewrite <- app_assoc. repeat split; auto.
        intros x t' [Hin|[->|[]]]%in_app_or Hc; [eauto|].
        now rewrite (candidate_functional _ _ _ _ _ Hc Hm).
    + eexists; split; [reflexivity|]. simpl.
      exists pre, []. repeat split; auto.
      * intros x t' Hin Hc. now apply Hbest in Hc.
      * intros x t' [].
Qed.

Lemma select_scan states order l :
  (forall x, In x l -> is_Some (states !! machine_id x)) ->
  forall pre best,
    chosen states order best pre ->
    exists best',
      fold_left (fun acc machine => let* b := acc in
                                    consider states order b machine)
                l (inr best) = inr best'
      /\ chosen states order best' (pre ++ l).
Proof.
  induction l as [|m l IH]; intros Hcov pre best Hbest; simpl.
  - exists best. now rewrite app_nil_r.
  - destruct (consider_chosen states order best pre m) as (b' & -> & Hb');
      [apply Hcov; now left|exact Hbest|].
    destruct (IH (fun x Hx => Hcov x (or_intror Hx)) (pre ++ [m]) b' Hb')
      as (best' & Hfold & Hch).
    exists best'. split; [exact Hfold|]. now rewrite <- app_assoc in Hch.
Qed.

Lemma select_machine_chosen states order l :
  (forall x, In x l -> is_Some (states !! machine_id x)) ->
  exists best,
    select_machine states order l = inr best /\ chosen states order best l.
Proof.
  intros Hcov. apply (select_scan states order l Hcov [] None).
  intros x t [].
Qed.

(** *** The verdict on one order *)

Lemma Qltb_true x y : Qltb x y = true <-> x < y.
Proof.
  unfold Qltb. rewrite negb_true_iff, <- not_true_iff_false, Qle_bool_iff.
  split; [apply Qnot_le_lt | apply Qlt_not_le].
Qed.

Lemma Qltb_false x y : Qltb x y = false <-> y <= x.
Proof. unfold Qltb. now rewrite negb_false_iff, Qle_bool_iff. Qed.

Lemma after_setup c t : (0 < t)%Z -> c < c + Py.timedelta_minutes t.
Proof.
  intros H. unfold Py.timedelta_minutes.
  assert (0 < inject_Z t).
  { change 0 with (inject_Z 0). now rewrite <- Zlt_Qlt. }
  unfold Qdiv. change (/ 60) with (1 # 60). lra.
Qed.

Lemma estimate_production_time_ok order m :
  measurable order ->
  ~ speed_m_per_min m == 0 ->
  estimate_production_time order m = inr (production_hours order m).
Proof.
  intros Hfit H. unfold estimate_production_time, Py.float_of_int.
  cbv zeta. rewrite Hfit. cbn [Py.bind Py.ret].
  destruct (Qeq_bool _ 0) eqn:E; [|reflexivity].
  now apply Qeq_bool_iff in E.
Qed.

Lemma estimate_production_time_zero order m :
  measurable order ->
  speed_m_per_min m == 0 ->
  estimate_production_time order m = inl Py.ZeroDivisionError.
Proof.
  intros Hfit H. unfold estimate_production_time, Py.float_of_int.
  cbv zeta. rewrite Hfit. cbn [Py.bind Py.ret].
  now rewrite (proj2 (Qeq_bool_iff _ _) H).
Qed.

Lemma estimate_production_time_overflow order m :
  ~ measurable order ->
  estimate_production_time order m = inl Py.OverflowError.
Proof.
  intros Hfit. unfold estimate_production_time, Py.float_of_int.
  cbv zeta. unfold measurable in Hfit.
  now destruct (Py.float_fits (quantity_rolls order * 1000)).
Qed.

Lemma measurable_dec order : measurable order \/ ~ measurable order.
Proof.
  unfold measurable.
  destruct (Py.float_fits (quantity_rolls order * 1000));
    [now left|right; discriminate].
Qed.

Lemma estimate_production_time_inv order m pt :
  estimate_production_time order m = inr pt ->
  ~ speed_m_per_min m == 0 /\ pt = production_hours order m.
Proof.
  intros H.
  destruct (measurable_dec order) as [Hfit|Hfit].
  2:{ rewrite estimate_production_time_overflow in H by exact Hfit.
      discriminate. }
  destruct (Qeq_dec (speed_m_per_min m) 0) as [Hz|Hnz].
  - rewrite estimate_production_time_zero in H by assumption. discriminate.
  - rewrite estimate_production_time_ok in H by assumption.
    split; [exact Hnz|congruence].
Qed.

Lemma estimate_production_time_measurable order m pt :
  estimate_production_time order m = inr pt -> measurable order.
Proof.
  intros H.
  destruct (measurable_dec order) as [Hfit|Hfit]; [exact Hfit|].
  rewrite estimate_production_time_overflow in H by exact Hfit.
  discriminate.
Qed.

Lemma judge_no_compatible self target_date states order :
  get_compatible_machines self order = [] ->
  judge self target_date states order = inr (unscheduled no_compatible_machine).
Proof. unfold judge. now intros ->. Qed.

Lemma judge_selected self target_date states order :
  covered self states ->
  get_compatible_machines self order <> [] ->
  exists best,
    select_machine states order (get_compatible_machines self order)
    = inr best
    /\ chosen states order best (get_compatible_machines self order)
    /\ match best with
       | None =>
           judge self target_date states order
           = inr (unscheduled item_limit_reached)
       | Some (m, t) =>
           exists st,
             states !! machine_id m = Some st
             /\ judge self target_date states order
                = settle target_date order m t st
       end.
Proof.
  intros Hcov Hne.
  destruct (select_machine_chosen states order
              (get_compatible_machines self order))
    as (best & Hsel & Hch).
  { intros x Hx. apply Hcov. now apply compatible_machine in Hx. }
  exists best. split; [exact Hsel|]. split; [exact Hch|].
  unfold judge.
  destruct (get_compatible_machines self order) as [|m0 l] eqn:Hcompat;
    [congruence|].
  rewrite Hsel. simpl. destruct best as [[m t]|]; [|reflexivity].
  destruct Hch as (front & back & _ & (st & Hst & _) & _).
  exists st. split; [exact Hst|].
  unfold state_of. rewrite Hst. reflexivity.
Qed.

Lemma in_range_bounds t :
  Py.in_range t = true <-> 0 <= t /\ t < Py.datetime_end.
Proof.
  unfold Py.in_range.
  rewrite andb_true_iff, Qle_bool_iff. fold (Qltb t Py.datetime_end).
  now rewrite Qltb_true.
Qed.

Lemma timedelta_fits_bounds h :
  Py.timedelta_fits h = true
  <-> inject_Z (24 * -999999999) <= h /\ h < inject_Z (24 * 1000000000).
Proof.
  unfold Py.timedelta_fits.
  rewrite andb_true_iff, Qle_bool_iff.
  fold (Qltb h (inject_Z (24 * 1000000000))).
  now rewrite Qltb_true.
Qed.

Lemma timedelta_ok h : Py.timedelta_fits h = true -> Py.timedelta h = inr h.
Proof. unfold Py.timedelta. now intros ->. Qed.

Lemma timedelta_overflow h :
  Py.timedelta_fits h = false -> Py.timedelta h = inl Py.OverflowError.
Proof. unfold Py.timedelta. now intros ->. Qed.

Lemma datetime_add_ok d x :
  Py.in_range (d + x) = true -> Py.datetime_add d x = inr (d + x).
Proof. unfold Py.datetime_add. now intros ->. Qed.

Lemma datetime_add_overflow d x :
  Py.in_range (d + x) = false -> Py.datetime_add d x = inl Py.OverflowError.
Proof. unfold Py.datetime_add. now intros ->. Qed.

(** [settle] when the slot's times can be computed. *)
Lemma settle_on_calendar target_date order m t st production_time :
  estimate_production_time order m = inr production_time ->
  on_calendar st t production_time ->
  settle target_date order m t st
  = inr (if Qltb (work_end target_date)
                 (end_time (slot_for order m t st production_time))
         then unscheduled work_window_exceeded
         else committed (slot_for order m t st production_time)
                        (state_after order t st production_time)).
Proof.
  intros Hpt (H1 & H2 & H3 & H4). unfold settle. rewrite Hpt.
  cbn [Py.bind]. rewrite (timedelta_ok _ H1). cbn [Py.bind].
  rewrite (datetime_add_ok _ _ H2). cbn [Py.bind].
  unfold Py.timedelta_hours. rewrite (timedelta_ok _ H3). cbn [Py.bind].
  rewrite (datetime_add_ok _ _ H4). cbn [Py.bind].
  change (end_time (slot_for order m t st production_time))
    with (current_time st + Py.timedelta_minutes t + production_time).
  now destruct (Qltb _ _).
Qed.

(** [settle] when they cannot. *)
Lemma settle_off_calendar target_date order m t st production_time :
  estimate_production_time order m = inr production_time ->
  ~ on_calendar st t production_time ->
  settle target_date order m t st = inl Py.OverflowError.
Proof.
  intros Hpt Hoff. unfold settle. rewrite Hpt. cbn [Py.bind].
  destruct (Py.timedelta_fits (Py.timedelta_minutes t)) eqn:H1;
    [|now rewrite (timedelta_overflow _ H1)].
  rewrite (timedelta_ok _ H1). cbn [Py.bind].
  destruct (Py.in_range (current_time st + Py.timedelta_minutes t)) eqn:H2;
    [|now rewrite (datetime_add_overflow _ _ H2)].
  rewrite (datetime_add_ok _ _ H2). cbn [Py.bind].
  unfold Py.timedelta_hours.
  destruct (Py.timedelta_fits production_time) eqn:H3;
    [|now rewrite (timedelta_overflow _ H3)].
  rewrite (timedelta_ok _ H3). cbn [Py.bind].
  destruct (Py.in_range
              (current_time st + Py.timedelta_minutes t + production_time))
    eqn:H4; [|now rewrite (datetime_add_overflow _ _ H4)].
  contradiction Hoff. now repeat split.
Qed.

Lemma on_calendar_dec st t production_time :
  on_calendar st t production_time \/ ~ on_calendar st t production_time.
Proof.
  unfold on_calendar.
  destruct (Py.timedelta_fits (Py.timedelta_minutes t));
    [|right; intros (H & _); discriminate].
  destruct (Py.in_range (current_time st + Py.timedelta_minutes t));
    [|right; intros (_ & H & _); discriminate].
  destruct (Py.timedelta_fits production_time);
    [|right; intros (_ & _ & H & _); discriminate].
  destruct (Py.in_range
              (current_time st + Py.timedelta_minutes t + production_time));
    [now left|right; intros (_ & _ & _ & H); discriminate].
Qed.

Lemma settle_returns target_date order m t st v :
  settle target_date order m t st = inr v ->
  exists production_time,
    estimate_production_time order m = inr production_time
    /\ on_calendar st t production_time.
Proof.
  intros H.
  destruct (estimate_production_time order m) as [e|pt] eqn:Hpt.
  { unfold settle in H. rewrite Hpt in H. discriminate. }
  exists pt. split; [reflexivity|].
  destruct (on_calendar_dec st t pt) as [Hon|Hoff]; [exact Hon|].
  rewrite (settle_off_calendar _ _ _ _ _ _ Hpt Hoff) in H. discriminate.
Qed.

Lemma settle_verdict target_date order m t st v :
  settle target_date order m t st = inr v ->
  exists production_time,
    estimate_production_time order m = inr production_time
    /\ ((work_end target_date
         < end_time (slot_for order m t st production_time)
         /\ v = unscheduled work_window_exceeded)
        \/ (end_time (slot_for order m t st production_time)
            <= work_end target_date
            /\ v = committed (slot_for order m t st production_time)
                             (state_after order t st production_time))).
Proof.
  intros H.
  destruct (settle_returns _ _ _ _ _ _ H) as (pt & Hpt & Hon).
  rewrite (settle_on_calendar _ _ _ _ _ _ Hpt Hon) in H.
  exists pt. split; [exact Hpt|].
  destruct (Qltb _ _) eqn:E; injection H as <-.
  - left. now apply Qltb_true in E.
  - right. now apply Qltb_false in E.
Qed.

(** A commit, read backwards. *)
Lemma judge_committed self target_date states order slot st' :
  covered self states ->
  judge self target_date states order = inr (committed slot st') ->
  exists m t st production_time,
    first_cheapest states order m t (get_compatible_machines self order)
    /\ states !! machine_id m = Some st
    /\ estimate_production_time order m = inr production_time
    /\ slot = slot_for order m t st production_time
    /\ st' = state_after order t st production_time
    /\ end_time slot <= work_end target_date.
Proof.
  intros Hcov Hj.
  destruct (get_compatible_machines self order) as [|m0 l] eqn:Hcompat.
  { rewrite judge_no_compatible in Hj by assumption. discriminate. }
  destruct (judge_selected self target_date states order Hcov)
    as (best & _ & Hch & Hbest); [congruence|].
  rewrite Hcompat in Hch.
  destruct best as [[m t]|]; [|congruence].
  destruct Hbest as (st & Hst & Hjudge). rewrite Hjudge in Hj.
  apply settle_verdict in Hj as (pt & Hpt & [[_ [=]]|[Hend [= -> ->]]]).
  exists m, t, st, pt. auto 10.
Qed.

(** *** The order loop *)

Lemma place_cases self target_date p order p' :
  covered self (machine_states p) ->
  place self target_date p order = inr p' ->
  (exists why,
      judge self target_date (machine_states p) order = inr (unscheduled why)
      /\ p' = skip p order)
  \/ (exists m t st production_time,
         first_cheapest (machine_states p) order m t
           (get_compatible_machines self order)
         /\ machine_states p !! machine_id m = Some st
         /\ estimate_production_time order m = inr production_time
         /\ end_time (slot_for order m t st production_time)
            <= work_end target_date
         /\ p' = commit p (slot_for order m t st production_time)
                          (state_after order t st production_time)).
Proof.
  intros Hcov. unfold place.
  destruct (judge self target_date (machine_states p) order)
    as [e|[why|slot st']] eqn:Hj; simpl; [discriminate| |].
  - intros [= <-]. left. eauto.
  - intros [= <-]. right.
    apply judge_committed in Hj
      as (m & t & st & pt & Hbest & Hst & Hpt & -> & -> & Hend);
      [|exact Hcov].
    exists m, t, st, pt. auto 10.
Qed.

Lemma place_covered self target_date p order p' :
  covered self (machine_states p) ->
  place self target_date p order = inr p' ->
  covered self (machine_states p').
Proof.
  intros Hcov Hp.
  destruct (place_cases _ _ _ _ _ Hcov Hp)
    as [(why & _ & ->)|(m & t & st & pt & _ & _ & _ & _ & ->)];
    [exact Hcov|].
  intros x Hx. simpl. apply lookup_insert_is_Some.
  destruct (decide (machine_id m = machine_id x)); auto.
Qed.

Lemma run_raise self target_date l e :
  fold_left (fun acc order => let* p := acc in
                              place self target_date p order)
            l (inl e) = inl e.
Proof. induction l as [|o l IH]; simpl; auto. Qed.

Lemma run_cons self target_date o l p :
  run self target_date (o :: l) p
  = (let* p1 := place self target_date p o in run self target_date l p1).
Proof.
  unfold run. simpl.
  destruct (place self target_date p o) as [e|p1]; simpl; [|reflexivity].
  apply run_raise.
Qed.

(** An invariant of the loop body is an invariant of the loop. *)
Lemma run_invariant self target_date (P : progress -> Prop) :
  (forall p o p',
      covered self (machine_states p) -> P p ->
      place self target_date p o = inr p' -> P p') ->
  forall l p p',
    covered self (machine_states p) -> P p ->
    run self target_date l p = inr p' ->
    covered self (machine_states p') /\ P p'.
Proof.
  intros Hstep. induction l as [|o l IH]; intros p p' Hcov HP.
  - intros [= <-]. auto.
  - rewrite run_cons.
    destruct (place self target_date p o) as [e|p1] eqn:Hp; [discriminate|].
    simpl. apply IH.
    + eapply place_covered; eauto.
    + eapply Hstep; eauto.
Qed.

(** *** Coverage *)

Lemma scheduled_add_slot s slot :
  scheduled (add_slot s slot) = scheduled s ++ orders slot.
Proof.
  unfold scheduled, add_slot. simpl.
  rewrite map_app, concat_app. simpl. now rewrite app_nil_r.
Qed.

Lemma place_keeps_orders self target_date p order p' :
  covered self (machine_states p) ->
  place self target_date p order = inr p' ->
  Permutation
    (scheduled (schedule p') ++ unscheduled_orders (schedule p'))
    (order :: scheduled (schedule p) ++ unscheduled_orders (schedule p)).
Proof.
  intros Hcov Hp.
  destruct (place_cases _ _ _ _ _ Hcov Hp)
    as [(why & _ & ->)|(m & t & st & pt & _ & _ & _ & _ & ->)]; simpl.
  - change (scheduled (add_unscheduled (schedule p) order))
      with (scheduled (schedule p)).
    rewrite app_assoc. symmetry. apply Permutation_cons_append.
  - rewrite scheduled_add_slot. simpl.
    rewrite <- app_assoc. simpl. symmetry. apply Permutation_middle.
Qed.

Lemma run_keeps_orders self target_date l p p' :
  covered self (machine_states p) ->
  run self target_date l p = inr p' ->
  Permutation
    (scheduled (schedule p') ++ unscheduled_orders (schedule p'))
    (l ++ scheduled (schedule p) ++ unscheduled_orders (schedule p)).
Proof.
  revert p. induction l as [|o l IH]; intros p Hcov.
  - intros [= <-]. reflexivity.
  - rewrite run_cons.
    destruct (place self target_date p o) as [e|p1] eqn:Hp; [discriminate|].
    simpl. intros Hrun.
    rewrite (IH p1 (place_covered _ _ _ _ _ Hcov Hp) Hrun).
    rewrite (place_keeps_orders _ _ _ _ _ Hcov Hp).
    symmetry. apply Permutation_middle.
Qed.

(** *** Slot order per machine *)

Lemma consecutive_snoc l x :
  consecutive l ->
  (forall s, last l = Some s -> end_time s < start_time x) ->
  consecutive (l ++ [x]).
Proof.
  intros Hl Hlast i s1 s2 H1 H2.
  destruct (decide (S i < length l)%nat) as [Hlt|Hge].
  - rewrite lookup_app_l in H1 by lia. rewrite lookup_app_l in H2 by lia.
    eauto.
  - rewrite lookup_app_r in H2 by lia.
    apply list_lookup_singleton_Some in H2 as [Hi <-].
    assert (Hi' : i = pred (length l)) by lia.
    rewrite lookup_app_l in H1 by lia.
    apply Hlast. now rewrite last_lookup, <- Hi'.
Qed.

Lemma slots_of_snoc id l x :
  slots_of id (l ++ [x])
  = slots_of id l ++ (if String.eqb (slot_machine_id x) id then [x] else []).
Proof. unfold slots_of. now rewrite List.filter_app. Qed.

Lemma first_cheapest_setup states order m t l :
  first_cheapest states order m t l -> (0 < t)%Z.
Proof.
  intros (_ & _ & _ & (st & _ & _ & ->) & _).
  apply calculate_setup_time_pos.
Qed.

Lemma place_tidy self target_date p order p' :
  covered self (machine_states p) ->
  tidy target_date p ->
  place self target_date p order = inr p' ->
  tidy target_date p'.
Proof.
  intros Hcov [Hwin Hord Hcur] Hp.
  destruct (place_cases _ _ _ _ _ Hcov Hp)
    as [(why & _ & ->)|(m & t & st & pt & Hbest & Hst & _ & Hend & ->)].
  { now split. }
  apply first_cheapest_setup in Hbest.
  split; simpl.
  - intros s [Hs|[<-|[]]]%in_app_or; auto.
  - intros id. rewrite slots_of_snoc. simpl.
    destruct (String.eqb_spec (machine_id m) id) as [<-|Hne].
    + apply consecutive_snoc; [apply Hord|].
      intros s Hs. apply Hcur in Hs as (st0 & Hst0 & Htime).
      assert (st0 = st) by congruence. subst st0.
      simpl. rewrite <- Htime. now apply after_setup.
    + rewrite app_nil_r. apply Hord.
  - intros id s. rewrite slots_of_snoc. simpl.
    destruct (String.eqb_spec (machine_id m) id) as [<-|Hne].
    + rewrite last_snoc. intros [= <-].
      rewrite lookup_insert_eq. eauto.
    + rewrite app_nil_r, lookup_insert_ne by exact Hne. apply Hcur.
Qed.

Lemma create_schedule_run self target_date :
  create_schedule self target_date
  = (let* p := run self target_date
                 (sort_orders_for_scheduling (sched_orders self))
                 (opening self target_date) in
     Py.ret (schedule p)).
Proof. reflexivity. Qed.

Lemma opening_covered self target_date :
  covered self (machine_states (opening self target_date)).
Proof. apply initial_states_covered. Qed.

Lemma opening_tidy self target_date :
  tidy target_date (opening self target_date).
Proof.
  split; simpl.
  - intros s [].
  - intros id i s1 s2 H. discriminate.
  - intros id s H. discriminate.
Qed.

(** A returned schedule is the schedule of a tidy, covered progress that
    holds every order once. *)
Lemma create_schedule_progress self target_date s :
  create_schedule self target_date = inr s ->
  exists p,
    s = schedule p
    /\ covered self (machine_states p)
    /\ tidy target_date p
    /\ Permutation (scheduled s ++ unscheduled_orders s) (sched_orders self).
Proof.
  rewrite create_schedule_run.
  destruct (run _ _ _ _) as [e|p] eqn:Hrun; [discriminate|].
  simpl. intros [= <-]. exists p. split; [reflexivity|].
  pose proof (opening_covered self target_date) as Hcov.
  destruct (run_invariant self target_date (tidy target_date)
              (place_tidy self target_date) _ _ _ Hcov
              (opening_tidy self target_date) Hrun)
    as [Hcov' Htidy].
  split; [exact Hcov'|]. split; [exact Htidy|].
  rewrite (run_keeps_orders _ _ _ _ _ Hcov Hrun). simpl.
  rewrite app_nil_r. apply sorted_perm.
Qed.

(** *** The selected machine is determined *)

Lemma first_cheapest_unique states order l m t m' t' :
  first_cheapest states order m t l ->
  first_cheapest states order m' t' l ->
  m = m' /\ t = t'.
Proof.
  intros (f & b & Hl & Hc & Hf & Hb) (f' & b' & Hl' & Hc' & Hf' & Hb').
  rewrite Hl in Hl'. apply app_eq_app in Hl' as [k [[Hk1 Hk2]|[Hk1 Hk2]]].
  - destruct k as [|z k]; simpl in Hk2; injection Hk2 as Hz Hk2.
    + subst m'. split; [reflexivity|].
      eapply candidate_functional; eauto.
    + subst z. exfalso.
      assert (t < t')%Z.
      { apply (Hf m' t'); [|exact Hc']. rewrite Hk1.
        apply in_or_app. right. now left. }
      assert (t' <= t)%Z.
      { apply (Hb' m t); [|exact Hc]. rewrite Hk2.
        apply in_or_app. right. now left. }
      lia.
  - destruct k as [|z k]; simpl in Hk2; injection Hk2 as Hz Hk2.
    + subst m'. split; [reflexivity|].
      eapply candidate_functional; eauto.
    + subst z. exfalso.
      assert (t' < t)%Z.
      { apply (Hf' m t); [|exact Hc]. rewrite Hk1.
        apply in_or_app. right. now left. }
      assert (t <= t')%Z.
      { apply (Hb m' t'); [|exact Hc']. rewrite Hk2.
        apply in_or_app. right. now left. }
      lia.
Qed.

Lemma place_of_judge self target_date p order v :
  judge self target_date (machine_states p) order = inr v ->
  place self target_date p order
  = inr match v with
        | unscheduled _ => skip p order
        | committed slot st => commit p slot st
        end.
Proof. unfold place. intros ->. simpl. now destruct v. Qed.

Lemma settle_ok target_date order m t st :
  measurable order ->
  ~ speed_m_per_min m == 0 ->
  on_calendar st t (production_hours order m) ->
  settle target_date order m t st
  = inr (if Qltb (work_end target_date)
                 (end_time (slot_for order m t st (production_hours order m)))
         then unscheduled work_window_exceeded
         else committed (slot_for order m t st (production_hours order m))
                        (state_after order t st (production_hours order m))).
Proof.
  intros Hfit H Hon. apply settle_on_calendar; [|exact Hon].
  now apply estimate_production_time_ok.
Qed.

(** The verdict on an order for which [m], at setup time [t], is the first
    cheapest machine. *)
Lemma judge_first_cheapest self target_date states order m t st :
  covered self states ->
  first_cheapest states order m t (get_compatible_machines self order) ->
  states !! machine_id m = Some st ->
  judge self target_date states order = settle target_date order m t st.
Proof.
  intros Hcov Hbest Hst.
  assert (Hne : get_compatible_machines self order <> []).
  { destruct Hbest as (f & b & -> & _). now destruct f. }
  destruct (judge_selected self target_date states order Hcov Hne)
    as (best & _ & Hch & Hjudge).
  destruct best as [[m' t']|]; simpl in Hch.
  2:{ destruct Hbest as (f & b & Hl & Hc & _). exfalso.
      apply (Hch m t); [|exact Hc]. rewrite Hl.
      apply in_or_app. right. now left. }
  destruct (first_cheapest_unique _ _ _ _ _ _ _ Hbest Hch) as [<- <-].
  destruct Hjudge as (st' & Hst' & Hjudge).
  assert (st' = st) by congruence. now subst st'.
Qed.

(** What happens to such an order when the slot's times can be computed. *)
Lemma place_selected self target_date p order m t st :
  covered self (machine_states p) ->
  first_cheapest (machine_states p) order m t
    (get_compatible_machines self order) ->
  machine_states p !! machine_id m = Some st ->
  measurable order ->
  ~ speed_m_per_min m == 0 ->
  on_calendar st t (production_hours order m) ->
  let slot := slot_for order m t st (production_hours order m) in
  (end_time slot <= work_end target_date ->
   place self target_date p order
   = inr (commit p slot (state_after order t st (production_hours order m))))
  /\ (work_end target_date < end_time slot ->
      place self target_date p order = inr (skip p order)).
Proof.
  intros Hcov Hbest Hst Hfit Hspeed Hon slot.
  pose proof (judge_first_cheapest self target_date _ _ _ _ _ Hcov Hbest Hst)
    as Hjudge.
  rewrite (settle_ok target_date order m t st Hfit Hspeed Hon) in Hjudge.
  subst slot. split; intros Hend.
  - apply Qltb_false in Hend. rewrite Hend in Hjudge.
    now rewrite (place_of_judge _ _ _ _ _ Hjudge).
  - apply Qltb_true in Hend. rewrite Hend in Hjudge.
    now rewrite (place_of_judge _ _ _ _ _ Hjudge).
Qed.

(** ... and when they cannot. *)
Lemma place_off_calendar self target_date p order m t st :
  covered self (machine_states p) ->
  first_cheapest (machine_states p) order m t
    (get_compatible_machines self order) ->
  machine_states p !! machine_id m = Some st ->
  measurable order ->
  ~ speed_m_per_min m == 0 ->
  ~ on_calendar st t (production_hours order m) ->
  place self target_date p order = inl Py.OverflowError.
Proof.
  intros Hcov Hbest Hst Hfit Hspeed Hoff. unfold place.
  rewrite (judge_first_cheapest self target_date _ _ _ _ _ Hcov Hbest Hst).
  rewrite (settle_off_calendar target_date order m t st
             (production_hours order m)
             (estimate_production_time_ok order m Hfit Hspeed) Hoff).
  reflexivity.
Qed.

Lemma place_none_selected self target_date p order :
  covered self (machine_states p) ->
  (forall m t, In m (get_compatible_machines self order) ->
               ~ candidate (machine_states p) order m t) ->
  place self target_date p order = inr (skip p order).
Proof.
  intros Hcov Hnone.
  destruct (get_compatible_machines self order) as [|m0 l] eqn:Hcompat.
  { now rewrite (place_of_judge _ _ _ _ _
                   (judge_no_compatible _ _ _ _ Hcompat)). }
  destruct (judge_selected self target_date (machine_states p) order Hcov)
    as (best & _ & Hch & Hjudge); [congruence|].
  rewrite Hcompat in Hch.
  destruct best as [[m t]|]; simpl in Hch.
  - destruct Hch as (f & b & Hl & Hc & _). exfalso.
    apply (Hnone m t); [|exact Hc]. rewrite Hl.
    apply in_or_app. right. now left.
  - now rewrite (place_of_judge _ _ _ _ _ Hjudge).
Qed.

Lemma some_selected self states order :
  covered self states ->
  (exists m t, In m (get_compatible_machines self order)
               /\ candidate states order m t) ->
  exists m t st,
    first_cheapest states order m t (get_compatible_machines self order)
    /\ states !! machine_id m = Some st.
Proof.
  intros Hcov (m0 & t0 & Hin & Hc).
  destruct (select_machine_chosen states order
              (get_compatible_machines self order))
    as (best & _ & Hch).
  { intros x Hx. apply Hcov. now apply compatible_machine in Hx. }
  destruct best as [[m t]|]; simpl in Hch.
  - exists m, t. destruct Hch as (f & b & Hl & (st & Hst & Hbelow & Ht) & H).
    exists st. split; [|exact Hst].
    exists f, b. split; [exact Hl|]. split; [|exact H].
    exists st. auto.
  - exfalso. now apply (Hch m0 t0).
Qed.

(** *** The order in which orders are taken *)

Lemma Qeq_bool_false x y : Qeq_bool x y = false <-> ~ x == y.
Proof.
  split.
  - intros H Heq. apply Qeq_bool_iff in Heq. congruence.
  - intros H. destruct (Qeq_bool x y) eqn:E; [|reflexivity].
    apply Qeq_bool_iff in E. contradiction.
Qed.

(** Turns the tests of [order_before] into facts on the keys. *)
Ltac order_keys :=
  unfold order_before, precedes, same_key, Py.tied;
  repeat match goal with
  | |- context [(?a =? ?b)%Z] => destruct (Z.eqb_spec a b)
  | |- context [Qeq_bool ?a ?b] =>
      let E := fresh "E" in
      destruct (Qeq_bool a b) eqn:E;
      [apply Qeq_bool_iff in E | apply Qeq_bool_false in E]
  end;
  cbn [negb andb];
  rewrite ?Qltb_true, ?Qltb_false, ?Z.ltb_lt, ?Z.ltb_ge.

Lemma order_before_asym o p :
  order_before o p = true -> order_before p o = false.
Proof. order_keys; intros; try lia; try lra; try congruence. Qed.

Lemma order_before_ntrans o p q :
  order_before o p = false -> order_before p q = false ->
  order_before o q = false.
Proof. order_keys; intros; try lia; try lra; try congruence. Qed.

Lemma order_before_false o p : order_before p o = false <-> precedes o p.
Proof.
  order_keys; split; intros H;
    repeat match goal with
    | H : _ \/ _ |- _ => destruct H
    | H : _ /\ _ |- _ => destruct H
    end; try lia; try lra; try congruence;
    try (left; lia); try (right; split; [lia|]; first [left; lra | right; split; [lra | lia]]).
  all: try (exfalso; first [lia | lra | (symmetry in E; contradiction) | contradiction]).
  all: try (exfalso; apply E; lra).
Qed.

Lemma order_tied_same_key o p : Py.tied order_before o p = same_key o p.
Proof.
  order_keys; try reflexivity;
    repeat match goal with
    | |- context [Qltb ?a ?b] =>
        let E := fresh "E" in
        destruct (Qltb a b) eqn:E;
        [apply Qltb_true in E | apply Qltb_false in E]
    | |- context [(?a <? ?b)%Z] => destruct (Z.ltb_spec a b)
    end; cbn [negb andb]; try reflexivity; try lia; try lra.
Qed.
Lemma sort_orders_precedes l :
  StronglySorted precedes (sort_orders_for_scheduling l).
Proof.
  pose proof (sorted_ascending order_before order_before_asym
                order_before_ntrans l) as H.
  unfold Py.ascending in H. unfold sort_orders_for_scheduling.
  induction H as [|o l' Hl IH Ho]; constructor; [exact IH|].
  eapply Forall_impl; [exact Ho|]. intros p Hp.
  now apply order_before_false.
Qed.

Lemma sort_orders_stable o l :
  List.filter (same_key o) (sort_orders_for_scheduling l)
  = List.filter (same_key o) l.
Proof.
  unfold sort_orders_for_scheduling.
  rewrite <- !(filter_ext _ _ (order_tied_same_key o)).
  apply sorted_stable, order_before_ntrans.
Qed.

(** *** Width groups *)

Lemma group_fold_lookup l (groups : gmap Z (list Order)) k :
  fold_left
    (fun groups order =>
       let width_group := (width_mm order / 100 * 100)%Z in
       <[width_group := default [] (groups !! width_group) ++ [order]]> groups)
    l groups !! k
  = match List.filter (fun o => (width_group o =? k)%Z) l with
    | [] => groups !! k
    | g => Some (default [] (groups !! k) ++ g)
    end.
Proof.
  revert groups. induction l as [|o l IH]; intros groups; [reflexivity|].
  cbn [fold_left List.filter]. rewrite IH. clear IH. cbv zeta.
  fold (width_group o).
  destruct (Z.eqb_spec (width_group o) k) as [->|Hne].
  - rewrite lookup_insert_eq. cbn [default].
    destruct (List.filter _ l) as [|x g]; [reflexivity|].
    unfold Datatypes.id. f_equal. rewrite <- app_assoc. reflexivity.
  - now rewrite lookup_insert_ne by exact Hne.
Qed.

Lemma group_orders_by_width_lookup self k :
  group_orders_by_width self !! k
  = match List.filter (fun o => (width_group o =? k)%Z) (sched_orders self) with
    | [] => None
    | g => Some g
    end.
Proof.
  unfold group_orders_by_width. rewrite group_fold_lookup.
  rewrite lookup_empty. reflexivity.
Qed.

Lemma width_group_bounds o :
  (width_group o <= width_mm o < width_group o + 100)%Z
  /\ (width_group o mod 100 = 0)%Z.
Proof.
  unfold width_group. split; [|apply Z.mod_mul; lia].
  pose proof (Z.div_mod (width_mm o) 100 ltac:(lia)).
  pose proof (Z.mod_pos_bound (width_mm o) 100 ltac:(lia)). lia.
Qed.

(** *** Setup times outside the table *)

Lemma calculate_setup_time_default a b :
  (a <> "CLEAR" /\ a <> "COLOR") \/ (b <> "CLEAR" /\ b <> "COLOR") ->
  calculate_setup_time a b = 30%Z.
Proof.
  intros H. unfold calculate_setup_time, SETUP_TIME_MATRIX.
  rewrite !lookup_insert_ne; [now rewrite lookup_empty| | | |];
    intros [= <- <-]; destruct H as [[? ?]|[? ?]]; congruence.
Qed.

Lemma calculate_setup_time_table :
  calculate_setup_time "CLEAR" "CLEAR" = 10%Z
  /\ calculate_setup_time "CLEAR" "COLOR" = 30%Z
  /\ calculate_setup_time "COLOR" "CLEAR" = 45%Z
  /\ calculate_setup_time "COLOR" "COLOR" = 20%Z.
Proof. repeat split; vm_compute; reflexivity. Qed.

Lemma calculate_setup_time_In a b :
  In (calculate_setup_time a b) [10; 20; 30; 45]%Z.
Proof.
  destruct (calculate_setup_time_cases a b) as [H|[H|[H|H]]]; rewrite H;
    simpl; auto.
Qed.

(** *** What the order loop builds *)

Lemma first_cheapest_In states order m t l :
  first_cheapest states order m t l ->
  In m l /\ candidate states order m t.
Proof.
  intros (front & back & -> & Hc & _). split; [|exact Hc].
  apply in_or_app. right. now left.
Qed.

Lemma run_invariant_in self target_date (P : progress -> Prop) l :
  (forall p o p',
      In o l -> covered self (machine_states p) -> P p ->
      place self target_date p o = inr p' -> P p') ->
  forall p p',
    covered self (machine_states p) -> P p ->
    run self target_date l p = inr p' ->
    covered self (machine_states p') /\ P p'.
Proof.
  induction l as [|o l IH]; intros Hstep p p' Hcov HP.
  - intros [= <-]. auto.
  - rewrite run_cons.
    destruct (place self target_date p o) as [e|p1] eqn:Hp; [discriminate|].
    simpl. apply IH.
    + intros q x q' Hx. apply Hstep. now right.
    + eapply place_covered; eauto.
    + eapply (Hstep p o); eauto. now left.
Qed.

Lemma initial_states_entry self target_date id st :
  initial_states self target_date !! id = Some st ->
  current_time st = work_start target_date /\ orders_today st = [].
Proof.
  unfold initial_states.
  assert (G : forall l (states : gmap string MachineState),
             (forall id st, states !! id = Some st ->
                            current_time st = work_start target_date
                            /\ orders_today st = []) ->
             forall id st,
               fold_left
                 (fun states m =>
                    <[machine_id m :=
                        {| current_time :=
                             Py.combine_hour target_date WORK_START_HOUR;
                           current_color := initial_color m;
                           orders_today := [] |}]> states) l states !! id
               = Some st ->
               current_time st = work_start target_date
               /\ orders_today st = []).
  { induction l as [|m l IH]; intros states Hs id' st'; simpl; [apply Hs|].
    apply IH. intros id1 st1.
    destruct (decide (machine_id m = id1)) as [<-|Hne].
    - rewrite lookup_insert_eq. intros [= <-]. now split.
    - rewrite lookup_insert_ne by exact Hne. apply Hs. }
  apply G. intros id1 st1. rewrite lookup_empty. discriminate.
Qed.

Lemma place_sound self target_date p order p' :
  covered self (machine_states p) ->
  Forall (sound_slot self) (slots (schedule p)) ->
  place self target_date p order = inr p' ->
  Forall (sound_slot self) (slots (schedule p')).
Proof.
  intros Hcov Hs Hp.
  destruct (place_cases _ _ _ _ _ Hcov Hp)
    as [(why & _ & ->)|(m & t & st & pt & Hbest & Hst & Hpt & Hend & ->)].
  { exact Hs. }
  simpl. apply Forall_app. split; [exact Hs|]. constructor; [|constructor].
  apply first_cheapest_In in Hbest as [Hin (st' & Hst' & Hlim & ->)].
  apply compatible_machine in Hin as (Hm & Hav & Hw).
  apply estimate_production_time_inv in Hpt as [Hnz ->].
  exists m, order. simpl.
  repeat split; try assumption; try lia. apply calculate_setup_time_In.
Qed.

Lemma place_counted self target_date p order p' :
  covered self (machine_states p) ->
  counted self p ->
  place self target_date p order = inr p' ->
  counted self p'.
Proof.
  intros Hcov [Htoday Hlimit] Hp.
  destruct (place_cases _ _ _ _ _ Hcov Hp)
    as [(why & _ & ->)|(m & t & st & pt & Hbest & Hst & Hpt & Hend & ->)].
  { now split. }
  apply first_cheapest_In in Hbest as [Hin (st' & Hst' & Hlim & Ht)].
  assert (st' = st) by congruence. subst st'.
  apply compatible_machine in Hin as (Hm & _).
  split; simpl.
  - intros id st1. rewrite slots_of_snoc. simpl.
    destruct (String.eqb_spec (machine_id m) id) as [<-|Hne].
    + rewrite lookup_insert_eq. intros [= <-]. simpl.
      rewrite !length_app. simpl. now rewrite (Htoday _ _ Hst).
    + rewrite lookup_insert_ne by exact Hne. rewrite app_nil_r.
      apply Htoday.
  - intros id. rewrite slots_of_snoc. simpl.
    destruct (String.eqb_spec (machine_id m) id) as [<-|Hne].
    + intros _. exists m. split; [exact Hm|]. split; [reflexivity|].
      rewrite length_app. simpl. rewrite <- (Htoday _ _ Hst).
      unfold below_limit in Hlim.
      apply negb_true_iff, Z.leb_gt in Hlim. lia.
    + rewrite app_nil_r. apply Hlimit.
Qed.

Lemma opening_counted self target_date :
  counted self (opening self target_date).
Proof.
  split; simpl.
  - intros id st H. apply initial_states_entry in H as [_ ->]. reflexivity.
  - intros id H. now contradiction H.
Qed.

Lemma production_hours_nonneg order m :
  (0 <= quantity_rolls order)%Z -> 0 < speed_m_per_min m ->
  0 <= production_hours order m.
Proof.
  intros Hq Hs. unfold production_hours, Qdiv.
  apply Qmult_le_0_compat; [apply Qmult_le_0_compat|].
  - change 0 with (inject_Z 0). rewrite <- Zle_Qle. lia.
  - apply Qinv_le_0_compat. now apply Qlt_le_weak.
  - discriminate.
Qed.

Lemma place_punctual self target_date p order p' :
  (0 <= quantity_rolls order)%Z ->
  (forall m, In m (machines self) -> 0 < speed_m_per_min m) ->
  covered self (machine_states p) ->
  punctual target_date p ->
  place self target_date p order = inr p' ->
  punctual target_date p'.
Proof.
  intros Hq Hspeed Hcov [Hcur Hslots] Hp.
  destruct (place_cases _ _ _ _ _ Hcov Hp)
    as [(why & _ & ->)|(m & t & st & pt & Hbest & Hst & Hpt & Hend & ->)].
  { now split. }
  pose proof (first_cheapest_setup _ _ _ _ _ Hbest) as Ht.
  apply first_cheapest_In in Hbest as [Hin _].
  apply compatible_machine in Hin as (Hm & _).
  apply estimate_production_time_inv in Hpt as [_ ->].
  pose proof (production_hours_nonneg order m Hq (Hspeed m Hm)) as Hph.
  pose proof (after_setup (current_time st) t Ht) as Hset.
  pose proof (Hcur _ _ Hst) as Hst0.
  split; simpl.
  - intros id st1.
    destruct (decide (machine_id m = id)) as [<-|Hne].
    + rewrite lookup_insert_eq. intros [= <-]. simpl.
      unfold Py.timedelta_hours. lra.
    + rewrite lookup_insert_ne by exact Hne. apply Hcur.
  - intros slot [Hs|[<-|[]]]%in_app_or; [now apply Hslots|].
    simpl. unfold Py.timedelta_hours. split; lra.
Qed.

Lemma opening_punctual self target_date :
  punctual target_date (opening self target_date).
Proof.
  split; simpl.
  - intros id st H. apply initial_states_entry in H as [-> _].
    apply Qle_refl.
  - intros slot [].
Qed.

(** *** The two exceptions *)

Lemma judge_raises self target_date states order e :
  covered self states ->
  judge self target_date states order = inl e ->
  failure self order e.
Proof.
  intros Hcov Hj.
  destruct (list_eq_nil_dec (get_compatible_machines self order))
    as [Hc|Hc].
  { rewrite judge_no_compatible in Hj by exact Hc. discriminate. }
  destruct (judge_selected self target_date states order Hcov Hc)
    as (best & Hsel & Hch & Hbest).
  destruct best as [[m t]|].
  - destruct Hbest as (st & Hst & Hjs). rewrite Hjs in Hj.
    apply first_cheapest_In in Hch as [Hin _].
    exists m. split; [exact Hin|].
    destruct (measurable_dec order) as [Hfit|Hfit].
    2:{ unfold settle in Hj.
        rewrite estimate_production_time_overflow in Hj by exact Hfit.
        simpl in Hj. injection Hj as <-. right. split; [reflexivity|].
        now left. }
    destruct (Qeq_dec (speed_m_per_min m) 0) as [Hz|Hnz].
    + unfold settle in Hj.
      rewrite estimate_production_time_zero in Hj by assumption.
      simpl in Hj. injection Hj as <-. now left.
    + destruct (on_calendar_dec st t (production_hours order m))
        as [Hon|Hoff].
      * rewrite settle_ok in Hj by assumption. discriminate.
      * rewrite (settle_off_calendar target_date order m t st
                   (production_hours order m)
                   (estimate_production_time_ok order m Hfit Hnz) Hoff)
          in Hj.
        injection Hj as <-. right. split; [reflexivity|]. now right.
  - rewrite Hbest in Hj. discriminate.
Qed.

Lemma place_raises self target_date p order e :
  covered self (machine_states p) ->
  place self target_date p order = inl e ->
  failure self order e.
Proof.
  intros Hcov Hp.
  destruct (judge self target_date (machine_states p) order) as [e'|v]
    eqn:Hj.
  - assert (e' = e) as ->.
    { unfold place in Hp. rewrite Hj in Hp. simpl in Hp. congruence. }
    eapply judge_raises; eauto.
  - rewrite (place_of_judge _ _ _ _ _ Hj) in Hp. discriminate.
Qed.

Lemma run_raises self target_date l p e :
  covered self (machine_states p) ->
  run self target_date l p = inl e ->
  exists o, In o l /\ failure self o e.
Proof.
  revert p. induction l as [|o l IH]; intros p Hcov; [discriminate|].
  rewrite run_cons.
  destruct (place self target_date p o) as [e'|p1] eqn:Hp; simpl.
  - intros [= <-]. exists o. split; [now left|].
    eapply place_raises; eauto.
  - intros Hrun.
    destruct (IH p1 (place_covered _ _ _ _ _ Hcov Hp) Hrun)
      as (x & Hx & Hfail).
    exists x. split; [now right | exact Hfail].
Qed.

(** *** Orders keep their turn *)

Lemma run_sublists self target_date l p p' :
  covered self (machine_states p) ->
  run self target_date l p = inr p' ->
  exists a b,
    scheduled (schedule p') = scheduled (schedule p) ++ a
    /\ unscheduled_orders (schedule p')
       = unscheduled_orders (schedule p) ++ b
    /\ a `sublist_of` l /\ b `sublist_of` l.
Proof.
  revert p. induction l as [|o l IH]; intros p Hcov.
  - intros [= <-]. exists [], []. rewrite !app_nil_r. now repeat split.
  - rewrite run_cons.
    destruct (place self target_date p o) as [e|p1] eqn:Hp; [discriminate|].
    simpl. intros Hrun.
    destruct (IH p1 (place_covered _ _ _ _ _ Hcov Hp) Hrun)
      as (a & b & Ha & Hb & Hsa & Hsb).
    destruct (place_cases _ _ _ _ _ Hcov Hp)
      as [(why & _ & ->)|(m & t & st & pt & _ & _ & _ & _ & ->)].
    + exists a, (o :: b). simpl in Ha, Hb.
      rewrite Ha, Hb, <- app_assoc. repeat split.
      * now apply sublist_cons.
      * now apply sublist_skip.
    + exists (o :: a), b. simpl in Ha, Hb. rewrite scheduled_add_slot in Ha.
      simpl in Ha. rewrite Ha, Hb, <- app_assoc. repeat split.
      * now apply sublist_skip.
      * now apply sublist_cons.
Qed.

Lemma run_no_machine self target_date l p :
  (forall o, In o l -> get_compatible_machines self o = []) ->
  run self target_date l p
  = inr {| machine_states := machine_states p;
           schedule :=
             {| date := date (schedule p);
                slots := slots (schedule p);
                unscheduled_orders := unscheduled_orders (schedule p) ++ l |}
        |}.
Proof.
  revert p. induction l as [|o l IH]; intros p Hno.
  - destruct p as [states [d sl un]]. simpl. now rewrite app_nil_r.
  - rewrite run_cons.
    rewrite (place_of_judge self target_date p o
               (unscheduled no_compatible_machine)).
    2:{ apply judge_no_compatible, Hno. now left. }
    simpl. rewrite IH by (intros x Hx; apply Hno; now right).
    simpl. now rewrite <- app_assoc.
Qed.

(** *** Counting a schedule *)

Lemma sum_slot_orders self l a :
  Forall (sound_slot self) l ->
  fold_left Z.add (map (fun s => Z.of_nat (length (orders s))) l) a
  = (a + Z.of_nat (length l))%Z.
Proof.
  intros H. revert a.
  induction H as [|s l (m & o & _ & _ & _ & _ & _ & Ho & _) Hl IH];
    intros a; simpl.
  - lia.
  - rewrite IH, Ho. simpl length. lia.
Qed.

Lemma sum_slot_setup self l a :
  Forall (sound_slot self) l ->
  (a + 10 * Z.of_nat (length l)
   <= fold_left Z.add (map setup_time_min l) a
   <= a + 45 * Z.of_nat (length l))%Z.
Proof.
  intros H. revert a.
  induction H as [|s l (m & o & _ & _ & _ & _ & _ & _ & Ht & _) Hl IH];
    intros a; simpl.
  - lia.
  - specialize (IH (a + setup_time_min s)%Z).
    simpl in Ht. destruct Ht as [Ht|[Ht|[Ht|[Ht|[]]]]]; lia.
Qed.

Lemma size_list_to_set_le (l : list string) :
  (size (list_to_set l : gset string) <= length l)%nat.
Proof.
  induction l as [|x l IH].
  - rewrite list_to_set_nil, size_empty. simpl. lia.
  - rewrite list_to_set_cons, size_union_alt, size_singleton. simpl length.
    assert (size (list_to_set l ∖ {[x]} : gset string)
            <= size (list_to_set l : gset string))%nat.
    { apply subseteq_size. intros y Hy.
      now apply elem_of_difference in Hy as [Hy _]. }
    lia.
Qed.

Lemma scheduled_length self s :
  Forall (sound_slot self) (slots s) ->
  length (scheduled s) = length (slots s).
Proof.
  unfold scheduled.
  induction 1 as [|x l (m & o & _ & _ & _ & _ & _ & Ho & _) Hl IH];
    simpl; [reflexivity|].
  rewrite length_app, IH, Ho. reflexivity.
Qed.

Lemma machines_used_fleet self (l : list ScheduleSlot) :
  Forall (sound_slot self) l ->
  (size (list_to_set (map slot_machine_id l) : gset string)
   <= length (machines self))%nat.
Proof.
  intros H.
  etransitivity;
    [|etransitivity;
      [apply (size_list_to_set_le (map machine_id (machines self)))|]].
  - apply subseteq_size. intros id Hid.
    apply elem_of_list_to_set, list_elem_of_In, in_map_iff in Hid
      as (s & <- & Hs).
    rewrite List.Forall_forall in H.
    destruct (H s Hs) as (m & o & Hm & _ & _ & _ & -> & _).
    apply elem_of_list_to_set, list_elem_of_In, in_map. exact Hm.
  - now rewrite length_map.
Qed.

(** *** What a returned schedule satisfies *)

Lemma create_schedule_sound self target_date s :
  create_schedule self target_date = inr s ->
  Forall (sound_slot self) (slots s).
Proof.
  rewrite create_schedule_run.
  destruct (run _ _ _ _) as [e|p] eqn:Hrun; [discriminate|].
  simpl. intros [= <-].
  apply (run_invariant self target_date
           (fun p => Forall (sound_slot self) (slots (schedule p)))
           (place_sound self target_date) _ _ _
           (opening_covered self target_date) (List.Forall_nil _) Hrun).
Qed.

Lemma create_schedule_counted self target_date s :
  create_schedule self target_date = inr s ->
  exists p, s = schedule p /\ counted self p.
Proof.
  rewrite create_schedule_run.
  destruct (run _ _ _ _) as [e|p] eqn:Hrun; [discriminate|].
  simpl. intros [= <-]. exists p. split; [reflexivity|].
  apply (run_invariant self target_date (counted self)
           (place_counted self target_date) _ _ _
           (opening_covered self target_date)
           (opening_counted self target_date) Hrun).
Qed.

Lemma create_schedule_punctual self target_date s :
  (forall o, In o (sched_orders self) -> (0 <= quantity_rolls o)%Z) ->
  (forall m, In m (machines self) -> 0 < speed_m_per_min m) ->
  create_schedule self target_date = inr s ->
  exists p, s = schedule p /\ punctual target_date p.
Proof.
  intros Hq Hspeed. rewrite create_schedule_run.
  destruct (run _ _ _ _) as [e|p] eqn:Hrun; [discriminate|].
  simpl. intros [= <-]. exists p. split; [reflexivity|].
  refine (proj2 (run_invariant_in self target_date (punctual target_date) _ _
                   _ _ (opening_covered self target_date)
                   (opening_punctual self target_date) Hrun)).
  intros q o q' Ho. apply place_punctual; [|exact Hspeed].
  apply Hq. eapply Permutation_in; [apply sorted_perm|exact Ho].
Qed.

Lemma create_schedule_raises self target_date e :
  create_schedule self target_date = inl e ->
  exists o, In o (sched_orders self) /\ failure self o e.
Proof.
  rewrite create_schedule_run.
  destruct (run _ _ _ _) as [e'|p] eqn:Hrun; [|discriminate].
  simpl. intros [= <-].
  destruct (run_raises _ _ _ _ _ (opening_covered self target_date) Hrun)
    as (o & Ho & Hfail).
  exists o. split; [|exact Hfail].
  eapply Permutation_in; [apply sorted_perm|exact Ho].
Qed.

Lemma create_schedule_sublists self target_date s :
  create_schedule self target_date = inr s ->
  scheduled s `sublist_of` sort_orders_for_scheduling (sched_orders self)
  /\ unscheduled_orders s
       `sublist_of` sort_orders_for_scheduling (sched_orders self).
Proof.
  rewrite create_schedule_run.
  destruct (run _ _ _ _) as [e|p] eqn:Hrun; [discriminate|].
  simpl. intros [= <-].
  destruct (run_sublists _ _ _ _ _ (opening_covered self target_date) Hrun)
    as (a & b & Ha & Hb & Hsa & Hsb).
  simpl in Ha, Hb. rewrite Ha, Hb. now split.
Qed.

Lemma create_schedule_no_machine self target_date :
  (forall o, In o (sched_orders self) -> get_compatible_machines self o = []) ->
  create_schedule self target_date
  = inr {| date := target_date; slots := [];
           unscheduled_orders :=
             sort_orders_for_scheduling (sched_orders self) |}.
Proof.
  intros Hno. rewrite create_schedule_run, run_no_machine; [reflexivity|].
  intros o Ho. apply Hno.
  eapply Permutation_in; [apply sorted_perm|exact Ho].
Qed.

Lemma work_day_length target_date :
  work_end target_date - work_start target_date == 12.
Proof.
  unfold work_end, work_start, Py.combine_hour, WORK_END_HOUR,
    WORK_START_HOUR.
  change (inject_Z 20) with 20. change (inject_Z 8) with 8. lra.
Qed.

(** *** A machine's first slot *)

Lemma initial_states_origin self target_date id st :
  initial_states self target_date !! id = Some st ->
  current_time st = work_start target_date
  /\ exists m,
       In m (machines self)
       /\ machine_id m = id
       /\ current_color st = initial_color m.
Proof.
  unfold initial_states.
  assert (G : forall l (states : gmap string MachineState),
             (forall m, In m l -> In m (machines self)) ->
             (forall id st,
                 states !! id = Some st ->
                 current_time st = work_start target_date
                 /\ exists m, In m (machines self) /\ machine_id m = id
                              /\ current_color st = initial_color m) ->
             forall id st,
               fold_left
                 (fun states m =>
                    <[machine_id m :=
                        {| current_time :=
                             Py.combine_hour target_date WORK_START_HOUR;
                           current_color := initial_color m;
                           orders_today := [] |}]> states) l states !! id
               = Some st ->
               current_time st = work_start target_date
               /\ exists m, In m (machines self) /\ machine_id m = id
                            /\ current_color st = initial_color m).
  { induction l as [|m l IH]; intros states Hl Hs id' st'; simpl;
      [apply Hs|].
    apply IH; [intros x Hx; apply Hl; now right|].
    intros id1 st1.
    destruct (decide (machine_id m = id1)) as [<-|Hne].
    - rewrite lookup_insert_eq. intros [= <-]. split; [reflexivity|].
      exists m. split; [apply Hl; now left|]. now split.
    - rewrite lookup_insert_ne by exact Hne. apply Hs. }
  apply G; [auto|]. intros id1 st1. rewrite lookup_empty. discriminate.
Qed.

Lemma place_opened self target_date p order p' :
  covered self (machine_states p) ->
  opened self target_date p ->
  place self target_date p order = inr p' ->
  opened self target_date p'.
Proof.
  intros Hcov [Hfresh Hfirst] Hp.
  destruct (place_cases _ _ _ _ _ Hcov Hp)
    as [(why & _ & ->)|(m & t & st & pt & Hbest & Hst & Hpt & Hend & ->)].
  { now split. }
  apply first_cheapest_In in Hbest as [_ (st' & Hst' & _ & Ht)].
  assert (st' = st) by congruence. subst st'.
  split; simpl.
  - intros id. rewrite slots_of_snoc. simpl.
    destruct (String.eqb_spec (machine_id m) id) as [<-|Hne].
    + intros H. now apply app_eq_nil in H as [_ H].
    + rewrite app_nil_r, lookup_insert_ne by exact Hne. apply Hfresh.
  - intros id slot rest. rewrite slots_of_snoc. simpl.
    destruct (String.eqb_spec (machine_id m) id) as [<-|Hne].
    + destruct (slots_of (machine_id m) (slots (schedule p)))
        as [|x l] eqn:Hold.
      * intros [= <- <-]. specialize (Hfresh _ Hold).
        rewrite Hst in Hfresh. symmetry in Hfresh.
        apply initial_states_origin in Hfresh as (Htime & m' & Hm' & Hid & Hc).
        exists m', order. simpl. rewrite Htime, Ht, Hc. now repeat split.
      * intros [= <- <-]. apply (Hfirst _ _ _ Hold).
    + rewrite app_nil_r. apply Hfirst.
Qed.

Lemma opening_opened self target_date :
  opened self target_date (opening self target_date).
Proof.
  split; simpl.
  - reflexivity.
  - intros id slot rest H. discriminate.
Qed.

Lemma create_schedule_opened self target_date s :
  create_schedule self target_date = inr s ->
  exists p, s = schedule p /\ opened self target_date p.
Proof.
  rewrite create_schedule_run.
  destruct (run _ _ _ _) as [e|p] eqn:Hrun; [discriminate|].
  simpl. intros [= <-]. exists p. split; [reflexivity|].
  apply (run_invariant self target_date (opened self target_date)
           (place_opened self target_date) _ _ _
           (opening_covered self target_date)
           (opening_opened self target_date) Hrun).
Qed.

(** *** The chain of a machine's slots *)

Lemma neighbours_snoc {A} (rel : A -> A -> Prop) (l : list A) (x : A) :
  (forall (i : nat) a b, l !! i = Some a -> l !! S i = Some b -> rel a b) ->
  (forall a, last l = Some a -> rel a x) ->
  forall (i : nat) a b,
    (l ++ [x]) !! i = Some a -> (l ++ [x]) !! S i = Some b -> rel a b.
Proof.
  intros Hl Hlast i a b H1 H2.
  destruct (decide (S i < length l)%nat) as [Hlt|Hge].
  - rewrite lookup_app_l in H1 by lia. rewrite lookup_app_l in H2 by lia.
    eauto.
  - rewrite lookup_app_r in H2 by lia.
    apply list_lookup_singleton_Some in H2 as [Hi <-].
    assert (Hi' : i = pred (length l)) by lia.
    rewrite lookup_app_l in H1 by lia.
    apply Hlast. now rewrite last_lookup, <- Hi'.
Qed.

Lemma place_chained self target_date p order p' :
  covered self (machine_states p) ->
  chained p ->
  place self target_date p order = inr p' ->
  chained p'.
Proof.
  intros Hcov [Hslots Hcur] Hp.
  destruct (place_cases _ _ _ _ _ Hcov Hp)
    as [(why & _ & ->)|(m & t & st & pt & Hbest & Hst & Hpt & Hend & ->)].
  { now split. }
  apply first_cheapest_In in Hbest as [_ (st' & Hst' & _ & Ht)].
  assert (st' = st) by congruence. subst st'.
  split; simpl.
  - intros id. rewrite slots_of_snoc. simpl.
    destruct (String.eqb_spec (machine_id m) id) as [<-|Hne].
    + apply neighbours_snoc; [apply Hslots|].
      intros s Hs. apply Hcur in Hs as (st0 & o & Hst0 & Ho & Htime & Hcol).
      assert (st0 = st) by congruence. subst st0.
      exists o, order. simpl. rewrite Ht, Htime, Hcol. now repeat split.
    + rewrite app_nil_r. apply Hslots.
  - intros id s. rewrite slots_of_snoc. simpl.
    destruct (String.eqb_spec (machine_id m) id) as [<-|Hne].
    + rewrite last_snoc. intros [= <-].
      rewrite lookup_insert_eq. eexists _, order. simpl. now repeat split.
    + rewrite app_nil_r, lookup_insert_ne by exact Hne. apply Hcur.
Qed.

Lemma opening_chained self target_date :
  chained (opening self target_date).
Proof.
  split; simpl.
  - intros id i s1 s2 H. discriminate.
  - intros id s H. discriminate.
Qed.

Lemma create_schedule_chained self target_date s :
  create_schedule self target_date = inr s ->
  exists p, s = schedule p /\ chained p.
Proof.
  rewrite create_schedule_run.
  destruct (run _ _ _ _) as [e|p] eqn:Hrun; [discriminate|].
  simpl. intros [= <-]. exists p. split; [reflexivity|].
  apply (run_invariant self target_date chained
           (place_chained self target_date) _ _ _
           (opening_covered self target_date)
           (opening_chained self target_date) Hrun).
Qed.

(** *** When the order loop returns *)


Lemma setup_span a b :
  0 < Py.timedelta_minutes (calculate_setup_time a b)
  /\ Py.timedelta_minutes (calculate_setup_time a b) < 1.
Proof.
  unfold Py.timedelta_minutes.
  destruct (calculate_setup_time_cases a b) as [E|[E|[E|E]]]; rewrite E;
    split; reflexivity.
Qed.







(** The slot's times can be computed as soon as both lie in the range of
    [datetime]. *)
Lemma on_calendar_of_range st a b production_time :
  Py.in_range (current_time st
               + Py.timedelta_minutes (calculate_setup_time a b)) = true ->
  Py.in_range (current_time st
               + Py.timedelta_minutes (calculate_setup_time a b)
               + production_time) = true ->
  on_calendar st (calculate_setup_time a b) production_time.
Proof.
  intros Hstart Hend.
  pose proof (setup_span a b) as [Hs0 Hs1].
  assert (Hmax : Py.datetime_end < inject_Z (24 * 1000000000))
    by reflexivity.
  assert (Hmin : inject_Z (24 * -999999999) < - Py.datetime_end)
    by reflexivity.
  assert (Hone : 1 < inject_Z (24 * 1000000000)) by reflexivity.
  destruct (proj1 (in_range_bounds _) Hstart) as [Hs2 Hs3].
  destruct (proj1 (in_range_bounds _) Hend) as [He2 He3].
  split; [apply timedelta_fits_bounds; split; lra|].
  split; [exact Hstart|].
  split; [apply timedelta_fits_bounds; split; lra | exact Hend].
Qed.

End SchedulerFacts.

(** * The claims of the specification *)


(** ** C1 *)




(** ** C2 *)

(** C2 as stated fails for a vehicle record with a negative capacity: with
    nothing to load, the route keeps weight 0, which exceeds -1. *)
Lemma capacity_invariant_counterexample :
  ~ RouterSpec.within_capacity Examples.overdrawn
      (Router.nearest_neighbor (Router.init None None) [] Examples.overdrawn).
Proof.
  unfold RouterSpec.within_capacity. simpl. intros [H _]. lra.
Qed.

(** C2, amended: a route built by [nearest_neighbor] keeps its weight and
    pallet totals within the vehicle's capacities whenever it has a stop,
    and for every pool when the capacities are not negative; a route
    without stops has both totals at 0. *)
Theorem capacity_invariant
  (self : Router.DeliveryRouter) (pool : list Router.Shipment)
  (v : Router.Vehicle) :
  (Router.stops (Router.nearest_neighbor self pool v) <> []
   \/ (0 <= Router.capacity_kg v)%R /\ (0 <= Router.capacity_pallets v)%Z ->
   (Router.total_weight_kg (Router.nearest_neighbor self pool v)
    <= Router.capacity_kg v)%R
   /\ (Router.total_pallets (Router.nearest_neighbor self pool v)
       <= Router.capacity_pallets v)%Z)
  /\ (Router.stops (Router.nearest_neighbor self pool v) = [] ->
      Router.total_weight_kg (Router.nearest_neighbor self pool v) = 0%R
      /\ Router.total_pallets (Router.nearest_neighbor self pool v) = 0%Z).
Proof.
  split.
  - intros H.
    destruct (RouterFacts.nearest_neighbor_capacity self pool v)
      as [(Hstops & Hw & Hp)|Hin]; [|exact Hin].
    destruct H as [H|[Hkg Hpl]]; [congruence|].
    rewrite Hw, Hp. now split.
  - apply RouterFacts.nearest_neighbor_unloaded.
Qed.

Lemma capacity_invariant_witness :
  (0 <= Router.capacity_kg Examples.V1)%R
  /\ (0 <= Router.capacity_pallets Examples.V1)%Z
  /\ (Router.total_weight_kg
        (Router.nearest_neighbor Examples.demo_router
           Examples.create_sample_shipments Examples.V1)
      <= Router.capacity_kg Examples.V1)%R
  /\ (Router.total_pallets
        (Router.nearest_neighbor Examples.demo_router
           Examples.create_sample_shipments Examples.V1)
      <= Router.capacity_pallets Examples.V1)%Z.
Proof.
  assert (Hkg : (0 <= Router.capacity_kg Examples.V1)%R) by (simpl; lra).
  assert (Hpl : (0 <= Router.capacity_pallets Examples.V1)%Z) by (simpl; lia).
  split; [exact Hkg|]. split; [exact Hpl|].
  apply (proj1 (capacity_invariant Examples.demo_router
                  Examples.create_sample_shipments Examples.V1)).
  right. split; [exact Hkg | exact Hpl].
Defined.

(** ** C3 *)

(** C3 as stated fails on the equator: the location at latitude 0 and
    longitude 1 is not the unset location, and neither is the one a degree
    north of it, yet the distance between them is the fallback 10 and not
    their great-circle distance 6371 * PI / 180 (about 111 km). *)
Lemma distance_contract_counterexample :
  RouterSpec.unset Examples.equator = false
  /\ RouterSpec.unset Examples.north_of_equator = false
  /\ Router.distance_to Examples.equator Examples.north_of_equator = 10%R
  /\ RouterSpec.great_circle_km Examples.equator Examples.north_of_equator
     = (6371 * PI / 180)%R
  /\ Router.distance_to Examples.equator Examples.north_of_equator
     <> (if RouterSpec.unset Examples.equator
            || RouterSpec.unset Examples.north_of_equator
         then 10%R
         else RouterSpec.great_circle_km Examples.equator
                Examples.north_of_equator).
Proof.
  assert (Ha : RouterSpec.unset Examples.equator = false).
  { unfold RouterSpec.unset. simpl. apply andb_false_intro2.
    apply Reqb_false. lra. }
  assert (Hb : RouterSpec.unset Examples.north_of_equator = false).
  { unfold RouterSpec.unset. simpl. apply andb_false_intro1.
    apply Reqb_false. lra. }
  assert (Hd : Router.distance_to Examples.equator Examples.north_of_equator
               = 10%R).
  { apply RouterFacts.distance_to_unset. now left. }
  split; [exact Ha|]. split; [exact Hb|]. split; [exact Hd|].
  split; [apply RouterFacts.great_circle_one_degree|].
  rewrite Ha, Hb, Hd, RouterFacts.great_circle_one_degree. simpl.
  pose proof PI2_3_2. lra.
Qed.

(** C3, amended: [distance_to] returns the fallback 10 when either latitude
    is zero (whatever the longitudes), and otherwise the great-circle
    distance of the haversine formula with radius 6371 km on the coordinates
    converted from degrees to radians. *)
Theorem distance_contract (a b : Router.Location) :
  Router.distance_to a b
  = if Reqb (Router.loc_lat a) 0 || Reqb (Router.loc_lat b) 0
    then 10%R
    else RouterSpec.great_circle_km a b.
Proof.
  destruct (Reqb (Router.loc_lat a) 0) eqn:Ea.
  { apply RouterFacts.distance_to_unset. left. now apply Reqb_true. }
  destruct (Reqb (Router.loc_lat b) 0) eqn:Eb.
  { apply RouterFacts.distance_to_unset. right. now apply Reqb_true. }
  apply RouterFacts.distance_to_set; now apply Reqb_false.
Qed.

(** ** C9 *)

(** C9 as stated fails for a location without coordinates: its distance to
    itself is the fallback 10, not 0. *)
Lemma distance_identities_counterexample :
  Router.distance_to Examples.nowhere Examples.nowhere <> 0%R.
Proof.
  rewrite RouterFacts.distance_to_unset by now left. lra.
Qed.

(** C9, amended: [distance_to] is symmetric for every pair of locations; the
    distance from a location to itself is 0 when its latitude is not zero,
    and the fallback 10 when it is. *)
Theorem distance_identities (a b : Router.Location) :
  Router.distance_to a b = Router.distance_to b a
  /\ (Router.loc_lat a <> 0%R -> Router.distance_to a a = 0%R)
  /\ (Router.loc_lat a = 0%R -> Router.distance_to a a = 10%R).
Proof.
  split; [apply RouterFacts.distance_to_sym|].
  split; [apply RouterFacts.distance_to_self|].
  intros H. apply RouterFacts.distance_to_unset. now left.
Qed.

Lemma distance_identities_witness :
  Router.loc_lat Router.DEPOT <> 0%R
  /\ Router.distance_to Router.DEPOT Router.DEPOT = 0%R.
Proof.
  assert (H : Router.loc_lat Router.DEPOT <> 0%R) by (simpl; lra).
  split; [exact H|].
  exact (proj1 (proj2 (distance_identities Router.DEPOT Router.DEPOT)) H).
Defined.

(** ** C4 *)

Lemma courier_route_value :
  Examples.courier_route
  = {| Router.route_vehicle_id := "X1";
       Router.stops := [Examples.parcel];
       Router.total_distance_km := 0 + 10 + 10;
       Router.total_weight_kg := 0 + 100;
       Router.total_pallets := 1;
       Router.estimated_time_hours := (0 + 10 + 10) / 40 + 1 * 15 / 60 |}%R.
Proof.
  unfold Examples.courier_route.
  rewrite RouterFacts.nearest_neighbor_single by (simpl; (lra || lia)).
  rewrite !RouterFacts.distance_to_unset by (simpl; auto).
  reflexivity.
Qed.

(** C4 as stated fails for a router built with a fleet of its own: the route
    of vehicle X1 (200 per km, 15000 per hour, 50000 fixed) runs 20 km in
    0.75 h with one stop, which the formula prices at 65250, and [cost]
    returns 0. *)
Lemma cost_model_counterexample :
  Router.stops Examples.courier_route = [Examples.parcel]
  /\ RouterSpec.cost_with Examples.courier Examples.courier_route = 65250%R
  /\ Router.cost Examples.courier_route = 0%R
  /\ Router.cost Examples.courier_route
     <> RouterSpec.cost_with Examples.courier Examples.courier_route.
Proof.
  assert (H1 : RouterSpec.cost_with Examples.courier Examples.courier_route
               = 65250%R).
  { rewrite courier_route_value. unfold RouterSpec.cost_with. simpl. lra. }
  assert (H2 : Router.cost Examples.courier_route = 0%R).
  { rewrite courier_route_value. reflexivity. }
  split; [now rewrite courier_route_value|].
  split; [exact H1|]. split; [exact H2|].
  rewrite H1, H2. lra.
Qed.

(** C4, amended: when the route's vehicle id is a key of the default
    [VEHICLES] table, and [v] is the vehicle filed there, the cost is
    distance times [v]'s cost per km, plus time times [v]'s hourly rate,
    plus [v]'s fixed cost if the route has a stop; the cost depends only on
    the id, the distance, the time and whether there is a stop; for a
    router built with the default fleet, [v] is the vehicle the route was
    built for; and a route whose id is not a key of the table costs 0. *)
Theorem cost_model (r r' : Router.Route) (v : Router.Vehicle) :
  Router.dict_get Router.VEHICLES (Router.route_vehicle_id r) = Some v ->
  (Router.cost r
   = Router.total_distance_km r * Router.cost_per_km v
     + Router.estimated_time_hours r * Router.hourly_rate v
     + match Router.stops r with
       | [] => 0
       | _ :: _ => Router.fixed_cost v
       end)%R
  /\ (Router.route_vehicle_id r' = Router.route_vehicle_id r ->
      Router.total_distance_km r' = Router.total_distance_km r ->
      Router.estimated_time_hours r' = Router.estimated_time_hours r ->
      (Router.stops r' = [] <-> Router.stops r = []) ->
      Router.cost r' = Router.cost r)
  /\ (forall depot0 pool key v0,
        In (key, v0) (Router.vehicles (Router.init depot0 None)) ->
        Router.cost (Router.nearest_neighbor (Router.init depot0 None) pool v0)
        = RouterSpec.cost_with v0
            (Router.nearest_neighbor (Router.init depot0 None) pool v0))
  /\ (Router.dict_get Router.VEHICLES (Router.route_vehicle_id r') = None ->
      Router.cost r' = 0%R).
Proof.
  intros Hv. split; [now apply RouterFacts.cost_known|].
  split; [|split; [|apply RouterFacts.cost_unknown]].
  - intros Hid Hkm Hh Hstops.
    rewrite (RouterFacts.cost_known r v Hv).
    rewrite (RouterFacts.cost_known r' v) by now rewrite Hid.
    unfold RouterSpec.cost_with. rewrite Hkm, Hh.
    destruct (Router.stops r) as [|s l], (Router.stops r') as [|s' l'];
      try reflexivity.
    + destruct Hstops as [_ H]. now specialize (H eq_refl).
    + destruct Hstops as [H _]. now specialize (H eq_refl).
  - intros depot0 pool key v0 Hin. apply RouterFacts.cost_known.
    rewrite RouterFacts.nearest_neighbor_vehicle_id.
    now apply RouterFacts.default_fleet_lookup with key.
Qed.

Lemma cost_model_witness :
  Router.dict_get Router.VEHICLES
    (Router.route_vehicle_id
       (Router.nearest_neighbor Examples.demo_router [Examples.parcel]
          Examples.V1))
  = Some Examples.V1
  /\ Router.cost
       (Router.nearest_neighbor Examples.demo_router [Examples.parcel]
          Examples.V1)
     = RouterSpec.cost_with Examples.V1
         (Router.nearest_neighbor Examples.demo_router [Examples.parcel]
            Examples.V1).
Proof.
  assert (H : Router.dict_get Router.VEHICLES
                (Router.route_vehicle_id
                   (Router.nearest_neighbor Examples.demo_router
                      [Examples.parcel] Examples.V1))
              = Some Examples.V1).
  { rewrite RouterFacts.nearest_neighbor_vehicle_id. reflexivity. }
  split; [exact H|].
  exact (proj1 (cost_model _
                  (Router.nearest_neighbor Examples.demo_router
                     [Examples.parcel] Examples.V1)
                  Examples.V1 H)).
Defined.

(** ** C10 *)

(** C10: [Route.cost] finds its vehicle by the route's id in the default
    [VEHICLES] table and nowhere else; so whatever fleet the router was built
    with, a route whose id is not a key of that table costs 0, whatever its
    distance, time and stops. *)
Theorem cost_ignores_custom_fleet
  (self : Router.DeliveryRouter) (pool : list Router.Shipment)
  (v : Router.Vehicle) (r : Router.Route) :
  (Router.dict_get Router.VEHICLES (Router.route_vehicle_id r) = None ->
   Router.cost r = 0%R)
  /\ (Router.dict_get Router.VEHICLES (Router.vehicle_id v) = None ->
      Router.cost (Router.nearest_neighbor self pool v) = 0%R)
  /\ (forall v0,
        Router.dict_get Router.VEHICLES (Router.route_vehicle_id r) = Some v0 ->
        Router.cost r = RouterSpec.cost_with v0 r).
Proof.
  split; [apply RouterFacts.cost_unknown|]. split.
  - intros H. apply RouterFacts.cost_unknown.
    now rewrite RouterFacts.nearest_neighbor_vehicle_id.
  - apply RouterFacts.cost_known.
Qed.

Lemma cost_ignores_custom_fleet_witness :
  Router.dict_get Router.VEHICLES (Router.vehicle_id Examples.courier) = None
  /\ Router.cost
       (Router.nearest_neighbor Examples.courier_router [Examples.parcel]
          Examples.courier)
     = 0%R.
Proof.
  assert (H : Router.dict_get Router.VEHICLES
                (Router.vehicle_id Examples.courier) = None)
    by reflexivity.
  split; [exact H|].
  exact (proj1 (proj2 (cost_ignores_custom_fleet Examples.courier_router
                         [Examples.parcel] Examples.courier Examples.courier_route))
               H).
Defined.

(** ** C8 *)

(** C8: [nearest_neighbor] walks from the depot, at each step going to the
    first shipment at minimal distance among the remaining ones that fit
    (shipments in front of it are strictly farther, those behind it are not
    nearer), until none fits; and a route with a stop gets the leg back to
    the depot added to its distance, and
    [total_distance_km / 40 + stop_count * 15 / 60] as its time. *)
Theorem nearest_neighbor_semantics
  (self : Router.DeliveryRouter) (pool : list Router.Shipment)
  (v : Router.Vehicle) :
  exists w,
    RouterSpec.nearest_walk v (Router.start (Router.depot self) pool v) w
    /\ Router.nearest_neighbor self pool v = Router.finish (Router.depot self) w
    /\ (Router.stops (Router.nearest_neighbor self pool v) <> [] ->
        let r := Router.nearest_neighbor self pool v in
        (Router.total_distance_km r
         = Router.total_distance_km (Router.route w)
           + Router.distance_to (Router.current_location w)
               (Router.depot self))%R
        /\ (Router.total_distance_km r
            = RouterSpec.path_km (Router.depot self) (Router.stops r)
              + Router.distance_to
                  (RouterSpec.end_of (Router.depot self) (Router.stops r))
                  (Router.depot self))%R
        /\ (Router.estimated_time_hours r
            = Router.total_distance_km r / 40
              + INR (length (Router.stops r)) * 15 / 60)%R).
Proof.
  destruct (RouterFacts.nearest_neighbor_runs self pool v) as (w & Hruns & Heq).
  exists w. split; [now apply RouterFacts.runs_nearest_walk|].
  split; [exact Heq|].
  rewrite Heq, RouterFacts.finish_stops. intros Hstops. cbv zeta.
  destruct (RouterFacts.finish_totals (Router.depot self) w Hstops)
    as [Hkm Htime].
  split; [exact Hkm|]. split; [|exact Htime].
  rewrite Hkm, RouterFacts.finish_stops.
  destruct (RouterFacts.runs_on_path (Router.depot self) v _ _ Hruns)
    as [Hpath Hcur]; [now split|].
  now rewrite Hpath, Hcur.
Qed.

Lemma nearest_neighbor_semantics_witness :
  Router.stops
    (Router.nearest_neighbor Examples.demo_router [Examples.parcel]
       Examples.V1) <> []
  /\ (Router.estimated_time_hours
        (Router.nearest_neighbor Examples.demo_router [Examples.parcel]
           Examples.V1)
      = Router.total_distance_km
          (Router.nearest_neighbor Examples.demo_router [Examples.parcel]
             Examples.V1) / 40
        + INR (length
                 (Router.stops
                    (Router.nearest_neighbor Examples.demo_router
                       [Examples.parcel] Examples.V1))) * 15 / 60)%R.
Proof.
  assert (H : Router.stops
                (Router.nearest_neighbor Examples.demo_router
                   [Examples.parcel] Examples.V1) <> []).
  { rewrite RouterFacts.nearest_neighbor_single by (simpl; (lra || lia)).
    discriminate. }
  split; [exact H|].
  destruct (nearest_neighbor_semantics Examples.demo_router [Examples.parcel]
              Examples.V1) as (w & _ & _ & Hfin).
  exact (proj2 (proj2 (Hfin H))).
Defined.

(** ** C5 *)

(** C5 as stated fails for an order that does not fit the work day: 100 rolls
    of width 500 have machines M1 and M2 free, yet take 55.6 hours on M1, so
    the order is left unscheduled and no slot is committed. *)
Lemma machine_selection_counterexample :
  (exists m t,
      In m (Scheduler.get_compatible_machines
              (Examples.scheduler_with [Examples.bulk_order])
              Examples.bulk_order)
      /\ SchedulerSpec.candidate
           (Scheduler.initial_states
              (Examples.scheduler_with [Examples.bulk_order]) 0%Q)
           Examples.bulk_order m t)
  /\ Scheduler.create_schedule
       (Examples.scheduler_with [Examples.bulk_order]) 0%Q
     = inr {| Scheduler.date := 0%Q;
              Scheduler.slots := [];
              Scheduler.unscheduled_orders := [Examples.bulk_order] |}.
Proof.
  split; [|vm_compute; reflexivity].
  exists (Scheduler.mkMachine "M1" "1호기" 400 600), 10%Z.
  split; [left; reflexivity|].
  eexists. split; [vm_compute; reflexivity|].
  split; vm_compute; reflexivity.
Qed.

(** C5, amended: an order with at least one width-compatible machine below
    its item limit gets one machine selected, the first among those of least
    setup time from the machine's colour to the order's.  If that machine's
    speed is not zero and the order's metres convert to a [float],
    production takes [quantity_rolls * 1000 / speed / 60] hours, the slot
    starts at the machine's cursor plus the setup time and ends a production
    time later; when both times are in the range of [datetime], the order is
    committed to that slot if the end is within the work day, and is left
    unscheduled if the end is past it. *)
Theorem machine_selection_and_timing
  (self : Scheduler.ProductionScheduler) (target_date : Py.datetime)
  (p : Scheduler.progress) (order : Scheduler.Order) :
  SchedulerSpec.covered self (Scheduler.machine_states p) ->
  (exists m t,
      In m (Scheduler.get_compatible_machines self order)
      /\ SchedulerSpec.candidate (Scheduler.machine_states p) order m t) ->
  exists m t st,
    SchedulerSpec.first_cheapest (Scheduler.machine_states p) order m t
      (Scheduler.get_compatible_machines self order)
    /\ Scheduler.machine_states p !! Scheduler.machine_id m = Some st
    /\ (~ (Scheduler.speed_m_per_min m == 0)%Q ->
        Py.float_fits (Scheduler.quantity_rolls order * 1000) = true ->
        let production_time :=
          (inject_Z (Scheduler.quantity_rolls order * 1000)
           / Scheduler.speed_m_per_min m / 60)%Q in
        let slot := SchedulerSpec.slot_for order m t st production_time in
        Scheduler.estimate_production_time order m = inr production_time
        /\ Scheduler.slot_machine_id slot = Scheduler.machine_id m
        /\ Scheduler.orders slot = [order]
        /\ Scheduler.start_time slot
           = (Scheduler.current_time st + Py.timedelta_minutes t)%Q
        /\ Scheduler.end_time slot
           = (Scheduler.start_time slot + production_time)%Q
        /\ (Py.in_range (Scheduler.start_time slot) = true ->
            Py.in_range (Scheduler.end_time slot) = true ->
            ((Scheduler.end_time slot
              <= SchedulerSpec.work_end target_date)%Q ->
             Scheduler.place self target_date p order
             = inr (SchedulerSpec.commit p slot
                      (SchedulerSpec.state_after order t st
                         production_time)))
            /\ ((SchedulerSpec.work_end target_date
                 < Scheduler.end_time slot)%Q ->
                Scheduler.place self target_date p order
                = inr (SchedulerSpec.skip p order)))).
Proof.
  intros Hcov Hex.
  destruct (SchedulerFacts.some_selected self _ order Hcov Hex)
    as (m & t & st & Hbest & Hst).
  exists m, t, st. split; [exact Hbest|]. split; [exact Hst|].
  intros Hspeed Hfit. cbv zeta.
  split; [now apply SchedulerFacts.estimate_production_time_ok|].
  repeat (split; [reflexivity|]).
  intros Hstart Hend.
  apply (SchedulerFacts.place_selected self target_date p order m t st);
    try assumption.
  destruct (SchedulerFacts.first_cheapest_In _ _ _ _ _ Hbest)
    as [_ (st' & _ & _ & Ht)].
  subst t. now apply SchedulerFacts.on_calendar_of_range.
Qed.

Lemma machine_selection_and_timing_witness :
  exists m t st,
    SchedulerSpec.first_cheapest
      (Scheduler.machine_states
         (SchedulerSpec.opening Examples.demo_scheduler 0%Q))
      (Examples.mkOrder "ORD-004" "PE-FILM-800" 800 6 24 "CLEAR" 3) m t
      (Scheduler.get_compatible_machines Examples.demo_scheduler
         (Examples.mkOrder "ORD-004" "PE-FILM-800" 800 6 24 "CLEAR" 3))
    /\ Scheduler.machine_states
         (SchedulerSpec.opening Examples.demo_scheduler 0%Q)
       !! Scheduler.machine_id m = Some st.
Proof.
  destruct (machine_selection_and_timing Examples.demo_scheduler 0%Q
              (SchedulerSpec.opening Examples.demo_scheduler 0%Q)
              (Examples.mkOrder "ORD-004" "PE-FILM-800" 800 6 24 "CLEAR" 3))
    as (m & t & st & Hbest & Hst & _).
  - apply SchedulerFacts.opening_covered.
  - exists (Scheduler.mkMachine "M2" "2호기" 500 800), 10%Z.
    split; [left; reflexivity|].
    eexists. split; [vm_compute; reflexivity|].
    split; vm_compute; reflexivity.
  - exists m, t, st. split; [exact Hbest | exact Hst].
Defined.

(** ** C6 *)

(** C6 as stated fails on the cursor: an order with a negative quantity has
    a negative production time, so its slot ends before it starts and the
    machine's cursor moves back; the next slot of that machine then starts
    before the first one started. *)
Lemma slot_order_counterexample :
  exists s s1 s2,
    Scheduler.create_schedule
      (Examples.scheduler_with [Examples.negative_order; Examples.next_order])
      0%Q = inr s
    /\ SchedulerSpec.slots_of "M1" (Scheduler.slots s) !! 0%nat = Some s1
    /\ SchedulerSpec.slots_of "M1" (Scheduler.slots s) !! 1%nat = Some s2
    /\ (Scheduler.end_time s1 < Scheduler.start_time s1)%Q
    /\ (Scheduler.start_time s2 < Scheduler.start_time s1)%Q.
Proof.
  eexists. eexists. eexists.
  split; [vm_compute; reflexivity|].
  split; [vm_compute; reflexivity|].
  split; [vm_compute; reflexivity|].
  split; reflexivity.
Qed.

(** C6, amended: in every schedule [create_schedule] returns, the slots of
    any one machine, in assignment order, each end before the next one
    starts (strictly, since setup times are positive), and no slot ends
    after 20:00 of the target date.  When no order has a negative quantity
    and every machine has a positive speed, each slot moreover starts after
    08:00 and does not end before it starts, so neighbouring slots of a
    machine do not overlap and its cursor only advances. *)
Theorem slot_order_and_window
  (self : Scheduler.ProductionScheduler) (target_date : Py.datetime)
  (s : Scheduler.Schedule) :
  Scheduler.create_schedule self target_date = inr s ->
  (forall id (i : nat) s1 s2,
      SchedulerSpec.slots_of id (Scheduler.slots s) !! i = Some s1 ->
      SchedulerSpec.slots_of id (Scheduler.slots s) !! S i = Some s2 ->
      (Scheduler.end_time s1 <= Scheduler.start_time s2)%Q
      /\ (Scheduler.end_time s1 < Scheduler.start_time s2)%Q)
  /\ (forall slot,
        In slot (Scheduler.slots s) ->
        (Scheduler.end_time slot
         <= Py.combine_hour target_date Scheduler.WORK_END_HOUR)%Q)
  /\ ((forall o, In o (Scheduler.sched_orders self) ->
                 (0 <= Scheduler.quantity_rolls o)%Z) ->
      (forall m, In m (Scheduler.machines self) ->
                 (0 < Scheduler.speed_m_per_min m)%Q) ->
      (forall slot,
          In slot (Scheduler.slots s) ->
          (Py.combine_hour target_date Scheduler.WORK_START_HOUR
           < Scheduler.start_time slot)%Q
          /\ (Scheduler.start_time slot <= Scheduler.end_time slot)%Q)
      /\ (forall id (i : nat) s1 s2,
            SchedulerSpec.slots_of id (Scheduler.slots s) !! i = Some s1 ->
            SchedulerSpec.slots_of id (Scheduler.slots s) !! S i = Some s2 ->
            (Scheduler.start_time s1 <= Scheduler.end_time s1)%Q
            /\ (Scheduler.end_time s1 < Scheduler.start_time s2)%Q
            /\ (Scheduler.start_time s2 <= Scheduler.end_time s2)%Q)).
Proof.
  intros Hs.
  pose proof (SchedulerFacts.create_schedule_progress self target_date s Hs)
    as (p & Heq & _ & [Hwin Hord Hcur] & _).
  rewrite <- Heq in Hwin, Hord.
  split; [|split; [exact Hwin|]].
  { intros id i s1 s2 H1 H2.
    pose proof (Hord id i s1 s2 H1 H2) as Hlt.
    split; [now apply Qlt_le_weak | exact Hlt]. }
  intros Hq Hspeed.
  destruct (SchedulerFacts.create_schedule_punctual self target_date s
              Hq Hspeed Hs) as (p' & Heq' & [_ Hpunct]).
  rewrite <- Heq' in Hpunct.
  split; [exact Hpunct|].
  intros id i s1 s2 H1 H2.
  assert (Hin : forall (j : nat) x,
             SchedulerSpec.slots_of id (Scheduler.slots s) !! j = Some x ->
             In x (Scheduler.slots s)).
  { intros j x Hx. apply list_elem_of_lookup_2, list_elem_of_In in Hx.
    unfold SchedulerSpec.slots_of in Hx. now apply filter_In in Hx as [Hx _]. }
  split; [apply (Hpunct s1 (Hin _ _ H1))|].
  split; [apply (Hord id i s1 s2 H1 H2)|].
  apply (Hpunct s2 (Hin _ _ H2)).
Qed.

Lemma slot_order_and_window_witness :
  exists s,
    Scheduler.create_schedule Examples.demo_scheduler 0%Q = inr s
    /\ (forall slot,
          In slot (Scheduler.slots s) ->
          (Scheduler.end_time slot
           <= Py.combine_hour 0 Scheduler.WORK_END_HOUR)%Q)
    /\ forall id (i : nat) s1 s2,
         SchedulerSpec.slots_of id (Scheduler.slots s) !! i = Some s1 ->
         SchedulerSpec.slots_of id (Scheduler.slots s) !! S i = Some s2 ->
         (Scheduler.end_time s1 < Scheduler.start_time s2)%Q.
Proof.
  eexists. split; [vm_compute; reflexivity|].
  pose proof (fun s => slot_order_and_window Examples.demo_scheduler 0%Q s)
    as F.
  edestruct F as (Hord & Hwin & _); [vm_compute; reflexivity|].
  split; [exact Hwin|].
  intros id i s1 s2 H1 H2. exact (proj2 (Hord id i s1 s2 H1 H2)).
Defined.

(** The sample run: five slots, M1 and M2 each used twice in sequence. *)
Example demo_schedule_slots :
  exists s,
    Scheduler.create_schedule Examples.demo_scheduler 0%Q = inr s
    /\ map (fun slot => (Scheduler.slot_machine_id slot,
                         map Scheduler.order_id (Scheduler.orders slot),
                         Qred (Scheduler.start_time slot),
                         Qred (Scheduler.end_time slot)))
           (Scheduler.slots s)
       = [ ("M2", ["ORD-004"], 49 # 6, 23 # 2);
           ("M1", ["ORD-001"], 49 # 6, 247 # 18);
           ("M1", ["ORD-002"], 125 # 9, 55 # 3);
           ("M3", ["ORD-005"], 49 # 6, 187 # 18);
           ("M2", ["ORD-007"], 35 # 3, 130 # 9) ]%Q
    /\ map Scheduler.order_id (Scheduler.unscheduled_orders s)
       = ["ORD-006"; "ORD-008"; "ORD-003"].
Proof. eexists. split; [vm_compute; reflexivity|]. split; reflexivity. Qed.

(** ** C7 *)

(** C7 as stated fails on the reason tag: an order no machine is wide enough
    for and an order too long for the work day are unscheduled for different
    causes, and the JSON report gives both the same reason,
    [capacity_exceeded]; the schedule itself records no reason. *)
Lemma reason_tag_counterexample :
  Scheduler.judge (Examples.scheduler_with [Examples.wide_order]) 0%Q
    (Scheduler.initial_states
       (Examples.scheduler_with [Examples.wide_order]) 0%Q)
    Examples.wide_order
  = inr (Scheduler.unscheduled Scheduler.no_compatible_machine)
  /\ Scheduler.judge (Examples.scheduler_with [Examples.bulk_order]) 0%Q
       (Scheduler.initial_states
          (Examples.scheduler_with [Examples.bulk_order]) 0%Q)
       Examples.bulk_order
     = inr (Scheduler.unscheduled Scheduler.work_window_exceeded)
  /\ exists s1 s2,
       Scheduler.create_schedule
         (Examples.scheduler_with [Examples.wide_order]) 0%Q = inr s1
       /\ Scheduler.create_schedule
            (Examples.scheduler_with [Examples.bulk_order]) 0%Q = inr s2
       /\ map Scheduler.reason (Scheduler.format_unscheduled_json s1)
          = ["capacity_exceeded"]
       /\ map Scheduler.reason (Scheduler.format_unscheduled_json s2)
          = ["capacity_exceeded"].
Proof.
  split; [vm_compute; reflexivity|].
  split; [vm_compute; reflexivity|].
  eexists. eexists.
  split; [vm_compute; reflexivity|].
  split; [vm_compute; reflexivity|].
  split; reflexivity.
Qed.

(** C7, amended: an order with no width-compatible available machine, or
    whose compatible machines are all at their item limit, or whose slot on
    the selected machine (of non-zero speed, the order's metres converting
    to a [float]) has times in the range of [datetime] and an end past the
    work-day end, raises no error and is appended to [unscheduled_orders],
    everything else staying as it was.  No cause is recorded: the JSON report gives every
    unscheduled order the one reason [capacity_exceeded].  With the machine
    ranges [400,600], [500,800], [700,1200], an order of width 650 is
    compatible with the second machine only, and is unscheduled when that
    machine already holds its four orders. *)
Theorem shortfalls_do_not_raise
  (self : Scheduler.ProductionScheduler) (target_date : Py.datetime)
  (p : Scheduler.progress) (order : Scheduler.Order) :
  SchedulerSpec.covered self (Scheduler.machine_states p) ->
  (Scheduler.get_compatible_machines self order = [] ->
   Scheduler.place self target_date p order
   = inr (SchedulerSpec.skip p order))
  /\ ((forall m t,
         In m (Scheduler.get_compatible_machines self order) ->
         ~ SchedulerSpec.candidate (Scheduler.machine_states p) order m t) ->
      Scheduler.place self target_date p order
      = inr (SchedulerSpec.skip p order))
  /\ (forall m t st,
        SchedulerSpec.first_cheapest (Scheduler.machine_states p) order m t
          (Scheduler.get_compatible_machines self order) ->
        Scheduler.machine_states p !! Scheduler.machine_id m = Some st ->
        ~ (Scheduler.speed_m_per_min m == 0)%Q ->
        Py.float_fits (Scheduler.quantity_rolls order * 1000) = true ->
        let slot := SchedulerSpec.slot_for order m t st
                      (SchedulerSpec.production_hours order m) in
        Py.in_range (Scheduler.start_time slot) = true ->
        Py.in_range (Scheduler.end_time slot) = true ->
        (SchedulerSpec.work_end target_date < Scheduler.end_time slot)%Q ->
        Scheduler.place self target_date p order
        = inr (SchedulerSpec.skip p order))
  /\ (Scheduler.machine_states (SchedulerSpec.skip p order)
      = Scheduler.machine_states p
      /\ Scheduler.slots (Scheduler.schedule (SchedulerSpec.skip p order))
         = Scheduler.slots (Scheduler.schedule p)
      /\ Scheduler.unscheduled_orders
           (Scheduler.schedule (SchedulerSpec.skip p order))
         = Scheduler.unscheduled_orders (Scheduler.schedule p) ++ [order])
  /\ (forall s e,
        In e (Scheduler.format_unscheduled_json s) ->
        Scheduler.reason e = "capacity_exceeded")
  /\ (Scheduler.machines self = Scheduler.MACHINES ->
      Scheduler.width_mm order = 650%Z ->
      Scheduler.get_compatible_machines self order
      = [Scheduler.mkMachine "M2" "2호기" 500 800]
      /\ forall st,
           Scheduler.machine_states p !! "M2" = Some st ->
           (4 <= length (Scheduler.orders_today st))%nat ->
           Scheduler.place self target_date p order
           = inr (SchedulerSpec.skip p order)).
Proof.
  intros Hcov.
  assert (Hnone :
            (forall m t,
                In m (Scheduler.get_compatible_machines self order) ->
                ~ SchedulerSpec.candidate (Scheduler.machine_states p)
                    order m t) ->
            Scheduler.place self target_date p order
            = inr (SchedulerSpec.skip p order))
    by now apply SchedulerFacts.place_none_selected.
  split.
  { intros Hcompat. apply Hnone. rewrite Hcompat. intros m t []. }
  split; [exact Hnone|]. split.
  { intros m t st Hbest Hst Hspeed Hfit slot Hstart Hstop Hend.
    apply (SchedulerFacts.place_selected self target_date p order m t st);
      try assumption.
    destruct (SchedulerFacts.first_cheapest_In _ _ _ _ _ Hbest)
      as [_ (st' & _ & _ & Ht)].
    subst t. now apply SchedulerFacts.on_calendar_of_range. }
  split; [now repeat split|]. split.
  { intros s e Hin. unfold Scheduler.format_unscheduled_json in Hin.
    apply in_map_iff in Hin as (o & <- & _). reflexivity. }
  intros Hm Hw.
  assert (Hcompat : Scheduler.get_compatible_machines self order
                    = [Scheduler.mkMachine "M2" "2호기" 500 800]).
  { unfold Scheduler.get_compatible_machines. rewrite Hm, Hw. reflexivity. }
  split; [exact Hcompat|].
  intros st Hst Hfull. apply Hnone. rewrite Hcompat.
  intros m t [<-|[]] (st' & Hst' & Hbelow & _).
  simpl in Hst'. assert (st' = st) by congruence. subst st'.
  unfold SchedulerSpec.below_limit in Hbelow. simpl in Hbelow.
  apply negb_true_iff, Z.leb_gt in Hbelow. lia.
Qed.

Lemma shortfalls_do_not_raise_witness :
  SchedulerSpec.covered (Examples.scheduler_with [Examples.wide_order])
    (Scheduler.machine_states
       (SchedulerSpec.opening
          (Examples.scheduler_with [Examples.wide_order]) 0%Q))
  /\ Scheduler.get_compatible_machines
       (Examples.scheduler_with [Examples.wide_order]) Examples.wide_order
     = []
  /\ Scheduler.place (Examples.scheduler_with [Examples.wide_order]) 0%Q
       (SchedulerSpec.opening
          (Examples.scheduler_with [Examples.wide_order]) 0%Q)
       Examples.wide_order
     = inr (SchedulerSpec.skip
              (SchedulerSpec.opening
                 (Examples.scheduler_with [Examples.wide_order]) 0%Q)
              Examples.wide_order).
Proof.
  assert (Hcov := SchedulerFacts.opening_covered
                    (Examples.scheduler_with [Examples.wide_order]) 0%Q).
  assert (Hcompat : Scheduler.get_compatible_machines
                      (Examples.scheduler_with [Examples.wide_order])
                      Examples.wide_order = []) by reflexivity.
  split; [exact Hcov|]. split; [exact Hcompat|].
  exact (proj1 (shortfalls_do_not_raise _ 0%Q _ Examples.wide_order Hcov)
               Hcompat).
Defined.

(** The scenario run on the default machines: of five orders of width 650,
    four fill the second machine and the fifth is unscheduled. *)
Example width_650_scenario :
  exists s,
    Scheduler.create_schedule
      (Examples.scheduler_with
         [ Examples.mkOrder "ORD-301" "PE-FILM-650" 650 1 24 "CLEAR" 1;
           Examples.mkOrder "ORD-302" "PE-FILM-650" 650 1 24 "CLEAR" 1;
           Examples.mkOrder "ORD-303" "PE-FILM-650" 650 1 24 "CLEAR" 1;
           Examples.mkOrder "ORD-304" "PE-FILM-650" 650 1 24 "CLEAR" 1;
           Examples.mkOrder "ORD-305" "PE-FILM-650" 650 1 24 "CLEAR" 1 ])
      0%Q = inr s
    /\ map Scheduler.slot_machine_id (Scheduler.slots s)
       = ["M2"; "M2"; "M2"; "M2"]
    /\ map Scheduler.order_id (Scheduler.unscheduled_orders s) = ["ORD-305"].
Proof. eexists. split; [vm_compute; reflexivity|]. split; reflexivity. Qed.

(** ** The routing scenario of the specification *)

(** One vehicle of 5000 kg and 10 pallets, no coordinates anywhere, three
    shipments of 2000 kg: two are routed (4000 kg), one is unassigned, the
    three legs of 10 km make 30 km, and the route costs
    30 * 200 + 1.25 * 15000 + 50000. *)
Example capacity_scenario :
  exists r,
    Router.routes (Router.create_plan Examples.one_truck 0%Q) = [r]
    /\ Router.unassigned (Router.create_plan Examples.one_truck 0%Q)
       = [Examples.crate "C"]
    /\ Router.stops r = [Examples.crate "A"; Examples.crate "B"]
    /\ Router.total_weight_kg r = 4000%R
    /\ Router.total_distance_km r = 30%R
    /\ Router.estimated_time_hours r = 1.25%R
    /\ Router.cost r = 74750%R.
Proof.
  eexists. unfold Router.create_plan.
  assert (Hs : Py.sorted Router.shipment_before
                 (Router.shipments Examples.one_truck)
               = [Examples.crate "A"; Examples.crate "B"; Examples.crate "C"]).
  { assert (H : forall s t,
               Router.shipment_before (Examples.crate s) (Examples.crate t)
               = false).
    { intros s t. unfold Router.shipment_before.
      replace (Router.window_rank (Examples.crate s)
               =? Router.window_rank (Examples.crate t))%Z
        with true by reflexivity.
      apply Rltb_false. simpl. lra. }
    cbn [Router.shipments Examples.one_truck Router.add_shipments Router.init
         app Py.sorted].
    change (Py.insert_sorted Router.shipment_before (Examples.crate "C") [])
      with [Examples.crate "C"].
    now rewrite !insert_sorted_front by apply H. }
  rewrite Hs.
  assert (Hv : Py.sorted Router.larger_first
                 (Router.vehicles Examples.one_truck)
               = [("V1", Examples.V1)]) by reflexivity.
  rewrite Hv. cbn [fold_left]. unfold Router.dispatch. cbn [snd fst].
  replace (Router.available Examples.V1) with true by reflexivity.
  cbn [negb]. rewrite RouterFacts.scenario_route.
  cbn [Router.stops fold_left app Router.routes Router.unassigned fst snd].
  unfold Router.take_out.
  rewrite (proj2 (contains_In (Examples.crate "A") _)) by (simpl; auto).
  rewrite RouterFacts.remove_first_head.
  rewrite (proj2 (contains_In (Examples.crate "B") _)) by (simpl; auto).
  rewrite RouterFacts.remove_first_head.
  split; [reflexivity|]. split; [reflexivity|]. split; [reflexivity|].
  unfold Router.cost. simpl. repeat split; lra.
Qed.

(** * Further properties of the code *)

(** ** The delivery router *)

Section RouterProperties.
Local Open Scope R_scope.

(** X1, distance range: [Location.distance_to] is never negative and never
    more than half the circumference of a sphere of radius 6371 km, the
    fallback 10.0 included. *)
Theorem distance_to_range (a b : Router.Location) :
  0 <= Router.distance_to a b <= 6371 * PI.
Proof.
  split.
  - apply RouterFacts.distance_to_nonneg.
  - apply RouterFacts.distance_to_le_half_circumference.
Qed.

(** X2, distance matrix: [calculate_distance_matrix] has an entry for
    exactly the index pairs below [1 + number of shipments] (index 0 is the
    depot); the diagonal is 0, also for a location without coordinates, for
    which [distance_to] to itself is the fallback; off the diagonal the entry
    is [distance_to] of the two locations; and the matrix is symmetric. *)
Theorem distance_matrix_entries (self : Router.DeliveryRouter) (i j : nat) :
  let matrix := Router.calculate_distance_matrix self in
  let n := S (length (Router.shipments self)) in
  (is_Some (matrix !! (i, j)) <-> (i < n)%nat /\ (j < n)%nat)
  /\ ((i < n)%nat -> matrix !! (i, i) = Some 0)
  /\ (forall a b,
        i <> j ->
        RouterSpec.matrix_locations self !! i = Some a ->
        RouterSpec.matrix_locations self !! j = Some b ->
        matrix !! (i, j) = Some (Router.distance_to a b))
  /\ matrix !! (i, j) = matrix !! (j, i).
Proof.
  cbv zeta.
  assert (Hn : length (RouterSpec.matrix_locations self)
               = S (length (Router.shipments self))).
  { unfold RouterSpec.matrix_locations. simpl. now rewrite length_map. }
  rewrite !RouterFacts.calculate_distance_matrix_lookup.
  split; [|split; [|split]].
  - rewrite <- Hn, <- !lookup_lt_is_Some.
    destruct (RouterSpec.matrix_locations self !! i) as [a|];
      destruct (RouterSpec.matrix_locations self !! j) as [b|];
      (split; [intros H | intros [H1 H2]]);
      try (split; eauto); eauto;
      exfalso; eapply is_Some_None; eassumption.
  - intros Hi. rewrite <- Hn in Hi. apply lookup_lt_is_Some in Hi as [a Ha].
    rewrite Ha, Nat.eqb_refl. reflexivity.
  - intros a b Hne -> ->.
    apply Nat.eqb_neq in Hne. now rewrite Hne.
  - destruct (RouterSpec.matrix_locations self !! i) as [a|];
      destruct (RouterSpec.matrix_locations self !! j) as [b|];
      try reflexivity.
    rewrite (Nat.eqb_sym j i), (RouterFacts.distance_to_sym b a).
    reflexivity.
Qed.

(** X3, route totals: the weight and pallet totals of a route built by
    [nearest_neighbor] are the sums over its stops, added in visiting order
    from 0, and its distance and time are never negative. *)
Theorem route_totals_are_sums
  (self : Router.DeliveryRouter) (pool : list Router.Shipment)
  (v : Router.Vehicle) :
  let r := Router.nearest_neighbor self pool v in
  Router.total_weight_kg r = RouterSpec.weight_of (Router.stops r)
  /\ Router.total_pallets r = RouterSpec.pallets_of (Router.stops r)
  /\ 0 <= Router.total_distance_km r
  /\ 0 <= Router.estimated_time_hours r.
Proof.
  cbv zeta.
  destruct (RouterFacts.nearest_neighbor_totals self pool v) as [Hw Hp].
  destruct (RouterFacts.nearest_neighbor_nonneg self pool v) as [Hd Ht].
  now repeat split.
Qed.

(** X4, a route is filled up: [nearest_neighbor] stops only when nothing of
    the pool that is left could still be loaded; every shipment it leaves
    behind would exceed the weight or the pallet capacity on top of the
    route's totals. *)
Theorem route_is_filled_up
  (self : Router.DeliveryRouter) (pool : list Router.Shipment)
  (v : Router.Vehicle) :
  let r := Router.nearest_neighbor self pool v in
  exists rest,
    Permutation (Router.stops r ++ rest) pool
    /\ forall s,
         In s rest ->
         ~ (Router.total_weight_kg r + Router.weight_kg s
            <= Router.capacity_kg v
            /\ (Router.total_pallets r + Router.pallets s
                <= Router.capacity_pallets v)%Z).
Proof.
  cbv zeta.
  destruct (RouterFacts.nearest_neighbor_full self pool v)
    as (rest & Hperm & Hfull).
  exists rest. split; [exact Hperm|]. exact Hfull.
Qed.

(** X5, idle route: when no shipment of the pool fits the vehicle on its
    own, [nearest_neighbor] returns a route without stops whose distance,
    weight, pallets, time and cost are all 0: no return leg and no fixed cost
    are charged. *)
Theorem nothing_fits_idle_route
  (self : Router.DeliveryRouter) (pool : list Router.Shipment)
  (v : Router.Vehicle) :
  (forall s,
      In s pool ->
      ~ (Router.weight_kg s <= Router.capacity_kg v
         /\ (Router.pallets s <= Router.capacity_pallets v)%Z)) ->
  let r := Router.nearest_neighbor self pool v in
  Router.stops r = []
  /\ Router.total_distance_km r = 0
  /\ Router.total_weight_kg r = 0
  /\ Router.total_pallets r = 0%Z
  /\ Router.estimated_time_hours r = 0
  /\ Router.cost r = 0.
Proof.
  intros Hno. cbv zeta.
  pose proof (RouterFacts.nearest_neighbor_nothing_fits self pool v Hno)
    as Hstops.
  destruct (RouterFacts.nearest_neighbor_idle self pool v Hstops) as [Hd Ht].
  destruct (RouterFacts.nearest_neighbor_totals self pool v) as [Hw Hp].
  rewrite Hstops in Hw, Hp.
  split; [exact Hstops|]. split; [exact Hd|]. split; [exact Hw|].
  split; [exact Hp|]. split; [exact Ht|].
  unfold Router.cost.
  destruct (Router.dict_get Router.VEHICLES _) as [vehicle|]; [|reflexivity].
  cbv zeta. rewrite Hd, Ht, Hstops. lra.
Qed.

Lemma nothing_fits_idle_route_witness :
  Router.stops
    (Router.nearest_neighbor Examples.courier_router [Examples.crate "A"]
       Examples.courier) = []
  /\ Router.cost
       (Router.nearest_neighbor Examples.courier_router [Examples.crate "A"]
          Examples.courier) = 0.
Proof.
  assert (Hno : forall s,
             In s [Examples.crate "A"] ->
             ~ (Router.weight_kg s <= Router.capacity_kg Examples.courier
                /\ (Router.pallets s
                    <= Router.capacity_pallets Examples.courier)%Z)).
  { intros s [<-|[]] [Hw _]. simpl in Hw. lra. }
  destruct (nothing_fits_idle_route Examples.courier_router
              [Examples.crate "A"] Examples.courier Hno)
    as (Hs & _ & _ & _ & _ & Hc).
  split; [exact Hs | exact Hc].
Defined.

(** X6, what stays unassigned: the [unassigned] list of [create_plan] is a
    sublist of the shipments as sorted for the plan, so it keeps their order:
    an earlier time window first (AM, PM, then any other), and the heavier
    first within a window. *)
Theorem unassigned_keeps_sorted_order
  (self : Router.DeliveryRouter) (target_date : Py.datetime) :
  let plan := Router.create_plan self target_date in
  Router.unassigned plan
    `sublist_of` Py.sorted Router.shipment_before (Router.shipments self)
  /\ StronglySorted RouterSpec.goes_first (Router.unassigned plan).
Proof.
  cbv zeta.
  assert (Hsub : Router.unassigned (Router.create_plan self target_date)
                   `sublist_of`
                   Py.sorted Router.shipment_before (Router.shipments self)).
  { apply (RouterFacts.dispatch_all_pool_sublist self
             (Py.sorted Router.larger_first (Router.vehicles self))
             ([], Py.sorted Router.shipment_before (Router.shipments self))). }
  split; [exact Hsub|].
  eapply StronglySorted_sublist; [exact Hsub|].
  apply RouterFacts.sorted_shipments_goes_first.
Qed.

(** X7, routes follow the fleet: the routes of [create_plan] are built for
    available vehicles of the router's fleet, at most one route per fleet
    entry, in the order of the fleet sorted by descending weight capacity;
    each route carries its vehicle's id and has at least one stop. *)
Theorem routes_follow_fleet
  (self : Router.DeliveryRouter) (target_date : Py.datetime) :
  let plan := Router.create_plan self target_date in
  exists used,
    used `sublist_of` Py.sorted Router.larger_first (Router.vehicles self)
    /\ StronglySorted
         (fun x y => Router.capacity_kg (snd y) <= Router.capacity_kg (snd x))
         used
    /\ Forall (fun item => In item (Router.vehicles self)
                           /\ Router.available (snd item) = true) used
    /\ map Router.route_vehicle_id (Router.routes plan)
       = map (fun item => Router.vehicle_id (snd item)) used
    /\ Forall (fun r => Router.stops r <> []) (Router.routes plan)
    /\ (length (Router.routes plan) <= length (Router.vehicles self))%nat.
Proof.
  cbv zeta.
  destruct (RouterFacts.create_plan_routes self target_date)
    as (used & Hsub & Hav & Hbuilt & Hids).
  exists used. split; [exact Hsub|]. split.
  { eapply StronglySorted_sublist; [exact Hsub|].
    apply RouterFacts.sorted_fleet_descending. }
  split.
  { apply List.Forall_forall. intros item Hitem. split.
    - apply RouterFacts.sorted_fleet_In.
      apply list_elem_of_In. eapply elem_of_sublist; [|exact Hsub].
      now apply list_elem_of_In.
    - rewrite List.Forall_forall in Hav. now apply Hav. }
  split; [exact Hids|]. split.
  { eapply Forall_impl; [exact Hbuilt|].
    intros r (pool & key & v & _ & _ & _ & Hstops). exact Hstops. }
  apply (f_equal (@length _)) in Hids. rewrite !length_map in Hids.
  rewrite Hids. apply sublist_length in Hsub.
  rewrite <- (Permutation_length (sorted_perm Router.larger_first
                                    (Router.vehicles self))).
  exact Hsub.
Qed.

(** X8, no vehicle available: when every vehicle of the fleet is marked
    unavailable, [create_plan] builds no route and reports every shipment as
    unassigned, in sorted order. *)
Theorem no_vehicle_available
  (self : Router.DeliveryRouter) (target_date : Py.datetime) :
  (forall item, In item (Router.vehicles self) ->
                Router.available (snd item) = false) ->
  let plan := Router.create_plan self target_date in
  Router.routes plan = []
  /\ Router.unassigned plan
     = Py.sorted Router.shipment_before (Router.shipments self).
Proof.
  intros Hoff. cbv zeta. unfold Router.create_plan.
  assert (H : forall fleet st,
             (forall item, In item fleet ->
                           Router.available (snd item) = false) ->
             fold_left (Router.dispatch self) fleet st = st).
  { induction fleet as [|item fleet IH]; intros st Hfleet; [reflexivity|].
    simpl. rewrite <- (IH st) at 2 by (intros x Hx; apply Hfleet; now right).
    f_equal. unfold Router.dispatch.
    rewrite (Hfleet item) by now left.
    now destruct (snd st). }
  rewrite H; [now split|].
  intros item Hitem. apply Hoff. now apply RouterFacts.sorted_fleet_In.
Qed.

Lemma no_vehicle_available_witness :
  Router.routes (Router.create_plan Examples.parked_router 0%Q) = []
  /\ Router.unassigned (Router.create_plan Examples.parked_router 0%Q)
     = [Examples.parcel].
Proof.
  apply (no_vehicle_available Examples.parked_router 0%Q).
  intros item [<-|[]]. reflexivity.
Defined.

(** X9, nothing to deliver: with no shipments [create_plan] returns a plan
    without routes and without unassigned shipments, whatever the fleet;
    its total cost and total distance are 0. *)
Theorem nothing_to_deliver
  (self : Router.DeliveryRouter) (target_date : Py.datetime) :
  Router.shipments self = [] ->
  let plan := Router.create_plan self target_date in
  Router.routes plan = []
  /\ Router.unassigned plan = []
  /\ Router.total_cost plan = 0
  /\ Router.total_distance plan = 0.
Proof.
  intros Hnone. cbv zeta. unfold Router.create_plan. rewrite Hnone.
  assert (H : forall fleet routes,
             fold_left (Router.dispatch self) fleet (routes, [])
             = (routes, [])).
  { induction fleet as [|item fleet IH]; intros routes; [reflexivity|].
    simpl. apply IH. }
  cbn [Py.sorted]. rewrite H.
  unfold Router.total_cost, Router.total_distance. simpl. now repeat split.
Qed.

Lemma nothing_to_deliver_witness :
  Router.routes (Router.create_plan (Router.init None None) 0%Q) = []
  /\ Router.unassigned (Router.create_plan (Router.init None None) 0%Q) = [].
Proof.
  destruct (nothing_to_deliver (Router.init None None) 0%Q eq_refl)
    as (Hr & Hu & _).
  split; [exact Hr | exact Hu].
Defined.

(** X10, plan summary: for a plan of [create_plan], the summary's shipment
    count and unassigned count add up to the number of input shipments,
    [vehicles_used] is the number of routes, the reported distance is within
    0.05 km of the total distance, and the reported cost is the total cost
    with its fraction dropped, never negative. *)
Theorem plan_summary_accounting
  (self : Router.DeliveryRouter) (target_date : Py.datetime) :
  let plan := Router.create_plan self target_date in
  let report := Router.summary plan in
  (Router.summary_total_shipments report
   + Router.summary_unassigned_shipments report
   = Z.of_nat (length (Router.shipments self)))%Z
  /\ Router.summary_vehicles_used report
     = Z.of_nat (length (Router.routes plan))
  /\ Rabs (Router.summary_total_distance_km report
           - Router.total_distance plan) <= 1 / 20
  /\ (0 <= Router.summary_total_cost report)%Z
  /\ IZR (Router.summary_total_cost report) <= Router.total_cost plan
     < IZR (Router.summary_total_cost report) + 1.
Proof.
  cbv zeta.
  destruct (RouterFacts.create_plan_routes self target_date)
    as (used & _ & _ & Hbuilt & _).
  split; [|split; [|split]].
  - unfold Router.summary. cbn [Router.summary_total_shipments
                                  Router.summary_unassigned_shipments].
    rewrite RouterFacts.sum_stops.
    rewrite <- (Permutation_length
                  (RouterFacts.create_plan_keeps_shipments self target_date)).
    unfold RouterSpec.assigned. rewrite length_app. lia.
  - unfold Router.summary. cbn [Router.summary_vehicles_used].
    rewrite RouterFacts.filter_all; [reflexivity|].
    eapply Forall_impl; [exact Hbuilt|].
    intros r (pool & key & v & _ & _ & _ & Hstops).
    now destruct (Router.stops r).
  - apply RouterFacts.round1_close.
  - assert (Hcost : 0 <= Router.total_cost
                           (Router.create_plan self target_date)).
    { unfold Router.total_cost.
      pose proof (RouterFacts.fold_Rplus_ge 0
                    (map Router.cost
                       (Router.routes (Router.create_plan self target_date)))
                    0) as H.
      rewrite Rmult_0_r, Rplus_0_r in H. apply H.
      apply List.Forall_forall. intros c (r & <- & Hr)%in_map_iff.
      rewrite List.Forall_forall in Hbuilt.
      eapply RouterFacts.built_cost_nonneg, Hbuilt, Hr. }
    destruct (RouterFacts.int_of_float_nonneg _ Hcost) as [Hfloor Hpos].
    split; [exact Hpos | exact Hfloor].
Qed.

(** X11, cost floor: with the default fleet every route of [create_plan]
    costs at least the lowest fixed cost of the table, 50000, so the plan's
    total cost is at least 50000 times the number of routes. *)
Theorem plan_cost_floor
  (self : Router.DeliveryRouter) (target_date : Py.datetime) :
  Router.vehicles self = Router.VEHICLES ->
  let plan := Router.create_plan self target_date in
  Forall (fun r => 50000 <= Router.cost r) (Router.routes plan)
  /\ 50000 * INR (length (Router.routes plan)) <= Router.total_cost plan.
Proof.
  intros Hfleet. cbv zeta.
  destruct (RouterFacts.create_plan_routes self target_date)
    as (used & _ & _ & Hbuilt & _).
  assert (Hall : Forall (fun r => 50000 <= Router.cost r)
                   (Router.routes (Router.create_plan self target_date))).
  { eapply Forall_impl; [exact Hbuilt|]. intros r Hr.
    apply (RouterFacts.built_cost_fixed self r Hr).
    destruct Hr as (pool & key & v & Hin & _ & -> & _).
    rewrite RouterFacts.nearest_neighbor_vehicle_id.
    rewrite Hfleet in Hin.
    rewrite (RouterFacts.default_fleet_lookup key v Hin). eauto. }
  split; [exact Hall|].
  unfold Router.total_cost.
  pose proof (RouterFacts.fold_Rplus_ge 50000
                (map Router.cost
                   (Router.routes (Router.create_plan self target_date)))
                0) as H.
  rewrite length_map, Rplus_0_l, Rmult_comm in H. apply H.
  apply List.Forall_forall. intros c (r & <- & Hr)%in_map_iff.
  rewrite List.Forall_forall in Hall. now apply Hall.
Qed.

Lemma plan_cost_floor_witness :
  50000 * INR (length (Router.routes
                         (Router.create_plan Examples.demo_router 0%Q)))
  <= Router.total_cost (Router.create_plan Examples.demo_router 0%Q).
Proof.
  exact (proj2 (plan_cost_floor Examples.demo_router 0%Q eq_refl)).
Defined.

(** X12, JSON report of a plan: for a plan of [create_plan],
    [format_plan_json] lists one entry per route, in route order (its
    filter on routes with stops drops none); the stop entries together with
    the unassigned entries number the input shipments; every unassigned
    entry has the reason [capacity_exceeded]; and the vehicle name is the
    one filed under the route's id in the default table, or the id itself,
    with cost 0, when the table has no such id. *)
Theorem plan_json_report
  (self : Router.DeliveryRouter) (target_date : Py.datetime) :
  let plan := Router.create_plan self target_date in
  let report := Router.format_plan_json plan in
  map Router.json_vehicle_id (Router.json_routes report)
  = map Router.route_vehicle_id (Router.routes plan)
  /\ (length (concat (map Router.json_stops (Router.json_routes report)))
      + length (Router.json_unassigned report)
      = length (Router.shipments self))%nat
  /\ Forall (fun e => Router.json_reason e = "capacity_exceeded"%string)
       (Router.json_unassigned report)
  /\ Forall
       (fun e =>
          match Router.dict_get Router.VEHICLES (Router.json_vehicle_id e) with
          | Some vehicle => Router.json_vehicle_name e = Router.name vehicle
          | None =>
              Router.json_vehicle_name e = Router.json_vehicle_id e
              /\ Router.json_cost e = 0%Z
          end)
       (Router.json_routes report).
Proof.
  cbv zeta.
  destruct (RouterFacts.create_plan_routes self target_date)
    as (used & _ & _ & Hbuilt & _).
  assert (Hkeep : List.filter
                    (fun r => match Router.stops r with
                              | [] => false
                              | _ :: _ => true
                              end)
                    (Router.routes (Router.create_plan self target_date))
                  = Router.routes (Router.create_plan self target_date)).
  { apply RouterFacts.filter_all.
    eapply Forall_impl; [exact Hbuilt|].
    intros r (pool & key & v & _ & _ & _ & Hstops).
    now destruct (Router.stops r). }
  unfold Router.format_plan_json.
  cbn [Router.json_routes Router.json_unassigned]. rewrite Hkeep.
  split; [|split; [|split]].
  - rewrite map_map. reflexivity.
  - rewrite map_map. cbn [Router.route_entry Router.json_stops].
    rewrite length_map.
    rewrite <- (Permutation_length
                  (RouterFacts.create_plan_keeps_shipments self target_date)).
    rewrite length_app. f_equal. unfold RouterSpec.assigned.
    generalize (Router.routes (Router.create_plan self target_date)).
    intros l. induction l as [|r l IH]; [reflexivity|].
    simpl. rewrite !length_app, IH, length_map. reflexivity.
  - apply List.Forall_forall. intros e (s & <- & _)%in_map_iff. reflexivity.
  - apply List.Forall_forall. intros e (r & <- & _)%in_map_iff.
    cbn [Router.route_entry Router.json_vehicle_id Router.json_vehicle_name
         Router.json_cost].
    unfold Router.vehicle_name.
    destruct (Router.dict_get Router.VEHICLES (Router.route_vehicle_id r))
      as [vehicle|] eqn:Hget; [reflexivity|].
    split; [reflexivity|].
    rewrite (RouterFacts.cost_unknown r Hget).
    apply RouterFacts.int_of_float_zero.
Qed.

End RouterProperties.

(** ** The production scheduler *)

Section SchedulerProperties.
Local Open Scope Q_scope.

(** X13, the order of scheduling: [sort_orders_for_scheduling] returns the
    same orders, arranged so that an order comes no later than another when
    its priority is higher, or the priorities are equal and it is due
    earlier, or both are equal and its colour is CLEAR or the other's is not;
    orders with the same key keep their input order. *)
Theorem sort_orders_for_scheduling_order
  (l : list Scheduler.Order) (o : Scheduler.Order) :
  let sorted := Scheduler.sort_orders_for_scheduling l in
  Permutation sorted l
  /\ StronglySorted SchedulerSpec.precedes sorted
  /\ List.filter (SchedulerSpec.same_key o) sorted
     = List.filter (SchedulerSpec.same_key o) l.
Proof.
  cbv zeta. split; [apply sorted_perm|]. split.
  - apply SchedulerFacts.sort_orders_precedes.
  - apply SchedulerFacts.sort_orders_stable.
Qed.

(** X14, width groups: [group_orders_by_width] files under a key exactly
    the orders whose width, rounded down to a multiple of 100, is that key,
    in input order; a key without such an order is absent; a key that is
    present is a multiple of 100 and every order under it is at least the
    key and less than 100 wider. *)
Theorem width_groups (self : Scheduler.ProductionScheduler) (k : Z) :
  let groups := Scheduler.group_orders_by_width self in
  let members :=
    List.filter (fun o => (Scheduler.width_mm o / 100 * 100 =? k)%Z)
      (Scheduler.sched_orders self) in
  groups !! k = match members with [] => None | _ :: _ => Some members end
  /\ (forall g,
        groups !! k = Some g ->
        g <> []
        /\ (k mod 100 = 0)%Z
        /\ Forall (fun o => (k <= Scheduler.width_mm o < k + 100)%Z) g).
Proof.
  cbv zeta.
  pose proof (SchedulerFacts.group_orders_by_width_lookup self k) as Hlook.
  unfold SchedulerSpec.width_group in Hlook.
  split.
  { rewrite Hlook. now destruct (List.filter _ (Scheduler.sched_orders self)). }
  intros g Hg. rewrite Hlook in Hg.
  assert (Hall : Forall (fun o => (Scheduler.width_mm o / 100 * 100 = k)%Z) g).
  { destruct (List.filter _ (Scheduler.sched_orders self)) as [|x rest] eqn:Hf;
      [discriminate|].
    injection Hg as <-. rewrite <- Hf.
    apply List.Forall_forall. intros o Ho.
    apply filter_In in Ho as [_ Ho]. now apply Z.eqb_eq in Ho. }
  assert (Hne : g <> []).
  { destruct (List.filter _ (Scheduler.sched_orders self)); [discriminate|].
    injection Hg as <-. discriminate. }
  split; [exact Hne|].
  destruct g as [|x rest]; [now contradiction Hne|].
  split.
  - apply List.Forall_inv in Hall. rewrite <- Hall.
    apply (proj2 (SchedulerFacts.width_group_bounds x)).
  - eapply Forall_impl; [exact Hall|]. intros o <-.
    apply (proj1 (SchedulerFacts.width_group_bounds o)).
Qed.

(** X15, setup time outside the table: [calculate_setup_time] is always
    between 10 and 45 minutes, and for a colour pair the table does not
    have (a colour other than CLEAR and COLOR on either side) it is the
    default, 30. *)
Theorem setup_time_outside_table (from_color to_color : string) :
  (from_color <> "CLEAR" /\ from_color <> "COLOR")%string
  \/ (to_color <> "CLEAR" /\ to_color <> "COLOR")%string ->
  Scheduler.calculate_setup_time from_color to_color = 30%Z
  /\ forall a b, (10 <= Scheduler.calculate_setup_time a b <= 45)%Z.
Proof.
  intros H. split; [now apply SchedulerFacts.calculate_setup_time_default|].
  intros a b.
  destruct (SchedulerFacts.calculate_setup_time_cases a b)
    as [E|[E|[E|E]]]; rewrite E; lia.
Qed.

Lemma setup_time_outside_table_witness :
  Scheduler.calculate_setup_time "BLUE" "CLEAR" = 30%Z.
Proof.
  apply (setup_time_outside_table "BLUE" "CLEAR").
  left. split; discriminate.
Defined.

(** X16, the only errors: if [create_schedule] raises, some order has a
    width-compatible, available machine of the scheduler, and either the
    error is a division by zero and that machine's speed is 0, or the error
    is an overflow, of the order's metres that do not convert to a [float]
    or of the [datetime] arithmetic on a machine whose speed is not 0; a
    missing machine state (KeyError) never occurs. *)
Theorem create_schedule_error
  (self : Scheduler.ProductionScheduler) (target_date : Py.datetime)
  (e : Py.exn) :
  Scheduler.create_schedule self target_date = inl e ->
  e <> Py.KeyError
  /\ exists o m,
       In o (Scheduler.sched_orders self)
       /\ In m (Scheduler.machines self)
       /\ Scheduler.available m = true
       /\ (Scheduler.width_min m <= Scheduler.width_mm o
           <= Scheduler.width_max m)%Z
       /\ ((e = Py.ZeroDivisionError /\ Scheduler.speed_m_per_min m == 0)
           \/ (e = Py.OverflowError
               /\ (Py.float_fits (Scheduler.quantity_rolls o * 1000) = false
                   \/ ~ Scheduler.speed_m_per_min m == 0))).
Proof.
  intros H.
  destruct (SchedulerFacts.create_schedule_raises self target_date e H)
    as (o & Ho & m & Hm & Hcase).
  split.
  { destruct Hcase as [[-> _]|[-> _]]; discriminate. }
  exists o, m.
  apply SchedulerFacts.compatible_machine in Hm as (Hin & Hav & Hw).
  repeat (split; [assumption|]).
  destruct Hcase as [(-> & _ & Hz)|(-> & [Hfit|Hnz])].
  - now left.
  - right. split; [reflexivity|]. left.
    unfold SchedulerSpec.measurable in Hfit.
    now destruct (Py.float_fits (Scheduler.quantity_rolls o * 1000)).
  - right. split; [reflexivity|]. now right.
Qed.

Lemma create_schedule_error_witness :
  Scheduler.create_schedule Examples.stalled_scheduler 0
  = inl Py.ZeroDivisionError
  /\ exists m,
       In m (Scheduler.machines Examples.stalled_scheduler)
       /\ Scheduler.speed_m_per_min m == 0.
Proof.
  assert (H : Scheduler.create_schedule Examples.stalled_scheduler 0
              = inl Py.ZeroDivisionError) by (vm_compute; reflexivity).
  split; [exact H|].
  destruct (create_schedule_error Examples.stalled_scheduler 0 _ H)
    as (_ & o & m & _ & Hm & _ & _ & [[_ Hz]|[He _]]).
  - exists m. split; [exact Hm | exact Hz].
  - discriminate He.
Defined.

(** X17, what a slot holds: every slot of a returned schedule holds exactly
    one order of the scheduler, on an available machine of the scheduler
    whose width range contains the order's width; its setup time is one of
    10, 20, 30, 45 minutes and its duration is the order's production time
    on that machine. *)
Theorem slots_hold_one_order
  (self : Scheduler.ProductionScheduler) (target_date : Py.datetime)
  (s : Scheduler.Schedule) :
  Scheduler.create_schedule self target_date = inr s ->
  Forall
    (fun slot =>
       exists m order,
         Scheduler.orders slot = [order]
         /\ In order (Scheduler.sched_orders self)
         /\ In m (Scheduler.machines self)
         /\ Scheduler.slot_machine_id slot = Scheduler.machine_id m
         /\ Scheduler.available m = true
         /\ (Scheduler.width_min m <= Scheduler.width_mm order
             <= Scheduler.width_max m)%Z
         /\ In (Scheduler.setup_time_min slot) [10; 20; 30; 45]%Z
         /\ Scheduler.duration_hours slot
            == SchedulerSpec.production_hours order m)
    (Scheduler.slots s).
Proof.
  intros Hs.
  pose proof (SchedulerFacts.create_schedule_sound self target_date s Hs)
    as Hsound.
  apply SchedulerFacts.create_schedule_progress in Hs
    as (p & _ & _ & _ & Hperm).
  apply List.Forall_forall. intros slot Hslot.
  rewrite List.Forall_forall in Hsound.
  destruct (Hsound slot Hslot)
    as (m & order & Hm & Hav & Hw & _ & Hid & Ho & Ht & Hend).
  exists m, order. split; [exact Ho|]. split.
  { eapply Permutation_in; [exact Hperm|].
    apply in_or_app. left. unfold SchedulerSpec.scheduled.
    apply in_concat. exists (Scheduler.orders slot). split.
    - now apply in_map.
    - rewrite Ho. now left. }
  split; [exact Hm|]. split; [exact Hid|]. split; [exact Hav|].
  split; [exact Hw|]. split; [exact Ht|].
  unfold Scheduler.duration_hours. rewrite Hend. ring.
Qed.

Lemma slots_hold_one_order_witness :
  exists s,
    Scheduler.create_schedule Examples.demo_scheduler 0 = inr s
    /\ Forall (fun slot => length (Scheduler.orders slot) = 1%nat)
         (Scheduler.slots s).
Proof.
  eexists. split; [vm_compute; reflexivity|].
  eapply Forall_impl.
  - apply (slots_hold_one_order Examples.demo_scheduler 0).
    vm_compute. reflexivity.
  - intros slot (m & order & -> & _). reflexivity.
Defined.

(** X18, item limit: in a returned schedule, a machine id that has slots
    belongs to a machine of the scheduler whose [max_items_per_cycle] is at
    least the number of those slots. *)
Theorem item_limit_respected
  (self : Scheduler.ProductionScheduler) (target_date : Py.datetime)
  (s : Scheduler.Schedule) (id : string) :
  Scheduler.create_schedule self target_date = inr s ->
  SchedulerSpec.slots_of id (Scheduler.slots s) <> [] ->
  exists m,
    In m (Scheduler.machines self)
    /\ Scheduler.machine_id m = id
    /\ (Z.of_nat (length (SchedulerSpec.slots_of id (Scheduler.slots s)))
        <= Scheduler.max_items_per_cycle m)%Z.
Proof.
  intros Hs Hne.
  destruct (SchedulerFacts.create_schedule_counted self target_date s Hs)
    as (p & -> & [_ Hlimit]).
  now apply Hlimit.
Qed.

Lemma item_limit_respected_witness :
  exists s,
    Scheduler.create_schedule Examples.demo_scheduler 0 = inr s
    /\ exists m,
         In m (Scheduler.machines Examples.demo_scheduler)
         /\ Scheduler.machine_id m = "M1"%string
         /\ (Z.of_nat (length (SchedulerSpec.slots_of "M1"
                                 (Scheduler.slots s)))
             <= Scheduler.max_items_per_cycle m)%Z.
Proof.
  eexists. split; [vm_compute; reflexivity|].
  apply (item_limit_respected Examples.demo_scheduler 0).
  - vm_compute. reflexivity.
  - vm_compute. discriminate.
Defined.

(** X19, inside the work day: when no order has a negative quantity and
    every machine has a positive speed, each slot of a returned schedule
    starts after 08:00 of the target date (the setup comes first), does not
    end before it starts, ends by 20:00, and so lasts less than 12 hours. *)
Theorem slots_inside_work_day
  (self : Scheduler.ProductionScheduler) (target_date : Py.datetime)
  (s : Scheduler.Schedule) :
  (forall o, In o (Scheduler.sched_orders self) ->
             (0 <= Scheduler.quantity_rolls o)%Z) ->
  (forall m, In m (Scheduler.machines self) ->
             0 < Scheduler.speed_m_per_min m) ->
  Scheduler.create_schedule self target_date = inr s ->
  forall slot,
    In slot (Scheduler.slots s) ->
    Py.combine_hour target_date Scheduler.WORK_START_HOUR
    < Scheduler.start_time slot
    /\ Scheduler.start_time slot <= Scheduler.end_time slot
    /\ Scheduler.end_time slot
       <= Py.combine_hour target_date Scheduler.WORK_END_HOUR
    /\ 0 <= Scheduler.duration_hours slot
    /\ Scheduler.duration_hours slot < 12.
Proof.
  intros Hq Hspeed Hs slot Hslot.
  destruct (SchedulerFacts.create_schedule_punctual self target_date s
              Hq Hspeed Hs) as (p & -> & [_ Hpunct]).
  apply SchedulerFacts.create_schedule_progress in Hs
    as (p' & Heq & _ & [Hwin _ _] & _).
  destruct (Hpunct slot Hslot) as [Hstart Hdur].
  assert (Hend : Scheduler.end_time slot <= SchedulerSpec.work_end target_date).
  { apply Hwin. now rewrite <- Heq. }
  pose proof (SchedulerFacts.work_day_length target_date) as Hday.
  unfold SchedulerSpec.work_start, SchedulerSpec.work_end in *.
  unfold Scheduler.duration_hours.
  repeat split; try assumption; lra.
Qed.

Lemma slots_inside_work_day_witness :
  exists s,
    Scheduler.create_schedule Examples.demo_scheduler 0 = inr s
    /\ forall slot,
         In slot (Scheduler.slots s) ->
         Py.combine_hour 0 Scheduler.WORK_START_HOUR
         < Scheduler.start_time slot.
Proof.
  eexists. split; [vm_compute; reflexivity|].
  intros slot Hslot.
  refine (proj1 (slots_inside_work_day Examples.demo_scheduler 0 _ _ _ _
                   slot Hslot)).
  - intros o Ho. simpl in Ho.
    repeat (destruct Ho as [<-|Ho]; [simpl; lia|]). destruct Ho.
  - intros m Hm. simpl in Hm.
    repeat (destruct Hm as [<-|Hm]; [reflexivity|]). destruct Hm.
  - vm_compute. reflexivity.
Defined.

(** X20, orders keep their turn: in a returned schedule the scheduled
    orders, in slot order, and the unscheduled orders are each a sublist of
    the sorted orders, so both lists run from higher to lower priority, by
    due date within a priority. *)
Theorem schedule_keeps_sorted_order
  (self : Scheduler.ProductionScheduler) (target_date : Py.datetime)
  (s : Scheduler.Schedule) :
  Scheduler.create_schedule self target_date = inr s ->
  let sorted_orders :=
    Scheduler.sort_orders_for_scheduling (Scheduler.sched_orders self) in
  SchedulerSpec.scheduled s `sublist_of` sorted_orders
  /\ Scheduler.unscheduled_orders s `sublist_of` sorted_orders
  /\ StronglySorted SchedulerSpec.precedes (SchedulerSpec.scheduled s)
  /\ StronglySorted SchedulerSpec.precedes (Scheduler.unscheduled_orders s).
Proof.
  intros Hs. cbv zeta.
  destruct (SchedulerFacts.create_schedule_sublists self target_date s Hs)
    as [Ha Hb].
  pose proof (SchedulerFacts.sort_orders_precedes (Scheduler.sched_orders self))
    as Hsorted.
  split; [exact Ha|]. split; [exact Hb|]. split.
  - eapply StronglySorted_sublist; [exact Ha | exact Hsorted].
  - eapply StronglySorted_sublist; [exact Hb | exact Hsorted].
Qed.

Lemma schedule_keeps_sorted_order_witness :
  exists s,
    Scheduler.create_schedule Examples.demo_scheduler 0 = inr s
    /\ StronglySorted SchedulerSpec.precedes (Scheduler.unscheduled_orders s).
Proof.
  eexists. split; [vm_compute; reflexivity|].
  apply (schedule_keeps_sorted_order Examples.demo_scheduler 0).
  vm_compute. reflexivity.
Defined.

(** X21, no machine fits: when no order has a compatible machine (too
    wide, too narrow, or the machines are unavailable), [create_schedule]
    returns a schedule without slots whose unscheduled orders are all the
    orders, in sorted order. *)
Theorem no_machine_fits
  (self : Scheduler.ProductionScheduler) (target_date : Py.datetime) :
  (forall o, In o (Scheduler.sched_orders self) ->
             Scheduler.get_compatible_machines self o = []) ->
  Scheduler.create_schedule self target_date
  = inr {| Scheduler.date := target_date;
           Scheduler.slots := [];
           Scheduler.unscheduled_orders :=
             Scheduler.sort_orders_for_scheduling
               (Scheduler.sched_orders self) |}.
Proof. apply SchedulerFacts.create_schedule_no_machine. Qed.

Lemma no_machine_fits_witness :
  Scheduler.create_schedule
    (Examples.scheduler_with [Examples.wide_order]) 0
  = inr {| Scheduler.date := 0;
           Scheduler.slots := [];
           Scheduler.unscheduled_orders := [Examples.wide_order] |}.
Proof.
  apply (no_machine_fits (Examples.scheduler_with [Examples.wide_order]) 0).
  intros o [<-|[]]. reflexivity.
Defined.

(** X22, schedule summary: for a returned schedule, the summary's
    [total_orders] equals its number of slots, [total_orders] and
    [unscheduled_orders] add up to the number of input orders, the total
    setup time is between 10 and 45 minutes per slot, and [machines_used]
    is at most the number of slots and at most the number of machines. *)
Theorem schedule_summary_accounting
  (self : Scheduler.ProductionScheduler) (target_date : Py.datetime)
  (s : Scheduler.Schedule) :
  Scheduler.create_schedule self target_date = inr s ->
  let report := Scheduler.summary s in
  Scheduler.summary_total_orders report = Scheduler.summary_slots report
  /\ (Scheduler.summary_total_orders report
      + Scheduler.summary_unscheduled_orders report
      = Z.of_nat (length (Scheduler.sched_orders self)))%Z
  /\ (10 * Scheduler.summary_slots report
      <= Scheduler.summary_total_setup_time_min report
      <= 45 * Scheduler.summary_slots report)%Z
  /\ (0 <= Scheduler.summary_machines_used report
      <= Scheduler.summary_slots report)%Z
  /\ (Scheduler.summary_machines_used report
      <= Z.of_nat (length (Scheduler.machines self)))%Z.
Proof.
  intros Hs. cbv zeta.
  pose proof (SchedulerFacts.create_schedule_sound self target_date s Hs)
    as Hsound.
  apply SchedulerFacts.create_schedule_progress in Hs
    as (p & _ & _ & _ & Hperm).
  unfold Scheduler.summary.
  cbn [Scheduler.summary_total_orders Scheduler.summary_slots
       Scheduler.summary_unscheduled_orders
       Scheduler.summary_total_setup_time_min
       Scheduler.summary_machines_used].
  rewrite (SchedulerFacts.sum_slot_orders self _ 0%Z Hsound).
  pose proof (SchedulerFacts.sum_slot_setup self _ 0%Z Hsound) as Hsetup.
  pose proof (SchedulerFacts.size_list_to_set_le
                (map Scheduler.slot_machine_id (Scheduler.slots s))) as Hused.
  rewrite length_map in Hused.
  pose proof (SchedulerFacts.machines_used_fleet self _ Hsound) as Hfleet.
  apply Permutation_length in Hperm. rewrite length_app in Hperm.
  rewrite (SchedulerFacts.scheduled_length self s Hsound) in Hperm.
  repeat split; try lia.
Qed.

Lemma schedule_summary_accounting_witness :
  exists s,
    Scheduler.create_schedule Examples.demo_scheduler 0 = inr s
    /\ Scheduler.summary_total_orders (Scheduler.summary s)
       = Scheduler.summary_slots (Scheduler.summary s).
Proof.
  eexists. split; [vm_compute; reflexivity|].
  apply (schedule_summary_accounting Examples.demo_scheduler 0).
  vm_compute. reflexivity.
Defined.

(** X23, a machine's first slot: in a returned schedule, the first slot of
    a machine id holds one order and starts at 08:00 of the target date plus
    its setup time, which is the changeover from the initial colour of a
    machine with that id ([current_setup], or CLEAR when it is unset) to the
    order's colour. *)
Theorem first_slot_of_a_machine
  (self : Scheduler.ProductionScheduler) (target_date : Py.datetime)
  (s : Scheduler.Schedule) (id : string) (slot : Scheduler.ScheduleSlot)
  (rest : list Scheduler.ScheduleSlot) :
  Scheduler.create_schedule self target_date = inr s ->
  SchedulerSpec.slots_of id (Scheduler.slots s) = slot :: rest ->
  exists m order,
    In m (Scheduler.machines self)
    /\ Scheduler.machine_id m = id
    /\ Scheduler.orders slot = [order]
    /\ Scheduler.setup_time_min slot
       = Scheduler.calculate_setup_time (Scheduler.initial_color m)
           (Scheduler.color order)
    /\ Scheduler.start_time slot
       = Py.combine_hour target_date Scheduler.WORK_START_HOUR
         + Py.timedelta_minutes (Scheduler.setup_time_min slot).
Proof.
  intros Hs Hslots.
  destruct (SchedulerFacts.create_schedule_opened self target_date s Hs)
    as (p & -> & [_ Hfirst]).
  apply (Hfirst id slot rest Hslots).
Qed.

Lemma first_slot_of_a_machine_witness :
  exists s slot rest,
    Scheduler.create_schedule Examples.demo_scheduler 0 = inr s
    /\ SchedulerSpec.slots_of "M1" (Scheduler.slots s) = slot :: rest
    /\ Scheduler.start_time slot
       = Py.combine_hour 0 Scheduler.WORK_START_HOUR
         + Py.timedelta_minutes (Scheduler.setup_time_min slot).
Proof.
  eexists. eexists. eexists.
  split; [vm_compute; reflexivity|].
  split; [vm_compute; reflexivity|].
  pose proof (fun s slot rest =>
                first_slot_of_a_machine Examples.demo_scheduler 0 s
                  "M1"%string slot rest) as F.
  edestruct F as (m & order & _ & _ & _ & _ & H);
    [vm_compute; reflexivity | vm_compute; reflexivity | exact H].
Defined.

(** X24, the chain of a machine's slots: in a returned schedule, of two
    neighbouring slots of one machine id the later one starts exactly when
    the earlier one has ended and the setup is done, and its setup time is
    the changeover from the colour of the earlier slot's order to the colour
    of its own. *)
Theorem slots_chain_on_a_machine
  (self : Scheduler.ProductionScheduler) (target_date : Py.datetime)
  (s : Scheduler.Schedule) (id : string) (i : nat)
  (s1 s2 : Scheduler.ScheduleSlot) :
  Scheduler.create_schedule self target_date = inr s ->
  SchedulerSpec.slots_of id (Scheduler.slots s) !! i = Some s1 ->
  SchedulerSpec.slots_of id (Scheduler.slots s) !! S i = Some s2 ->
  exists o1 o2,
    Scheduler.orders s1 = [o1]
    /\ Scheduler.orders s2 = [o2]
    /\ Scheduler.setup_time_min s2
       = Scheduler.calculate_setup_time (Scheduler.color o1)
           (Scheduler.color o2)
    /\ Scheduler.start_time s2
       = Scheduler.end_time s1
         + Py.timedelta_minutes (Scheduler.setup_time_min s2).
Proof.
  intros Hs H1 H2.
  destruct (SchedulerFacts.create_schedule_chained self target_date s Hs)
    as (p & -> & [Hslots _]).
  apply (Hslots id i s1 s2 H1 H2).
Qed.

Lemma slots_chain_on_a_machine_witness :
  exists s s1 s2,
    Scheduler.create_schedule Examples.demo_scheduler 0 = inr s
    /\ SchedulerSpec.slots_of "M1" (Scheduler.slots s) !! 0%nat = Some s1
    /\ SchedulerSpec.slots_of "M1" (Scheduler.slots s) !! 1%nat = Some s2
    /\ Scheduler.start_time s2
       = Scheduler.end_time s1
         + Py.timedelta_minutes (Scheduler.setup_time_min s2).
Proof.
  eexists. eexists. eexists.
  split; [vm_compute; reflexivity|].
  split; [vm_compute; reflexivity|].
  split; [vm_compute; reflexivity|].
  pose proof (fun s s1 s2 =>
                slots_chain_on_a_machine Examples.demo_scheduler 0 s
                  "M1"%string 0 s1 s2) as F.
  edestruct F as (o1 & o2 & _ & _ & _ & H);
    [vm_compute; reflexivity | vm_compute; reflexivity
     | vm_compute; reflexivity | exact H].
Defined.

End SchedulerProperties.
